(** * gameplay::HeightField -- elevation grid, loaders and bilinear sampling

    A shallow embedding of [src/gameplay/src/HeightField.cpp].

    - C++ [float] is IEEE 754 binary32, taken from the Standard Library's
      [SpecFloat] at precision 24 and maximal exponent 128; every arithmetic
      operation is rounded once, to nearest, ties to even.
    - [unsigned int] and [int] are 32 bits wide; unsigned arithmetic wraps,
      and the wrap is written out with [u32].
    - Undefined behaviour (a read or a write outside a buffer, a conversion
      of a float that does not fit the integer type, a division by zero, a
      signed overflow) is the result [None] or [Undefined].
    - The collaborators [Image::create] and [FileSystem::readAll] are
      oracles of a [World]; each call is recorded in a trace of events. *)

From Stdlib Require Import ZArith Lia List Bool String Ascii QArith Qabs.
From Stdlib Require Import Floats.SpecFloat.
From Stdlib Require Import Init.Byte.
Import ListNotations.

Local Open Scope Z_scope.

(* ================================================================== *)
(** * Machine integers *)

Module Int32.

Definition modulus : Z := 2 ^ 32.
Definition INT_MAX : Z := 2 ^ 31 - 1.

(** Value of an [unsigned int] expression: reduction modulo 2^32. *)
Definition u32 (z : Z) : Z := z mod modulus.

(** Conversion to [int]: the two's complement reading of the low 32 bits. *)
Definition s32 (z : Z) : Z := (z + 2 ^ 31) mod modulus - 2 ^ 31.

(** Signed addition; an overflow is undefined. *)
Definition int_add (a b : Z) : option Z :=
  let r := a + b in
  if (- 2 ^ 31 <=? r) && (r <=? INT_MAX) then Some r else None.

End Int32.

Import Int32.

(* ================================================================== *)
(** * binary32 floating point *)

Module F32.

Definition prec : Z := 24.
Definition emax : Z := 128.

Definition float : Type := spec_float.

(** The members of [spec_float] that are binary32 values. *)
Definition is_float32 (x : float) : bool := valid_binary prec emax x.

Definition is_nan (x : float) : bool :=
  match x with S754_nan => true | _ => false end.

Definition is_finite (x : float) : bool :=
  match x with S754_zero _ | S754_finite _ _ _ => true | _ => false end.

(** The float nearest to [m * 2^e]. *)
Definition fl (m e : Z) : float := binary_normalize prec emax m e false.

(** Conversion of an integer value ([unsigned int], [int], [unsigned char])
    to [float]. *)
Definition of_int (n : Z) : float := fl n 0.

Definition fadd : float -> float -> float := SFadd prec emax.
Definition fsub : float -> float -> float := SFsub prec emax.
Definition fmul : float -> float -> float := SFmul prec emax.
Definition fdiv : float -> float -> float := SFdiv prec emax.

(** [a < b], [a > b], [a >= b]; each is false when an operand is NaN. *)
Definition flt (a b : float) : bool := SFltb a b.
Definition fgt (a b : float) : bool := SFltb b a.
Definition fge (a b : float) : bool := SFleb b a.

(** The integer part of the value, rounded toward zero. *)
Definition ftrunc (x : float) : option Z :=
  match x with
  | S754_zero _ => Some 0
  | S754_finite s m e => Some (cond_Zopp s (Z.shiftl (Zpos m) e))
  | _ => None
  end.

(** Conversion to [unsigned int]: truncation; undefined when the truncated
    value is not a value of the type, or the operand is NaN or infinite. *)
Definition to_uint (x : float) : option Z :=
  match ftrunc x with
  | Some n => if (0 <=? n) && (n <? modulus) then Some n else None
  | None => None
  end.

(** Largest integer not above the value. *)
Definition ffloor (x : float) : option Z :=
  match x with
  | S754_zero _ => Some 0
  | S754_finite false m e => Some (Z.shiftl (Zpos m) e)
  | S754_finite true m e =>
      Some (if 0 <=? e then - (Zpos m * 2 ^ e)
            else - ((Zpos m + 2 ^ (- e) - 1) / 2 ^ (- e)))
  | _ => None
  end.

(** [modf(x, &ipart)]: the fractional part, with the sign of [x]. *)
Definition modf (x : float) : float :=
  match x with
  | S754_zero _ => x
  | S754_infinity s => S754_zero s
  | S754_nan => S754_nan
  | S754_finite s m e =>
      if 0 <=? e then S754_zero s
      else binary_normalize prec emax
             (cond_Zopp s (Zpos m mod 2 ^ (- e))) e s
  end.

(** The literals of the source; each is a binary32 value. *)
Definition f0 : float := of_int 0.
Definition f1 : float := of_int 1.
Definition f255 : float := of_int 255.
Definition f256 : float := of_int 256.
Definition f65535 : float := of_int 65535.
Definition f65536 : float := of_int 65536.
(** 0.00390625f = 2^-8 *)
Definition f0_00390625 : float := fl 1 (-8).

(** The rational value of a finite float (0 for the others). *)
Definition F2Q (x : float) : Q :=
  match x with
  | S754_finite s m e =>
      match e with
      | Zneg p => Qmake (cond_Zopp s (Zpos m)) (2 ^ p)%positive
      | _ => inject_Z (cond_Zopp s (Zpos m * 2 ^ e))
      end
  | _ => 0%Q
  end.

(** Numeric equality [==] of two floats that are not NaN. *)
Definition feq (a b : float) : bool := SFeqb a b.

End F32.

Import F32.

(* ================================================================== *)
(** * Buffers *)

(** A [float] array on the heap: its allocated length and its cells. *)
Record farray : Type := { fa_size : Z; fa_cell : Z -> float }.

(** [a[i]] as an rvalue; outside the allocation the read is undefined. *)
Definition fa_load (a : farray) (i : Z) : option float :=
  if (0 <=? i) && (i <? fa_size a) then Some (fa_cell a i) else None.

(** [a[i] = v]; outside the allocation the write is undefined. *)
Definition fa_store (a : farray) (i : Z) (v : float) : option farray :=
  if (0 <=? i) && (i <? fa_size a)
  then Some {| fa_size := fa_size a;
               fa_cell := fun j => if j =? i then v else fa_cell a j |}
  else None.

(** An [unsigned char] buffer and its reads. *)
Definition bytes : Type := list byte.

Definition byte_val (b : byte) : Z := Z.of_N (Byte.to_N b).

Definition rd (d : bytes) (i : Z) : option Z :=
  if i <? 0 then None else option_map byte_val (nth_error d (Z.to_nat i)).

(* ================================================================== *)
(** * The elevation grid *)

Record HeightField : Type :=
  { _array : farray; _cols : Z; _rows : Z }.

(** [HeightField::HeightField(columns, rows)]: [new float[columns * rows]],
    the product taken in [unsigned int]; the cells are not initialised and
    hold whatever [junk] the allocator left there. *)
Definition HeightField_new (junk : Z -> float) (columns rows : Z) : HeightField :=
  {| _array := {| fa_size := u32 (columns * rows); fa_cell := junk |};
     _cols := columns;
     _rows := rows |}.

Definition getArray (h : HeightField) : farray := _array h.
Definition getColumnCount (h : HeightField) : Z := _cols h.
Definition getRowCount (h : HeightField) : Z := _rows h.

(** The grid of the data model: the dimensions are [unsigned int] values and
    the buffer holds exactly [columns * rows] cells. *)
Definition grid_ok (h : HeightField) : Prop :=
  0 <= _cols h < modulus /\ 0 <= _rows h < modulus /\
  fa_size (_array h) = _cols h * _rows h /\
  _cols h * _rows h < modulus.

(** Every cell holds a binary32 value. *)
Definition cells_ok (h : HeightField) : Prop :=
  forall i, is_float32 (fa_cell (_array h) i) = true.

(* ------------------------------------------------------------------ *)
(** ** getHeight *)

(** [v < 0 ? 0 : (v > (n-1) ? (n-1) : v)] with [n] an [unsigned int]. *)
Definition clamp (v : float) (n : Z) : float :=
  if flt v (of_int 0) then of_int 0
  else if fgt v (of_int (u32 (n - 1))) then of_int (u32 (n - 1))
  else v.

(** The cells one call reads, by the branch taken. *)
Inductive access : Type :=
| Corner (i11 : Z)
| AlongRows (i11 i12 : Z)
| AlongColumns (i11 i21 : Z)
| Bilinear (i11 i12 i22 i21 : Z).

Definition access_indices (a : access) : list Z :=
  match a with
  | Corner i => [i]
  | AlongRows i j => [i; j]
  | AlongColumns i j => [i; j]
  | Bilinear i j k l => [i; j; k; l]
  end.

(** The integer half of [getHeight]: the clamped coordinates, the cell
    coordinates and the branch.  [None] when a conversion to
    [unsigned int] is undefined. *)
Definition getHeight_access (h : HeightField) (column row : float)
  : option (access * float * float) :=
  let column := clamp column (_cols h) in
  let row := clamp row (_rows h) in
  match to_uint column, to_uint row with
  | Some x1, Some y1 =>
      let x2 := u32 (x1 + 1) in
      let y2 := u32 (y1 + 1) in
      let ix x y := u32 (x + u32 (y * _cols h)) in
      let a :=
        if (_cols h <=? x2) && (_rows h <=? y2) then Corner (ix x1 y1)
        else if _cols h <=? x2 then AlongRows (ix x1 y1) (ix x1 y2)
        else if _rows h <=? y2 then AlongColumns (ix x1 y1) (ix x2 y1)
        else Bilinear (ix x1 y1) (ix x1 y2) (ix x2 y2) (ix x2 y1) in
      Some (a, column, row)
  | _, _ => None
  end.

Definition getHeight (h : HeightField) (column row : float) : option float :=
  match getHeight_access h column row with
  | None => None
  | Some (a, column, row) =>
      let xFactor := modf column in
      let yFactor := modf row in
      let xFactorI := fsub f1 xFactor in
      let yFactorI := fsub f1 yFactor in
      let A := fa_load (_array h) in
      match a with
      | Corner i11 => A i11
      | AlongRows i11 i12 =>
          match A i11, A i12 with
          | Some h11, Some h12 =>
              Some (fadd (fmul h11 yFactorI) (fmul h12 yFactor))
          | _, _ => None
          end
      | AlongColumns i11 i21 =>
          match A i11, A i21 with
          | Some h11, Some h21 =>
              Some (fadd (fmul h11 xFactorI) (fmul h21 xFactor))
          | _, _ => None
          end
      | Bilinear i11 i12 i22 i21 =>
          match A i11, A i12, A i22, A i21 with
          | Some h11, Some h12, Some h22, Some h21 =>
              let a := fmul xFactorI yFactorI in
              let b := fmul xFactorI yFactor in
              let c := fmul xFactor yFactor in
              let d := fmul xFactor yFactorI in
              Some (fadd (fadd (fadd (fmul h11 a) (fmul h12 b)) (fmul h22 c))
                         (fmul h21 d))
          | _, _, _, _ => None
          end
      end
  end.

(* ================================================================== *)
(** * The packed-channel height decoder *)

(** [(256.0f*r + g + 0.00390625f*b) / 65536.0f] *)
Definition normalizedHeightPacked (r g b : float) : float :=
  fdiv (fadd (fadd (fmul f256 r) g) (fmul f0_00390625 b)) f65536.

(* ================================================================== *)
(** * The collaborators and the effects of a load *)

(** [Image::Format]; [create] handles [RGB] and [RGBA] and sends every
    other tag to its [default:] label. *)
Inductive ImageFormat : Type := RGB | RGBA | OtherFormat.

(** What the code reads of an [Image]: [getFormat()], [getWidth()],
    [getHeight()] and [getData()]. *)
Record Image : Type :=
  { img_format : ImageFormat; img_width : Z; img_height : Z; img_data : bytes }.

(** The decoder's contract: dimensions of at most 2^31 - 1 (the limit of
    the PNG format) and a buffer of [width * height * bpp] bytes that an
    [int] can index. *)
Definition image_ok (im : Image) (bpp : Z) : Prop :=
  0 <= img_width im <= INT_MAX /\ 0 <= img_height im <= INT_MAX /\
  Z.of_nat (List.length (img_data im)) = img_width im * img_height im * bpp /\
  img_width im * img_height im * bpp <= INT_MAX.

(** [pixelSize] as the [switch] on the format sets it; [None] is the
    [default:] label. *)
Definition pixel_size (f : ImageFormat) : option Z :=
  match f with RGB => Some 3 | RGBA => Some 4 | OtherFormat => None end.

Inductive warning : Type :=
| WarnExtension        (* Unrecognized file extension for heightfield image *)
| WarnPixelFormat      (* Unsupported pixel format for heightfield image *)
| WarnRawParameters    (* Invalid 'width', 'height' or 'maxHeight' parameter *)
| WarnRawRead          (* Falied to read bytes from RAW heightfield image *)
| WarnRawBits          (* Invalid RAW file - must be 8-bit or 16-bit *)
| WarnImageFormat.     (* Unsupported heightfield image format *)

Inductive event : Type :=
| EvImageCreate (path : string)
| EvReadAll (path : string)
| EvWarn (w : warning) (path : string).

(** The events that touch the file system or the image decoder. *)
Definition is_io (e : event) : bool :=
  match e with EvWarn _ _ => false | _ => true end.

Record World : Type :=
  { (** [Image::create(path)]; [None] is the null pointer. *)
    Image_create : string -> option Image;
    (** [FileSystem::readAll(path, &fileSize)]; [None] is the null pointer,
        and [fileSize] is the length of the buffer. *)
    FileSystem_readAll : string -> option bytes;
    (** Whether [GP_ASSERT] checks its condition (it is empty in a release
        build). *)
    assertions : bool;
    (** The contents of freshly allocated memory. *)
    junk : Z -> float }.

Inductive outcome (A : Type) : Type :=
| Done (a : A)
| Undefined
| AssertFailed.

Arguments Done {A} a.
Arguments Undefined {A}.
Arguments AssertFailed {A}.

(** A computation: the events it caused, in order, and how it ended. *)
Definition M (A : Type) : Type := (list event * outcome A)%type.

Definition ret {A} (a : A) : M A := ([], Done a).

Definition bind {A B} (m : M A) (k : A -> M B) : M B :=
  match m with
  | (t, Done a) => let (t', r) := k a in (t ++ t', r)
  | (t, Undefined) => (t, Undefined)
  | (t, AssertFailed) => (t, AssertFailed)
  end.

Declare Scope load_scope.
Delimit Scope load_scope with load.
Notation "x <- m ;; k" := (bind m (fun x => k))
  (at level 61, m at next level, right associativity) : load_scope.
Notation "m ;; k" := (bind m (fun _ => k))
  (at level 61, right associativity) : load_scope.

Definition emit (e : event) : M unit := ([e], Done tt).

Definition GP_WARN (w : warning) (path : string) : M unit := emit (EvWarn w path).

(** A pure step that may be undefined. *)
Definition defined {A} (o : option A) : M A :=
  match o with Some a => ret a | None => ([], Undefined) end.

(** Option sequencing for the loop bodies. *)
Definition obind {A B} (o : option A) (k : A -> option B) : option B :=
  match o with Some a => k a | None => None end.

Notation "x <-? o ;; k" := (obind o (fun x => k))
  (at level 61, o at next level, right associativity).

(* ================================================================== *)
(** * The loaders *)

Section Loops.

Variables (minHeight heightScale : float).

(** The state of the nested loops: the counter [i] and the heights. *)
Definition lstate : Type := (Z * farray)%type.

(** [heights[i++] = v] for the image loop, [heights[i] = v; ++i] for the
    RAW loops. *)
Definition put (st : lstate) (v : float) : option lstate :=
  let '(i, heights) := st in
  heights' <-? fa_store heights i v ;;
  i' <-? int_add i 1 ;;
  Some (i', heights').

(** One pixel of the image loop. *)
Definition image_pixel (data : bytes) (w pixelSize y x : Z) (st : lstate)
  : option lstate :=
  let idx := s32 (u32 (u32 (u32 (u32 y * w) + x) * pixelSize)) in
  idx1 <-? int_add idx 1 ;;
  idx2 <-? int_add idx 2 ;;
  r <-? rd data idx ;;
  g <-? rd data idx1 ;;
  b <-? rd data idx2 ;;
  put st (fadd minHeight
            (fmul (normalizedHeightPacked (of_int r) (of_int g) (of_int b))
                  heightScale)).

(** One sample of the 16-bit RAW loop. *)
Definition raw16_sample (data : bytes) (width y x : Z) (st : lstate)
  : option lstate :=
  let idx := s32 (u32 (u32 (u32 (u32 y * width) + x) * 2)) in
  idx1 <-? int_add idx 1 ;;
  lo <-? rd data idx ;;
  hi <-? rd data idx1 ;;
  put st (fadd minHeight
            (fmul (fdiv (of_int (Z.lor lo (Z.shiftl hi 8))) f65535)
                  heightScale)).

(** One sample of the 8-bit RAW loop. *)
Definition raw8_sample (data : bytes) (width y x : Z) (st : lstate)
  : option lstate :=
  v <-? rd data (u32 (u32 (u32 y * width) + x)) ;;
  put st (fadd minHeight (fmul (fdiv (of_int v) f255) heightScale)).

Variable body : Z -> Z -> lstate -> option lstate.   (* y, x *)

(** [for (unsigned int x = x0; x < w; ++x) body], with [n] the number of
    iterations left. *)
Fixpoint row_loop (n : nat) (y x : Z) (st : lstate) : option lstate :=
  match n with
  | O => Some st
  | S n' => st' <-? body y x st ;; row_loop n' y (u32 (x + 1)) st'
  end.

(** [for (int y = k - 1; y >= 0; --y) for (x = 0; x < w; ++x) body]. *)
Fixpoint rows_loop (k : nat) (w : Z) (st : lstate) : option lstate :=
  match k with
  | O => Some st
  | S k' =>
      st' <-? row_loop (Z.to_nat w) (Z.of_nat k') 0 st ;;
      rows_loop k' w st'
  end.

(** The nest entered with [int y = h - 1] for an [unsigned int h]. *)
Definition fill (w h : Z) (heights : farray) : option farray :=
  let y0 := s32 (u32 (h - 1)) in
  option_map snd (rows_loop (Z.to_nat (y0 + 1)) w (0, heights)).

End Loops.

(* ------------------------------------------------------------------ *)
(** ** The file name *)

(** [toupper] in the "C" locale. *)
Definition toupper (c : ascii) : ascii :=
  let n := nat_of_ascii c in
  if (Nat.leb 97 n && Nat.leb n 122)%bool then ascii_of_nat (n - 32) else c.

(** [ext = path + (pathLength - 4)]: the last four characters. *)
Definition ext (path : string) : list ascii :=
  list_ascii_of_string (substring (String.length path - 4) 4 path).

(** [ext[0] == '.' && toupper(ext[1]) == a && toupper(ext[2]) == b &&
    toupper(ext[3]) == c] *)
Definition ext_is (path : string) (a b c : ascii) : bool :=
  match ext path with
  | [e0; e1; e2; e3] =>
      (Ascii.eqb e0 "." && Ascii.eqb (toupper e1) a &&
       Ascii.eqb (toupper e2) b && Ascii.eqb (toupper e3) c)%bool
  | _ => false
  end.

(* ------------------------------------------------------------------ *)
(** ** create *)

Section Create.

Variable W : World.

Local Open Scope load_scope.

Definition GP_ASSERT (c : bool) : M unit :=
  if (assertions W && negb c)%bool then ([], AssertFailed) else ret tt.

Definition call_Image_create (path : string) : M (option Image) :=
  emit (EvImageCreate path) ;; ret (Image_create W path).

Definition call_readAll (path : string) : M (option bytes) :=
  emit (EvReadAll path) ;; ret (FileSystem_readAll W path).

(** [HeightField::create(columns, rows)] *)
Definition create_empty (columns rows : Z) : HeightField :=
  HeightField_new (junk W) columns rows.

(** The branch of [create] for a [.png] path. *)
Definition create_png (path : string) (minHeight heightScale : float)
  : M (option HeightField) :=
  image <- call_Image_create path ;;
  match image with
  | None => ret None
  | Some image =>
      match pixel_size (img_format image) with
      | None => GP_WARN WarnPixelFormat path ;; ret None
      | Some pixelSize =>
          let heightfield :=
            create_empty (img_width image) (img_height image) in
          let w := img_width image in
          heights <- defined
            (fill (image_pixel minHeight heightScale
                     (img_data image) w pixelSize)
                  w (img_height image) (getArray heightfield)) ;;
          ret (Some {| _array := heights;
                       _cols := _cols heightfield;
                       _rows := _rows heightfield |})
      end
  end.

(** The branch of [create] for a [.raw] path. *)
Definition create_raw (path : string) (width height : Z)
           (minHeight maxHeight heightScale : float)
  : M (option HeightField) :=
  if ((width <? 2) || (height <? 2) || flt maxHeight (of_int 0))%bool
  then GP_WARN WarnRawParameters path ;; ret None
  else
    data <- call_readAll path ;;
    match data with
    | None => GP_WARN WarnRawRead path ;; ret None
    | Some data =>
        let fileSize := s32 (Z.of_nat (List.length data)) in
        let wh := u32 (width * height) in
        q <- defined (if wh =? 0 then None else Some (u32 fileSize / wh)) ;;
        let bits := s32 (u32 (q * 8)) in
        if (negb (bits =? 8) && negb (bits =? 16))%bool
        then GP_WARN WarnRawBits path ;; ret None
        else
          let heightfield := create_empty width height in
          heights <- defined
            (fill (if bits =? 16
                   then raw16_sample minHeight heightScale data width
                   else raw8_sample minHeight heightScale data width)
                  width height (getArray heightfield)) ;;
          ret (Some {| _array := heights;
                       _cols := _cols heightfield;
                       _rows := _rows heightfield |})
    end.

(** [HeightField::create(path, width, height, minHeight, maxHeight)];
    [Done None] is the null pointer.  A [string] is never the null
    pointer, so [GP_ASSERT(path)] always passes. *)
Definition create (path : string) (width height : Z)
           (minHeight maxHeight : float) : M (option HeightField) :=
  GP_ASSERT (fge maxHeight minHeight) ;;
  let pathLength := Z.of_nat (String.length path) in
  if pathLength <=? 4
  then GP_WARN WarnExtension path ;; ret None
  else
    let heightScale := fsub maxHeight minHeight in
    if ext_is path "P" "N" "G"
    then create_png path minHeight heightScale
    else if ext_is path "R" "A" "W"
    then create_raw path width height minHeight maxHeight heightScale
    else GP_WARN WarnImageFormat path ;; ret None.

Definition createFromImage (path : string) (minHeight maxHeight : float)
  : M (option HeightField) :=
  create path 0 0 minHeight maxHeight.

Definition createFromRAW (path : string) (width height : Z)
           (minHeight maxHeight : float) : M (option HeightField) :=
  create path width height minHeight maxHeight.

End Create.

(** The trace and the result of a computation. *)
Definition trace {A} (m : M A) : list event := fst m.
Definition result {A} (m : M A) : outcome A := snd m.

(** The load attempted no file or image input. *)
Definition no_io {A} (m : M A) : Prop := existsb is_io (trace m) = false.

(* ================================================================== *)
(** * The sampling rule in the words of the specification *)

Module Spec.

(** "Clamp both coordinates into [0, columns-1] and [0, rows-1]". *)
Definition clamp (v : float) (last : Z) : float :=
  if flt v (of_int 0) then of_int 0
  else if fgt v (of_int last) then of_int last
  else v.

(** The sample at the cell [(x, y)]: [heights[x + y*columns]]. *)
Definition sample (h : HeightField) (x y : Z) : option float :=
  fa_load (_array h) (x + y * _cols h).

(** Linear interpolation between [a] and [b] with weight [t]. *)
Definition lerp (a b t : float) : float :=
  fadd (fmul a (fsub f1 t)) (fmul b t).

(** "x1 = floor(column), y1 = floor(row), x2 = x1+1, y2 = y1+1,
    xFrac = column - x1, yFrac = row - y1", then the edge policy. *)
Definition getHeight (h : HeightField) (column row : float) : option float :=
  let column := clamp column (_cols h - 1) in
  let row := clamp row (_rows h - 1) in
  match ffloor column, ffloor row with
  | Some x1, Some y1 =>
      let x2 := x1 + 1 in
      let y2 := y1 + 1 in
      let xFrac := fsub column (of_int x1) in
      let yFrac := fsub row (of_int y1) in
      if (_cols h - 1 <? x2) && (_rows h - 1 <? y2) then sample h x1 y1
      else if _cols h - 1 <? x2 then
        s11 <-? sample h x1 y1 ;; s12 <-? sample h x1 y2 ;;
        Some (lerp s11 s12 yFrac)
      else if _rows h - 1 <? y2 then
        s11 <-? sample h x1 y1 ;; s21 <-? sample h x2 y1 ;;
        Some (lerp s11 s21 xFrac)
      else
        s11 <-? sample h x1 y1 ;; s12 <-? sample h x1 y2 ;;
        s22 <-? sample h x2 y2 ;; s21 <-? sample h x2 y1 ;;
        Some (fadd (fadd (fadd
          (fmul s11 (fmul (fsub f1 xFrac) (fsub f1 yFrac)))
          (fmul s12 (fmul (fsub f1 xFrac) yFrac)))
          (fmul s22 (fmul xFrac yFrac)))
          (fmul s21 (fmul xFrac (fsub f1 yFrac))))
  | _, _ => None
  end.

End Spec.

(* ================================================================== *)
(** * Notions used by the statements *)

(** ** Grids and samples *)

(** The cell [(x, y)] of a grid. *)
Definition cell (h : HeightField) (x y : Z) : float :=
  fa_cell (_array h) (x + y * _cols h).

(** Every index of an access lies inside the buffer. *)
Definition in_bounds (h : HeightField) (a : access) : Prop :=
  Forall (fun i => 0 <= i < _cols h * _rows h) (access_indices a).

(** The branch and the indices for the cell coordinates [(x1, y1)], written
    without wrap-around. *)
Definition access_at (h : HeightField) (x1 y1 : Z) : access :=
  let c := _cols h in
  if (c <=? x1 + 1) && (_rows h <=? y1 + 1) then Corner (x1 + y1 * c)
  else if c <=? x1 + 1 then AlongRows (x1 + y1 * c) (x1 + (y1 + 1) * c)
  else if _rows h <=? y1 + 1 then AlongColumns (x1 + y1 * c) (x1 + 1 + y1 * c)
  else Bilinear (x1 + y1 * c) (x1 + (y1 + 1) * c)
                (x1 + 1 + (y1 + 1) * c) (x1 + 1 + y1 * c).

(** A float that is a zero, or positive with an integer part of at most [N]:
    a coordinate after the clamp. *)
Definition coord_in (v : float) (N : Z) : Prop :=
  (exists s, v = S754_zero s) \/
  (exists m e, v = S754_finite false m e /\ bounded prec emax m e = true /\
               Z.shiftl (Zpos m) e <= N).

(** [v] is the stored value [s], up to the sign of a zero. *)
Definition same_value (v s : float) : Prop :=
  v = s \/ (exists a b, v = S754_zero a /\ s = S754_zero b).

(** Every cell holds a finite binary32 value. *)
Definition cells_finite (h : HeightField) : Prop :=
  forall i, is_float32 (fa_cell (_array h) i) = true /\
            is_finite (fa_cell (_array h) i) = true.

(** ** The decoder *)

(** The 24-bit height packed in three channel bytes. *)
Definition packed24 (r g b : Z) : Z := 65536 * r + 256 * g + b.

(** The decoder applied to three channel bytes. *)
Definition decode (r g b : Z) : float :=
  normalizedHeightPacked (of_int r) (of_int g) (of_int b).

(** The normalised height of an 8-bit grayscale sample, as the 8-bit RAW
    loop computes it: [x / 255.0f]. *)
Definition grayscale (x : Z) : float := fdiv (of_int x) f255.

(** Structural equality of floats, decided. *)
Definition float_eqb (a b : float) : bool :=
  match a, b with
  | S754_zero s, S754_zero s' => Bool.eqb s s'
  | S754_infinity s, S754_infinity s' => Bool.eqb s s'
  | S754_nan, S754_nan => true
  | S754_finite s m e, S754_finite s' m' e' =>
      Bool.eqb s s' && Pos.eqb m m' && Z.eqb e e'
  | _, _ => false
  end.

(** ** The loaders *)

(** The load returned a grid; the load returned the null pointer. *)
Definition loaded (m : M (option HeightField)) : bool :=
  match result m with Done (Some _) => true | _ => false end.

Definition no_result (m : M (option HeightField)) : bool :=
  match result m with Done None => true | _ => false end.

(** [GP_ASSERT(maxHeight >= minHeight)] lets the call through. *)
Definition contract (W : World) (minHeight maxHeight : float) : Prop :=
  assertions W = false \/ fge maxHeight minHeight = true.

(** Channel [c] of the pixel at column [x] of image row [y]. *)
Definition pixel_byte (im : Image) (bpp x y c : Z) : Z :=
  byte_val (nth (Z.to_nat ((y * img_width im + x) * bpp + c))
                (img_data im) x00).

(** The height the image loop stores for the pixel at column [x] of image
    row [y]. *)
Definition pixel_height (im : Image) (bpp : Z) (minHeight maxHeight : float)
           (x y : Z) : float :=
  fadd minHeight
       (fmul (decode (pixel_byte im bpp x y 0) (pixel_byte im bpp x y 1)
                     (pixel_byte im bpp x y 2))
             (fsub maxHeight minHeight)).

(** The byte at offset [i] of a buffer. *)
Definition byte_at (d : bytes) (i : Z) : Z := byte_val (nth (Z.to_nat i) d x00).

(** The heights the RAW loops store for the sample at column [x] of file
    row [y]. *)
Definition raw8_height (d : bytes) (width : Z) (minHeight maxHeight : float)
           (x y : Z) : float :=
  fadd minHeight
       (fmul (fdiv (of_int (byte_at d (y * width + x))) f255)
             (fsub maxHeight minHeight)).

Definition raw16_height (d : bytes) (width : Z) (minHeight maxHeight : float)
           (x y : Z) : float :=
  fadd minHeight
       (fmul (fdiv (of_int (Z.lor (byte_at d ((y * width + x) * 2))
                                  (Z.shiftl (byte_at d ((y * width + x) * 2 + 1)) 8)))
                   f65535)
             (fsub maxHeight minHeight)).

(** What the RAW branch needs of a call: legal dimensions whose product
    does not wrap, a readable file whose size an [int] holds, and a
    [maxHeight] that is not negative. *)
Definition raw_call (W : World) (path : string) (width height : Z)
           (maxHeight : float) (data : bytes) : Prop :=
  2 <= width /\ 2 <= height /\ width * height < modulus /\
  FileSystem_readAll W path = Some data /\
  Z.of_nat (List.length data) <= INT_MAX /\
  flt maxHeight (of_int 0) = false.

(** The effect of one store on the state of a loop. *)
Definition stores (st st' : lstate) (v : float) : Prop :=
  fst st' = fst st + 1 /\ fa_size (snd st') = fa_size (snd st) /\
  forall j, fa_cell (snd st') j
            = if j =? fst st then v else fa_cell (snd st) j.

(** ** The file name *)

(** "Case-insensitive on the last 3 characters, preceded by a literal dot":
    the path is a stem, a dot, and three characters that are the letters
    [a], [b], [c] (given in upper case) in either case. *)
Definition either_case (c upper : ascii) : Prop :=
  c = upper \/ c = ascii_of_nat (nat_of_ascii upper + 32).

Definition has_extension (path : string) (a b c : ascii) : Prop :=
  exists stem c1 c2 c3,
    path = (stem ++ String "." (String c1 (String c2 (String c3 EmptyString))))%string /\
    either_case c1 a /\ either_case c2 b /\ either_case c3 c.

(** An upper-case letter. *)
Definition is_upper (u : ascii) : Prop :=
  (65 <= nat_of_ascii u <= 90)%nat.

(* ================================================================== *)
(** * Concrete grids, files and images *)

(** 0.5f *)
Definition half : float := fl 1 (-1).

(** A grid of one cell. *)
Definition unit_grid : HeightField :=
  {| _array := {| fa_size := 1; fa_cell := fun _ => f0 |};
     _cols := 1; _rows := 1 |}.

(** A 4 x 4 grid whose cell [i] holds [i]. *)
Definition ramp_grid : HeightField :=
  {| _array := {| fa_size := 16; fa_cell := fun i => of_int (i mod 16) |};
     _cols := 4; _rows := 4 |}.

(** A 2 x 1 grid that holds 1.0 and +infinity. *)
Definition inf_grid : HeightField :=
  {| _array := {| fa_size := 2;
                  fa_cell := fun i => if i =? 0 then f1 else S754_infinity false |};
     _cols := 2; _rows := 1 |}.

(** A single row of 16777220 = 2^24 + 4 columns. *)
Definition wide_grid : HeightField :=
  {| _array := {| fa_size := 16777220; fa_cell := fun _ => f0 |};
     _cols := 16777220; _rows := 1 |}.

(** A world whose every file holds [data] and that decodes no image. *)
Definition raw_world (data : bytes) : World :=
  {| Image_create := fun _ => None;
     FileSystem_readAll := fun _ => Some data;
     assertions := true;
     junk := fun _ => S754_nan |}.

(** A 2 x 2 RGBA image, top row first. *)
Definition rgba_2x2 : Image :=
  {| img_format := RGBA; img_width := 2; img_height := 2;
     img_data := [x01; x02; x03; xff;  x04; x05; x06; xff;
                  x10; x00; x00; xff;  xff; xff; xff; x00] |}.

(** A world that decodes every path to [im] and reads no file. *)
Definition image_world (im : Image) : World :=
  {| Image_create := fun _ => Some im;
     FileSystem_readAll := fun _ => None;
     assertions := true;
     junk := fun _ => S754_nan |}.

(* ================================================================== *)
(** * Notions used by the further properties *)

(** The collaborator calls of a computation, in order, and its warnings. *)
Definition io_events {A} (m : M A) : list event := filter is_io (trace m).

Definition warnings {A} (m : M A) : list event :=
  filter (fun e => negb (is_io e)) (trace m).

(** Every cell of the buffer holds a finite binary32 value. *)
Definition cells_finite_in (h : HeightField) : Prop :=
  forall i, 0 <= i < _cols h * _rows h ->
            is_float32 (fa_cell (_array h) i) = true /\
            is_finite (fa_cell (_array h) i) = true.

(** The 16-bit sample of a RAW file at sample offset [k]: two bytes, the
    low one first. *)
Definition sample16 (d : bytes) (k : Z) : Z :=
  byte_at d (2 * k) + 256 * byte_at d (2 * k + 1).

(** A 2 x 3 file of 8-bit samples, first row first. *)
Definition raw_2x3 : bytes := [x0a; x14; x1e; x28; x32; x3c].

(** A finite binary32 value that is not negative and not the negative
    zero. *)
Definition nonneg_finite (c : float) : bool :=
  match c with
  | S754_zero false => true
  | S754_finite false m e => bounded prec emax m e
  | _ => false
  end.

(** The grid [h] with the cell at index [i] replaced by [v]. *)
Definition with_cell (h : HeightField) (i : Z) (v : float) : HeightField :=
  {| _array := {| fa_size := fa_size (_array h);
                  fa_cell := fun j => if j =? i then v else fa_cell (_array h) j |};
     _cols := _cols h; _rows := _rows h |}.

(** The 2 x 2 image [rgba_2x2] without its alpha channel. *)
Definition rgb_2x2 : Image :=
  {| img_format := RGB; img_width := 2; img_height := 2;
     img_data := [x01; x02; x03;  x04; x05; x06;
                  x10; x00; x00;  xff; xff; xff] |}.

(** A world that decodes [flat.png] to [rgb_2x2] and every other path to
    [rgba_2x2]. *)
Definition gallery : World :=
  {| Image_create := fun p => if String.eqb p "flat.png"
                              then Some rgb_2x2 else Some rgba_2x2;
     FileSystem_readAll := fun _ => None;
     assertions := true;
     junk := fun _ => S754_nan |}.

(** A 23171 x 23171 RGBA image: 2 147 580 964 bytes of pixel data, just
    above [INT_MAX]. *)
Definition large_image : Image :=
  {| img_format := RGBA; img_width := 23171; img_height := 23171;
     img_data := repeat x00 (Z.to_nat 2147580964) |}.

(* ================================================================== *)
(** * Facts about binary32: rounding a representable value *)

Lemma digits2_log2 (m : positive) : Zpos (digits2_pos m) = Z.log2 (Zpos m) + 1.
Proof.
  induction m as [m IH | m IH |]; cbn [digits2_pos].
  - rewrite Pos2Z.inj_succ, IH. change (Zpos m~1) with (2 * Zpos m + 1).
    rewrite Z.log2_succ_double by lia. lia.
  - rewrite Pos2Z.inj_succ, IH. change (Zpos m~0) with (2 * Zpos m).
    rewrite Z.log2_double by lia. lia.
  - reflexivity.
Qed.

Lemma digits2_bounds (m : positive) :
  2 ^ (Zpos (digits2_pos m) - 1) <= Zpos m < 2 ^ Zpos (digits2_pos m).
Proof.
  rewrite digits2_log2.
  replace (Z.log2 (Zpos m) + 1 - 1) with (Z.log2 (Zpos m)) by lia.
  replace (Z.log2 (Zpos m) + 1) with (Z.succ (Z.log2 (Zpos m))) by lia.
  apply Z.log2_spec. lia.
Qed.

Lemma digits2_unique (m : positive) (d : Z) :
  2 ^ (d - 1) <= Zpos m < 2 ^ d -> Zpos (digits2_pos m) = d.
Proof.
  intros H. rewrite digits2_log2.
  assert (0 < d).
  { destruct (Z.lt_trichotomy d 0) as [N | [N | N]]; [| |exact N].
    - rewrite (Z.pow_neg_r 2 d N) in H. lia.
    - subst d. change (2 ^ 0) with 1 in H. lia. }
  rewrite (Z.log2_unique (Zpos m) (d - 1)); [lia | lia |].
  replace (Z.succ (d - 1)) with d by lia. exact H.
Qed.

Lemma digits2_mul_pow2 (m m' : positive) (k : Z) :
  0 <= k -> Zpos m' = Zpos m * 2 ^ k ->
  Zpos (digits2_pos m') = Zpos (digits2_pos m) + k.
Proof.
  intros Hk E. apply digits2_unique. rewrite E.
  pose proof (digits2_bounds m) as [L U].
  pose proof (Pos2Z.is_pos (digits2_pos m)).
  replace (Zpos (digits2_pos m) + k - 1) with ((Zpos (digits2_pos m) - 1) + k) by lia.
  rewrite !Z.pow_add_r by lia.
  assert (0 < 2 ^ k) by (apply Z.pow_pos_nonneg; lia).
  split; nia.
Qed.

Lemma iter_pos_nat {A} (f : A -> A) (p : positive) (x : A) :
  iter_pos f p x = Nat.iter (Pos.to_nat p) f x.
Proof.
  revert x. induction p as [p IH | p IH |]; intros x; cbn [iter_pos].
  - rewrite !IH, Pos2Nat.inj_xI.
    replace (S (2 * Pos.to_nat p))%nat with (Pos.to_nat p + (Pos.to_nat p + 1))%nat by lia.
    rewrite !Nat.iter_add. reflexivity.
  - rewrite !IH, Pos2Nat.inj_xO.
    replace (2 * Pos.to_nat p)%nat with (Pos.to_nat p + Pos.to_nat p)%nat by lia.
    rewrite Nat.iter_add. reflexivity.
  - reflexivity.
Qed.

Lemma shr_nat_exact (n : nat) (m : positive) :
  Nat.iter n shr_1
    {| shr_m := Zpos m * 2 ^ Z.of_nat n; shr_r := false; shr_s := false |}
  = {| shr_m := Zpos m; shr_r := false; shr_s := false |}.
Proof.
  revert m. induction n as [|n IH]; intros m.
  - cbn [Z.of_nat]. rewrite Z.pow_0_r, Z.mul_1_r. reflexivity.
  - rewrite Nat.iter_succ.
    replace (Zpos m * 2 ^ Z.of_nat (S n)) with (Zpos m~0 * 2 ^ Z.of_nat n).
    + rewrite IH. reflexivity.
    + rewrite Nat2Z.inj_succ, Z.pow_succ_r by lia.
      change (Zpos m~0) with (2 * Zpos m). ring.
Qed.

Lemma shr_exact (m : positive) (e k : Z) :
  0 <= k ->
  shr {| shr_m := Zpos m * 2 ^ k; shr_r := false; shr_s := false |} e k
  = ({| shr_m := Zpos m; shr_r := false; shr_s := false |}, e + k).
Proof.
  intros Hk. destruct k as [|p|p]; [| |lia].
  - cbn [shr]. rewrite Z.mul_1_r, Z.add_0_r. reflexivity.
  - cbn [shr]. rewrite iter_pos_nat.
    rewrite <- (positive_nat_Z p) at 1. rewrite shr_nat_exact. reflexivity.
Qed.

Lemma canonical_fexp (m : positive) (e : Z) :
  canonical_mantissa prec emax m e = true ->
  fexp prec emax (Zpos (digits2_pos m) + e) = e.
Proof. unfold canonical_mantissa. intros H. apply Z.eqb_eq in H. exact H. Qed.

(** Rounding a value that a float holds yields that float. *)
Lemma round_aux_exact (s : bool) (m : positive) (e k : Z) :
  bounded prec emax m e = true -> 0 <= k ->
  binary_round_aux prec emax s (Zpos m * 2 ^ k) (e - k) loc_Exact
  = S754_finite s m e.
Proof.
  intros B Hk. unfold bounded in B. apply andb_prop in B as [C L].
  pose proof (canonical_fexp _ _ C) as Hf.
  assert (0 < 2 ^ k) by (apply Z.pow_pos_nonneg; lia).
  destruct (Zpos m * 2 ^ k) as [|M|M] eqn:EM; try lia.
  assert (HD : Zpos (digits2_pos M) = Zpos (digits2_pos m) + k)
    by (apply digits2_mul_pow2; [lia | symmetry; exact EM]).
  unfold binary_round_aux, shr_fexp. cbn [Zdigits2 shr_record_of_loc].
  rewrite HD.
  replace (Zpos (digits2_pos m) + k + (e - k)) with (Zpos (digits2_pos m) + e) by lia.
  rewrite Hf. replace (e - (e - k)) with k by lia.
  rewrite <- EM, shr_exact by lia.
  cbn [shr_m loc_of_shr_record round_nearest_even Zdigits2 shr_record_of_loc].
  replace (e - k + k) with e by lia.
  rewrite Hf, Z.sub_diag. cbn [shr shr_m]. rewrite L. reflexivity.
Qed.

Lemma iter_xO_pow2 (m d : positive) :
  Zpos (Pos.iter xO m d) = Zpos m * 2 ^ Zpos d.
Proof.
  change (Pos.iter xO m d) with (shift_pos d m).
  rewrite Zpower.shift_pos_correct, Z.pow_pos_fold. ring.
Qed.

(** [binary_round] of a value that a float holds, given on a finer or on a
    coarser exponent. *)
Lemma round_exact_fine (s : bool) (m M : positive) (e E : Z) :
  bounded prec emax m e = true -> E <= e -> Zpos M = Zpos m * 2 ^ (e - E) ->
  binary_round prec emax s M E = S754_finite s m e.
Proof.
  intros B HE HM. pose proof B as B'. unfold bounded in B'.
  apply andb_prop in B' as [C _]. apply canonical_fexp in C.
  unfold binary_round.
  rewrite (digits2_mul_pow2 m M (e - E)) by (lia || assumption).
  replace (Zpos (digits2_pos m) + (e - E) + E) with (Zpos (digits2_pos m) + e) by lia.
  rewrite C. unfold shl_align.
  destruct (e - E) as [|d|d] eqn:ED; try lia.
  - rewrite HM. replace E with (e - 0) by lia. apply round_aux_exact; [assumption|lia].
  - rewrite HM. replace E with (e - Zpos d) by lia. apply round_aux_exact; [assumption|lia].
Qed.

Lemma round_exact_coarse (s : bool) (m M : positive) (e E : Z) :
  bounded prec emax m e = true -> e <= E -> Zpos m = Zpos M * 2 ^ (E - e) ->
  binary_round prec emax s M E = S754_finite s m e.
Proof.
  intros B HE HM. pose proof B as B'. unfold bounded in B'.
  apply andb_prop in B' as [C _]. apply canonical_fexp in C.
  unfold binary_round.
  pose proof (digits2_mul_pow2 M m (E - e) ltac:(lia) HM) as HD.
  replace (Zpos (digits2_pos M) + E) with (Zpos (digits2_pos m) + e) by lia.
  rewrite C. unfold shl_align.
  destruct (e - E) as [|d|d] eqn:ED; try lia.
  - assert (E = e) by lia. subst E. rewrite Z.sub_diag in HM.
    replace M with m by lia.
    rewrite <- (Z.mul_1_r (Zpos m)). change 1 with (2 ^ 0) at 1.
    replace e with (e - 0) at 1 by lia. apply round_aux_exact; [assumption|lia].
  - replace (Pos.iter xO M d) with m.
    + rewrite <- (Z.mul_1_r (Zpos m)). change 1 with (2 ^ 0) at 1.
      replace e with (e - 0) at 1 by lia. apply round_aux_exact; [assumption|lia].
    + apply Pos2Z.inj. rewrite iter_xO_pow2, HM. f_equal. f_equal. lia.
Qed.

Lemma fexp_eq (x : Z) : fexp prec emax x = Z.max (x - 24) (-149).
Proof. reflexivity. Qed.

Lemma bounded_iff (m : positive) (e : Z) :
  bounded prec emax m e = true <->
  e = Z.max (Zpos (digits2_pos m) + e - 24) (-149) /\ e <= 104.
Proof.
  unfold bounded, canonical_mantissa. rewrite fexp_eq, andb_true_iff.
  rewrite Z.eqb_eq, Z.leb_le. change (emax - prec) with 104. intuition lia.
Qed.

Lemma bounded_digits (m : positive) (e : Z) :
  bounded prec emax m e = true -> Zpos m < 2 ^ 24.
Proof.
  intros B. apply bounded_iff in B as [C _].
  pose proof (digits2_bounds m) as [_ U].
  apply Z.lt_le_trans with (1 := U). apply Z.pow_le_mono_r; lia.
Qed.

Lemma bounded_normal (m : positive) (e : Z) :
  bounded prec emax m e = true -> -149 < e -> 2 ^ 23 <= Zpos m.
Proof.
  intros B H. apply bounded_iff in B as [C _].
  pose proof (digits2_bounds m) as [L _].
  replace (Zpos (digits2_pos m) - 1) with 23 in L by lia. exact L.
Qed.

Lemma digits2_le (m : positive) (d : Z) :
  Zpos m < 2 ^ d -> Zpos (digits2_pos m) <= d.
Proof.
  intros H. pose proof (digits2_bounds m) as [L _].
  destruct (Z.le_gt_cases (Zpos (digits2_pos m)) d) as [|G]; [assumption|].
  exfalso. assert (2 ^ d <= 2 ^ (Zpos (digits2_pos m) - 1)).
  { apply Z.pow_le_mono_r; lia. }
  lia.
Qed.

(** Rounding a value that a float holds yields that float. *)
Lemma round_exact (s : bool) (m M : positive) (e E : Z) :
  bounded prec emax m e = true ->
  Zpos m * 2 ^ (e - Z.min e E) = Zpos M * 2 ^ (E - Z.min e E) ->
  binary_round prec emax s M E = S754_finite s m e.
Proof.
  intros B H. destruct (Z.le_gt_cases e E) as [L | G].
  - rewrite Z.min_l in H by lia. rewrite Z.sub_diag, Z.pow_0_r, Z.mul_1_r in H.
    apply round_exact_coarse; assumption.
  - rewrite Z.min_r in H by lia. rewrite Z.sub_diag, Z.pow_0_r, Z.mul_1_r in H.
    apply round_exact_fine; [assumption | lia | symmetry; assumption].
Qed.

(** A value of at most 24 bits on an exponent in range is a float. *)
Lemma fl_exact (M : positive) (E : Z) :
  Zpos M < 2 ^ 24 -> -149 <= E <= 104 ->
  exists m e,
    fl (Zpos M) E = S754_finite false m e /\
    bounded prec emax m e = true /\ e <= E /\
    Zpos m = Zpos M * 2 ^ (E - e) /\
    e = Z.max (Zpos (digits2_pos M) + E - 24) (-149).
Proof.
  intros HM HE.
  pose proof (digits2_le M 24 HM) as Hd.
  set (e := Z.max (Zpos (digits2_pos M) + E - 24) (-149)).
  assert (He : e <= E) by lia.
  assert (Hp : 0 < Zpos M * 2 ^ (E - e)).
  { apply Z.mul_pos_pos; [lia | apply Z.pow_pos_nonneg; lia]. }
  destruct (Zpos M * 2 ^ (E - e)) as [|m|m] eqn:Em; try lia.
  assert (HD : Zpos (digits2_pos m) = Zpos (digits2_pos M) + (E - e)).
  { apply digits2_mul_pow2; [lia | symmetry; exact Em]. }
  assert (B : bounded prec emax m e = true).
  { apply bounded_iff. rewrite HD. lia. }
  exists m, e. split; [|split; [exact B | split; [exact He | split; [|reflexivity]]]].
  - unfold fl. cbn [binary_normalize].
    apply round_exact_coarse; [assumption | lia | symmetry; exact Em].
  - symmetry; exact Em.
Qed.

(** The sign of a rounded value. *)
Lemma binary_round_aux_sign (s : bool) (m e : Z) (l : location) :
  match binary_round_aux prec emax s m e l with
  | S754_zero s' | S754_infinity s' | S754_finite s' _ _ => s' = s
  | S754_nan => True
  end.
Proof.
  unfold binary_round_aux.
  destruct (shr_fexp prec emax m e l) as [mrs' e'].
  destruct (shr_fexp prec emax _ e' loc_Exact) as [mrs'' e''].
  destruct (shr_m mrs''); [reflexivity | | exact I].
  destruct (e'' <=? emax - prec); reflexivity.
Qed.

Lemma binary_round_sign (s : bool) (m : positive) (e : Z) :
  match binary_round prec emax s m e with
  | S754_zero s' | S754_infinity s' | S754_finite s' _ _ => s' = s
  | S754_nan => True
  end.
Proof.
  unfold binary_round. destruct (shl_align _ _ _) as [mz ez].
  apply binary_round_aux_sign.
Qed.

Lemma of_int_not_neg (n : Z) : 0 <= n -> flt (of_int n) (of_int 0) = false.
Proof.
  intros H. unfold of_int, fl. destruct n as [|p|p]; [reflexivity | | lia].
  cbn [binary_normalize]. pose proof (binary_round_sign false p 0) as S.
  destruct (binary_round prec emax false p 0) as [s'|s'| |s' m e];
    try (subst s'); reflexivity.
Qed.

Lemma SFcompare_refl (x : float) :
  SFcompare x x = Some Eq \/ SFcompare x x = None.
Proof.
  destruct x as [s|s| |s m e]; cbn; auto.
  - destruct s; auto.
  - left. destruct s; rewrite Z.compare_refl, Pos.compare_cont_refl; reflexivity.
Qed.

Lemma flt_irrefl (x : float) : flt x x = false.
Proof.
  unfold flt, SFltb. destruct (SFcompare_refl x) as [E | E]; rewrite E; reflexivity.
Qed.

(** Comparison of two positive floats is comparison of their values. *)
Lemma SFcompare_pos (m1 m2 : positive) (e1 e2 : Z) :
  bounded prec emax m1 e1 = true -> bounded prec emax m2 e2 = true ->
  SFcompare (S754_finite false m1 e1) (S754_finite false m2 e2)
  = Some (Zpos m1 * 2 ^ (e1 - Z.min e1 e2) ?= Zpos m2 * 2 ^ (e2 - Z.min e1 e2)).
Proof.
  intros B1 B2. cbn [SFcompare]. f_equal.
  pose proof (bounded_digits _ _ B1) as U1.
  pose proof (bounded_digits _ _ B2) as U2.
  destruct (Z.compare_spec e1 e2) as [E | L | G].
  - subst e2. rewrite Z.min_id, Z.sub_diag, Z.pow_0_r, !Z.mul_1_r.
    reflexivity.
  - rewrite Z.min_l by lia. rewrite Z.sub_diag, Z.pow_0_r, Z.mul_1_r.
    symmetry. apply Z.compare_lt_iff.
    assert (N : 2 ^ 23 <= Zpos m2).
    { apply (bounded_normal m2 e2 B2). apply bounded_iff in B1. lia. }
    assert (2 ^ 1 <= 2 ^ (e2 - e1)) by (apply Z.pow_le_mono_r; lia).
    change (2 ^ 1) with 2 in *. change (2 ^ 24) with (2 ^ 23 * 2) in U1. nia.
  - rewrite Z.min_r by lia. rewrite Z.sub_diag, Z.pow_0_r, Z.mul_1_r.
    symmetry. apply Z.compare_gt_iff.
    assert (N : 2 ^ 23 <= Zpos m1).
    { apply (bounded_normal m1 e1 B1). apply bounded_iff in B2. lia. }
    assert (2 ^ 1 <= 2 ^ (e1 - e2)) by (apply Z.pow_le_mono_r; lia).
    change (2 ^ 1) with 2 in *. change (2 ^ 24) with (2 ^ 23 * 2) in U2. nia.
Qed.

(** ** Integers as floats *)

Lemma of_int_exact (n : Z) :
  0 < n < 2 ^ 24 ->
  exists m e,
    of_int n = S754_finite false m e /\ bounded prec emax m e = true /\
    e <= 0 /\ Zpos m = n * 2 ^ (- e).
Proof.
  intros H. destruct n as [|p|p]; try lia.
  destruct (fl_exact p 0) as (m & e & E1 & B & L & V & _); [lia | lia |].
  exists m, e. repeat split; assumption.
Qed.

Lemma shiftl_scaled (m e c : Z) :
  0 <= m -> c <= e -> c <= 0 ->
  Z.shiftl m e = (m * 2 ^ (e - c)) / 2 ^ (- c).
Proof.
  intros Hm Hc H0.
  assert (0 < 2 ^ (- c)) by (apply Z.pow_pos_nonneg; lia).
  destruct (Z.le_gt_cases 0 e) as [P | N].
  - rewrite Z.shiftl_mul_pow2 by lia.
    replace (e - c) with (e + - c) by lia. rewrite Z.pow_add_r by lia.
    rewrite Z.mul_assoc, Z.div_mul by lia. reflexivity.
  - rewrite Z.shiftl_div_pow2 by lia.
    replace (- c) with (- e + (e - c)) by lia. rewrite Z.pow_add_r by lia.
    assert (0 < 2 ^ (e - c)) by (apply Z.pow_pos_nonneg; lia).
    assert (0 < 2 ^ (- e)) by (apply Z.pow_pos_nonneg; lia).
    rewrite Z.div_mul_cancel_r by lia. reflexivity.
Qed.

(** Truncation is monotone in the value. *)
Lemma shiftl_mono (m1 m2 : positive) (e1 e2 : Z) :
  Zpos m1 * 2 ^ (e1 - Z.min e1 e2) <= Zpos m2 * 2 ^ (e2 - Z.min e1 e2) ->
  Z.shiftl (Zpos m1) e1 <= Z.shiftl (Zpos m2) e2.
Proof.
  intros H. set (b := Z.min e1 e2) in *. set (c := Z.min b 0).
  rewrite (shiftl_scaled (Zpos m1) e1 c), (shiftl_scaled (Zpos m2) e2 c) by lia.
  apply Z.div_le_mono; [apply Z.pow_pos_nonneg; lia|].
  replace (e1 - c) with ((e1 - b) + (b - c)) by lia.
  replace (e2 - c) with ((e2 - b) + (b - c)) by lia.
  rewrite !Z.pow_add_r by lia.
  assert (0 < 2 ^ (b - c)) by (apply Z.pow_pos_nonneg; lia).
  rewrite !Z.mul_assoc. apply Z.mul_le_mono_nonneg_r; lia.
Qed.

Lemma shiftl_of_int (n : Z) (m : positive) (e : Z) :
  e <= 0 -> Zpos m = n * 2 ^ (- e) -> Z.shiftl (Zpos m) e = n.
Proof.
  intros He V. rewrite Z.shiftl_div_pow2 by lia. rewrite V.
  apply Z.div_mul. assert (0 < 2 ^ (- e)) by (apply Z.pow_pos_nonneg; lia). lia.
Qed.

Lemma ftrunc_of_int (n : Z) :
  0 <= n < 2 ^ 24 -> ftrunc (of_int n) = Some n.
Proof.
  intros H. destruct (Z.eq_dec n 0) as [-> | N]; [reflexivity|].
  destruct (of_int_exact n) as (m & e & E & B & L & V); [lia|].
  rewrite E. cbn [ftrunc cond_Zopp]. f_equal. apply shiftl_of_int; assumption.
Qed.

Lemma to_uint_of_int (n : Z) :
  0 <= n < 2 ^ 24 -> to_uint (of_int n) = Some n.
Proof.
  intros H. unfold to_uint. rewrite ftrunc_of_int by assumption.
  replace (0 <=? n) with true by (symmetry; apply Z.leb_le; lia).
  replace (n <? modulus) with true; [reflexivity|].
  symmetry; apply Z.ltb_lt. unfold modulus.
  apply Z.lt_trans with (2 ^ 24); [lia | reflexivity].
Qed.

Lemma modf_of_int (n : Z) :
  0 <= n < 2 ^ 24 -> modf (of_int n) = S754_zero false.
Proof.
  intros H. destruct (Z.eq_dec n 0) as [-> | N]; [reflexivity|].
  destruct (of_int_exact n) as (m & e & E & B & L & V); [lia|].
  rewrite E. cbn [modf]. destruct (Z.leb_spec 0 e); [reflexivity|].
  rewrite V, Z.mod_mul; [reflexivity|].
  assert (0 < 2 ^ (- e)) by (apply Z.pow_pos_nonneg; lia). lia.
Qed.

(** ** The order on integers as floats *)

Lemma of_int_le (x n : Z) :
  0 <= x <= n -> n < 2 ^ 24 -> fgt (of_int x) (of_int n) = false.
Proof.
  intros Hx Hn. unfold fgt, SFltb.
  destruct (Z.eq_dec n 0) as [-> | N0].
  { replace x with 0 by lia. reflexivity. }
  destruct (of_int_exact n) as (mn & en & En & Bn & Ln & Vn); [lia|].
  rewrite En.
  destruct (Z.eq_dec x 0) as [-> | X0]; [reflexivity|].
  destruct (of_int_exact x) as (mx & ex & Ex & Bx & Lx & Vx); [lia|].
  rewrite Ex, SFcompare_pos by assumption.
  destruct (Z.compare_spec (Zpos mn * 2 ^ (en - Z.min en ex))
                           (Zpos mx * 2 ^ (ex - Z.min en ex))) as [|L|]; try reflexivity.
  exfalso. rewrite Vn, Vx in L. rewrite <- !Z.mul_assoc, <- !Z.pow_add_r in L by lia.
  replace (- en + (en - Z.min en ex)) with (- Z.min en ex) in L by lia.
  replace (- ex + (ex - Z.min en ex)) with (- Z.min en ex) in L by lia.
  assert (0 < 2 ^ (- Z.min en ex)) by (apply Z.pow_pos_nonneg; lia). nia.
Qed.

(** ** Multiplication by one and by zero, addition of zero *)

Lemma f1_eq : f1 = S754_finite false 8388608 (-23).
Proof. reflexivity. Qed.

Lemma fmul_one_r (h : float) :
  is_float32 h = true -> is_finite h = true -> fmul h f1 = h.
Proof.
  intros V F. rewrite f1_eq. destruct h as [s|s| |s m e]; try discriminate.
  - cbn. rewrite xorb_false_r. reflexivity.
  - cbn [fmul SFmul]. rewrite xorb_false_r.
    rewrite Pos2Z.inj_mul. change (Zpos 8388608) with (2 ^ 23).
    replace (e + -23) with (e - 23) by lia.
    apply round_aux_exact; [exact V | lia].
Qed.

Lemma fmul_zero_r (h : float) (s : bool) :
  is_finite h = true -> exists s', fmul h (S754_zero s) = S754_zero s'.
Proof.
  destruct h as [s0|s0| |s0 m e]; try discriminate; intros _; cbn; eauto.
Qed.

(** ** Coordinates after the clamp *)

Lemma coord_in_of_int (n : Z) : 0 <= n < 2 ^ 24 -> coord_in (of_int n) n.
Proof.
  intros H. destruct (Z.eq_dec n 0) as [-> | N0]; [left; exists false; reflexivity|].
  destruct (of_int_exact n) as (m & e & E & B & L & V); [lia|].
  right. exists m, e. repeat split; try assumption.
  rewrite (shiftl_of_int n) by assumption. lia.
Qed.

Lemma clamp_coord (c : float) (n : Z) :
  is_float32 c = true -> is_nan c = false -> 1 <= n <= 2 ^ 24 ->
  coord_in (clamp c n) (n - 1).
Proof.
  intros V NN Hn. unfold clamp.
  assert (U : u32 (n - 1) = n - 1).
  { unfold u32, modulus. apply Z.mod_small. split; [lia|].
    apply Z.lt_le_trans with (2 ^ 24); [lia | discriminate]. }
  rewrite U.
  destruct (flt c (of_int 0)) eqn:L0.
  { left. exists false. reflexivity. }
  destruct (fgt c (of_int (n - 1))) eqn:G.
  { apply coord_in_of_int. lia. }
  destruct c as [s|s| |s m e]; try discriminate.
  - left. eauto.
  - exfalso. destruct s; [discriminate L0|].
    unfold fgt, SFltb in G.
    destruct (Z.eq_dec (n - 1) 0) as [E0 | N0]; [rewrite E0 in G; discriminate G|].
    destruct (of_int_exact (n - 1)) as (mn & en & En & _); [lia|].
    rewrite En in G. discriminate G.
  - destruct s; [discriminate L0|].
    right. exists m, e. split; [reflexivity | split; [exact V|]].
    unfold fgt, SFltb in G.
    destruct (Z.eq_dec (n - 1) 0) as [E0 | N0]; [rewrite E0 in G; discriminate G|].
    destruct (of_int_exact (n - 1)) as (mn & en & En & Bn & Ln & Vn); [lia|].
    rewrite En, SFcompare_pos in G by assumption.
    rewrite <- (shiftl_of_int (n - 1) mn en) by assumption.
    rewrite Z.min_comm in G.
    apply shiftl_mono.
    destruct (Z.compare_spec (Zpos mn * 2 ^ (en - Z.min e en))
                             (Zpos m * 2 ^ (e - Z.min e en))); try discriminate; lia.
Qed.

Lemma coord_in_to_uint (v : float) (N : Z) :
  coord_in v N -> 0 <= N < modulus ->
  exists x, to_uint v = Some x /\ ftrunc v = Some x /\ 0 <= x <= N.
Proof.
  intros [[s ->] | (m & e & -> & B & L)] HN.
  - exists 0. cbn. repeat split; lia.
  - exists (Z.shiftl (Zpos m) e).
    assert (0 <= Z.shiftl (Zpos m) e) by (apply Z.shiftl_nonneg; lia).
    unfold to_uint. cbn [ftrunc cond_Zopp].
    replace (0 <=? Z.shiftl (Zpos m) e) with true by (symmetry; apply Z.leb_le; lia).
    replace (Z.shiftl (Zpos m) e <? modulus) with true
      by (symmetry; apply Z.ltb_lt; lia).
    repeat split; lia.
Qed.

Lemma bounded_same_digits (m m' : positive) (e : Z) :
  bounded prec emax m e = true ->
  Zpos (digits2_pos m') = Zpos (digits2_pos m) ->
  bounded prec emax m' e = true.
Proof. intros B D. apply bounded_iff. apply bounded_iff in B. rewrite D. exact B. Qed.

Lemma shl_align_ge (m : positive) (e e' : Z) :
  e <= e' -> shl_align m e e' = (m, e).
Proof.
  intros H. unfold shl_align. destruct (e' - e) eqn:E; try reflexivity. lia.
Qed.

Lemma fsub_self (m : positive) (e : Z) :
  fsub (S754_finite false m e) (S754_finite false m e) = S754_zero false.
Proof.
  cbn [fsub SFsub]. rewrite Z.min_id, shl_align_ge by lia.
  cbn [fst cond_Zopp]. rewrite Z.sub_diag. reflexivity.
Qed.

(** The fractional part is the float less its integer part: the subtraction
    is exact. *)
Lemma fsub_floor (v : float) (N : Z) :
  coord_in v N -> N < 2 ^ 24 ->
  exists x, ftrunc v = Some x /\ ffloor v = Some x /\
            fsub v (of_int x) = modf v.
Proof.
  intros [[s ->] | (m & e & -> & B & L)] HN.
  - exists 0. repeat split. destruct s; reflexivity.
  - exists (Z.shiftl (Zpos m) e). split; [reflexivity | split; [reflexivity|]].
    destruct (Z.leb_spec 0 e) as [P | Ne].
    + (* an integer *)
      rewrite Z.shiftl_mul_pow2 in * by lia.
      assert (0 < 2 ^ e) by (apply Z.pow_pos_nonneg; lia).
      destruct (Zpos m * 2 ^ e) as [|M|M] eqn:EM; try lia.
      assert (E : of_int (Zpos M) = S754_finite false m e).
      { unfold of_int, fl. cbn [binary_normalize].
        apply round_exact_fine; [assumption | lia |].
        rewrite Z.sub_0_r. symmetry; exact EM. }
      rewrite E, fsub_self. cbn [modf].
      replace (0 <=? e) with true by (symmetry; apply Z.leb_le; lia). reflexivity.
    + rewrite Z.shiftl_div_pow2 in * by lia.
      set (k := - e) in *.
      assert (Hk : 0 < 2 ^ k) by (apply Z.pow_pos_nonneg; lia).
      cbn [modf]. replace (0 <=? e) with false by (symmetry; apply Z.leb_gt; lia).
      cbn [cond_Zopp]. fold k.
      pose proof (Z.div_mod (Zpos m) (2 ^ k) ltac:(lia)) as DM.
      pose proof (Z.mod_pos_bound (Zpos m) (2 ^ k) Hk) as MB.
      assert (Q0 : 0 <= Zpos m / 2 ^ k) by (apply Z.div_pos; lia).
      destruct (Z.eq_dec (Zpos m / 2 ^ k) 0) as [Z0 | NZ].
      * (* below one *)
        rewrite Z0. change (of_int 0) with (S754_zero false).
        cbn [fsub SFsub]. rewrite Z0 in DM.
        replace (Zpos m mod 2 ^ k) with (Zpos m) by lia.
        cbn [binary_normalize]. symmetry.
        apply round_exact_coarse; [assumption | lia |].
        rewrite Z.sub_diag, Z.pow_0_r. lia.
      * (* both parts *)
        destruct (Zpos m / 2 ^ k) as [|X|X] eqn:EX; try lia.
        assert (P1 : 0 < Zpos X * 2 ^ k) by lia.
        destruct (Zpos X * 2 ^ k) as [|m1|m1] eqn:E1; try lia.
        assert (D1 : Zpos (digits2_pos m1) = Zpos (digits2_pos m)).
        { apply digits2_unique. pose proof (digits2_bounds m) as [Lo Hi].
          split; [|lia].
          set (d := Zpos (digits2_pos m)) in *.
          assert (Kd : k <= d - 1).
          { destruct (Z.le_gt_cases k (d - 1)); [assumption|].
            assert (2 ^ d <= 2 ^ k) by (apply Z.pow_le_mono_r; lia). nia. }
          replace (d - 1) with ((d - 1 - k) + k) in * by lia.
          rewrite Z.pow_add_r in * by lia.
          assert (2 ^ (d - 1 - k) <= Zpos X); [|nia].
          rewrite <- EX. apply Z.div_le_lower_bound; lia. }
        assert (B1 : bounded prec emax m1 e = true)
          by (apply (bounded_same_digits m); assumption).
        assert (E : of_int (Zpos X) = S754_finite false m1 e).
        { unfold of_int, fl. cbn [binary_normalize].
          apply round_exact_coarse; [assumption | lia |].
          rewrite Z.sub_0_l. fold k. symmetry; exact E1. }
        rewrite E. cbn [fsub SFsub]. rewrite Z.min_id, !shl_align_ge by lia.
        cbn [fst cond_Zopp]. f_equal. lia.
Qed.

(* ================================================================== *)
(** * Facts about getHeight *)

(** ** Unsigned arithmetic without wrap-around *)

Lemma u32_small (z : Z) : 0 <= z < modulus -> u32 z = z.
Proof. intros H. apply Z.mod_small. exact H. Qed.

Lemma pow24_lt_modulus : 2 ^ 24 < modulus.
Proof. reflexivity. Qed.

Lemma ix_small (cols rows x y : Z) :
  0 <= x < cols -> 0 <= y < rows -> cols * rows < modulus ->
  u32 (x + u32 (y * cols)) = x + y * cols /\ 0 <= x + y * cols < cols * rows.
Proof.
  intros Hx Hy Hm.
  assert (B : 0 <= x + y * cols < cols * rows) by nia.
  assert (0 <= y * cols < modulus) by nia.
  rewrite (u32_small (y * cols)) by assumption.
  rewrite u32_small by lia. split; [reflexivity | exact B].
Qed.

(** ** The cells a call reads *)

Lemma access_at_in_bounds (h : HeightField) (x1 y1 : Z) :
  grid_ok h -> 0 <= x1 <= _cols h - 1 -> 0 <= y1 <= _rows h - 1 ->
  in_bounds h (access_at h x1 y1).
Proof.
  intros (Hc & Hr & Hs & Hm) Hx Hy. unfold in_bounds, access_at.
  destruct (Z.leb_spec (_cols h) (x1 + 1)), (Z.leb_spec (_rows h) (y1 + 1));
    cbn [andb access_indices]; repeat constructor; nia.
Qed.

Lemma getHeight_access_small (h : HeightField) (c r : float) :
  grid_ok h -> 1 <= _cols h <= 2 ^ 24 -> 1 <= _rows h <= 2 ^ 24 ->
  is_float32 c = true -> is_float32 r = true ->
  is_nan c = false -> is_nan r = false ->
  exists x1 y1,
    coord_in (clamp c (_cols h)) (_cols h - 1) /\
    coord_in (clamp r (_rows h)) (_rows h - 1) /\
    ftrunc (clamp c (_cols h)) = Some x1 /\
    ftrunc (clamp r (_rows h)) = Some y1 /\
    0 <= x1 <= _cols h - 1 /\ 0 <= y1 <= _rows h - 1 /\
    getHeight_access h c r
    = Some (access_at h x1 y1, clamp c (_cols h), clamp r (_rows h)).
Proof.
  intros G Hc Hr Vc Vr Nc Nr. pose proof G as (Gc & Gr & Gs & Gm).
  pose proof pow24_lt_modulus as P.
  pose proof (clamp_coord c (_cols h) Vc Nc Hc) as Cc.
  pose proof (clamp_coord r (_rows h) Vr Nr Hr) as Cr.
  destruct (coord_in_to_uint _ _ Cc) as (x1 & Ux & Tx & Bx); [lia|].
  destruct (coord_in_to_uint _ _ Cr) as (y1 & Uy & Ty & By); [lia|].
  exists x1, y1. repeat (split; [assumption || lia|]).
  unfold getHeight_access. rewrite Ux, Uy.
  rewrite (u32_small (x1 + 1)), (u32_small (y1 + 1)) by lia.
  unfold access_at.
  destruct (Z.leb_spec (_cols h) (x1 + 1)), (Z.leb_spec (_rows h) (y1 + 1));
    cbn [andb]; repeat f_equal;
    match goal with
    | |- u32 (?x + u32 (?y * _)) = _ =>
        apply (ix_small (_cols h) (_rows h) x y); lia
    end.
Qed.

(** ** Reads inside the buffer *)

Lemma fa_load_in (h : HeightField) (i : Z) :
  grid_ok h -> 0 <= i < _cols h * _rows h ->
  fa_load (_array h) i = Some (fa_cell (_array h) i).
Proof.
  intros (_ & _ & Hs & _) Hi. unfold fa_load. rewrite Hs.
  replace (0 <=? i) with true by (symmetry; apply Z.leb_le; lia).
  replace (i <? _cols h * _rows h) with true by (symmetry; apply Z.ltb_lt; lia).
  reflexivity.
Qed.

Lemma spec_clamp_eq (v : float) (n : Z) :
  1 <= n <= modulus -> Spec.clamp v (n - 1) = clamp v n.
Proof.
  intros H. unfold Spec.clamp, clamp. rewrite u32_small by lia. reflexivity.
Qed.

(** ** The clamp *)

(** [getHeight] sees its arguments through the clamp only. *)
Lemma getHeight_clamp (h : HeightField) (c c' r r' : float) :
  clamp c (_cols h) = clamp c' (_cols h) ->
  clamp r (_rows h) = clamp r' (_rows h) ->
  getHeight h c r = getHeight h c' r'.
Proof.
  intros Ec Er. unfold getHeight, getHeight_access. rewrite Ec, Er. reflexivity.
Qed.

Lemma u32_range (z : Z) : 0 <= u32 z < modulus.
Proof. apply Z.mod_pos_bound. reflexivity. Qed.

Lemma clamp_zero (n : Z) : clamp f0 n = f0.
Proof.
  unfold clamp. change (flt f0 (of_int 0)) with false. cbv iota.
  unfold fgt. fold (flt (of_int (u32 (n - 1))) f0).
  change f0 with (of_int 0). rewrite of_int_not_neg; [reflexivity|].
  apply u32_range.
Qed.

Lemma clamp_below (c : float) (n : Z) :
  flt c f0 = true -> clamp c n = clamp f0 n.
Proof.
  intros H. rewrite clamp_zero. unfold clamp.
  change (of_int 0) with f0. rewrite H. reflexivity.
Qed.

(** Above a float that is not negative, hence not below zero. *)
Lemma above_not_neg (F c : float) :
  flt F f0 = false -> flt F c = true -> flt c f0 = false.
Proof.
  destruct F as [s|s| |s m e], c as [s'|s'| |s' m' e'];
    try destruct s; try destruct s'; cbn; intros; congruence.
Qed.

Lemma clamp_above (c : float) (n : Z) :
  1 <= n <= modulus ->
  fgt c (of_int (n - 1)) = true -> clamp c n = clamp (of_int (n - 1)) n.
Proof.
  intros Hn H. unfold clamp. rewrite u32_small by lia.
  rewrite (of_int_not_neg (n - 1)) by lia.
  unfold fgt at 2. rewrite flt_irrefl. rewrite H.
  replace (flt c (of_int 0)) with false; [reflexivity|].
  symmetry. apply (above_not_neg (of_int (n - 1))).
  - apply of_int_not_neg. lia.
  - exact H.
Qed.

(** ** Samples at grid points *)

Lemma same_value_refl (s : float) : same_value s s.
Proof. left; reflexivity. Qed.

Lemma same_value_add_zero (v s z : float) :
  is_finite s = true -> same_value v s -> (exists a, z = S754_zero a) ->
  same_value (fadd v z) s.
Proof.
  intros F [-> | (a & b & -> & ->)] [c ->].
  - destruct s as [s0|s0| |s0 m e]; try discriminate.
    + right. exists (if s0 then (if c then true else false) else false), s0.
      split; [|reflexivity]. destruct s0, c; reflexivity.
    + left. reflexivity.
  - right. exists (if a then (if c then true else false) else false), b.
    split; [|reflexivity]. destruct a, c; reflexivity.
Qed.

Lemma same_value_feq (v s : float) :
  is_finite s = true -> same_value v s -> feq v s = true.
Proof.
  intros F [-> | (a & b & -> & ->)]; [|reflexivity].
  unfold feq, SFeqb. destruct (SFcompare_refl s) as [E | E]; rewrite E; [reflexivity|].
  destruct s; discriminate.
Qed.

Lemma of_int_float32 (n : Z) :
  0 <= n < 2 ^ 24 -> is_float32 (of_int n) = true /\ is_nan (of_int n) = false.
Proof.
  intros H. destruct (Z.eq_dec n 0) as [-> | N0]; [split; reflexivity|].
  destruct (of_int_exact n) as (m & e & E & B & _); [lia|].
  rewrite E. split; [exact B | reflexivity].
Qed.

Lemma clamp_of_int (x n : Z) :
  0 <= x <= n - 1 -> n <= 2 ^ 24 -> clamp (of_int x) n = of_int x.
Proof.
  intros Hx Hn. unfold clamp.
  rewrite u32_small by (pose proof pow24_lt_modulus; lia).
  rewrite of_int_not_neg by lia. rewrite of_int_le by lia. reflexivity.
Qed.

(** At a grid point the sample is the stored value, when the cells read are
    finite. *)
Lemma getHeight_grid_point (h : HeightField) (x y : Z) :
  grid_ok h -> _cols h <= 2 ^ 24 -> _rows h <= 2 ^ 24 ->
  cells_finite h ->
  0 <= x <= _cols h - 1 -> 0 <= y <= _rows h - 1 ->
  exists v, getHeight h (of_int x) (of_int y) = Some v /\
            same_value v (cell h x y).
Proof.
  intros G Hc Hr Fin Hx Hy.
  destruct (of_int_float32 x) as [Vx Nx]; [lia|].
  destruct (of_int_float32 y) as [Vy Ny]; [lia|].
  destruct (getHeight_access_small h (of_int x) (of_int y) G)
    as (x1 & y1 & _ & _ & Tx & Ty & Bx & By & A); try assumption; try lia.
  rewrite clamp_of_int in Tx, A by lia. rewrite clamp_of_int in Ty, A by lia.
  rewrite ftrunc_of_int in Tx, Ty by lia.
  injection Tx as <-. injection Ty as <-.
  pose proof (access_at_in_bounds h x y G Hx Hy) as IB.
  unfold getHeight. rewrite A. rewrite !modf_of_int by lia.
  change (fsub f1 (S754_zero false)) with f1.
  change (fmul f1 f1) with f1.
  change (fmul f1 (S754_zero false)) with (S754_zero false).
  change (fmul (S754_zero false) f1) with (S754_zero false).
  change (fmul (S754_zero false) (S754_zero false)) with (S754_zero false).
  unfold in_bounds, access_at, cell in *.
  assert (Z : forall i, exists a, fmul (fa_cell (_array h) i) (S754_zero false) = S754_zero a).
  { intros i. apply fmul_zero_r. apply Fin. }
  assert (O : forall i, fmul (fa_cell (_array h) i) f1 = fa_cell (_array h) i).
  { intros i. apply fmul_one_r; apply Fin. }
  destruct (_cols h <=? x + 1), (_rows h <=? y + 1);
    cbn [andb access_indices] in *;
    repeat match goal with
           | H : Forall _ (_ :: _) |- _ => inversion H; subst; clear H
           end;
    repeat rewrite fa_load_in by assumption;
    eexists; (split; [reflexivity|]); rewrite ?O;
    repeat (apply same_value_add_zero; [apply Fin | | apply Z]);
    apply same_value_refl.
Qed.

(** At the last cell of the last row the sample is the stored value,
    whatever the cells hold. *)
Lemma getHeight_last_corner (h : HeightField) :
  grid_ok h -> 1 <= _cols h <= 2 ^ 24 -> 1 <= _rows h <= 2 ^ 24 ->
  getHeight h (of_int (_cols h - 1)) (of_int (_rows h - 1))
  = Some (cell h (_cols h - 1) (_rows h - 1)).
Proof.
  intros G Hc Hr.
  destruct (of_int_float32 (_cols h - 1)) as [Vx Nx]; [lia|].
  destruct (of_int_float32 (_rows h - 1)) as [Vy Ny]; [lia|].
  destruct (getHeight_access_small h (of_int (_cols h - 1)) (of_int (_rows h - 1)) G)
    as (x1 & y1 & _ & _ & Tx & Ty & Bx & By & A); try assumption; try lia.
  rewrite clamp_of_int in Tx, A by lia. rewrite clamp_of_int in Ty, A by lia.
  rewrite ftrunc_of_int in Tx, Ty by lia.
  injection Tx as <-. injection Ty as <-.
  unfold getHeight. rewrite A. unfold access_at, cell.
  replace (_cols h <=? _cols h - 1 + 1) with true by (symmetry; apply Z.leb_le; lia).
  replace (_rows h <=? _rows h - 1 + 1) with true by (symmetry; apply Z.leb_le; lia).
  cbn [andb]. apply fa_load_in; [assumption|].
  destruct G as (? & ? & ? & ?). nia.
Qed.

(* ================================================================== *)
(** * Facts about the decoder *)

(** ** Exact sums, products and quotients *)

Lemma shl_align_value (m : positive) (e e' : Z) :
  e' <= e -> Zpos (fst (shl_align m e e')) = Zpos m * 2 ^ (e - e').
Proof.
  intros H. unfold shl_align. destruct (e' - e) as [|d|d] eqn:E; cbn [fst].
  - replace (e - e') with 0 by lia. lia.
  - lia.
  - rewrite iter_xO_pow2. f_equal. f_equal. lia.
Qed.

(** The same value on a finer exponent. *)
Lemma fl_shift (M k E : Z) :
  0 <= M < 2 ^ 24 -> 0 <= k -> -149 <= E + k <= 104 ->
  fl (M * 2 ^ k) E = fl M (E + k).
Proof.
  intros HM Hk HE. destruct M as [|M|M]; try lia; [reflexivity|].
  destruct (fl_exact M (E + k)) as (m & e & -> & B & L & V & _); [lia | lia |].
  assert (0 < 2 ^ k) by (apply Z.pow_pos_nonneg; lia).
  destruct (Zpos M * 2 ^ k) as [|P|P] eqn:EP; try lia.
  unfold fl. cbn [binary_normalize]. apply round_exact; [assumption|].
  rewrite V, <- EP. rewrite <- !Z.mul_assoc, <- !Z.pow_add_r by lia.
  f_equal. f_equal. lia.
Qed.

(** The sum of two values on one exponent, when it has at most 24 bits. *)
Lemma fadd_fl (M1 M2 E : Z) :
  0 <= M1 -> 0 <= M2 -> M1 + M2 < 2 ^ 24 -> -149 <= E <= 104 ->
  fadd (fl M1 E) (fl M2 E) = fl (M1 + M2) E.
Proof.
  intros H1 H2 HS HE.
  destruct M1 as [|M1|M1]; try lia.
  { destruct M2 as [|M2|M2]; try lia; [reflexivity|].
    destruct (fl_exact M2 E) as (m & e & Eq & _); [lia | lia |].
    cbn [Z.add]. rewrite Eq. reflexivity. }
  destruct M2 as [|M2|M2]; try lia.
  { destruct (fl_exact M1 E) as (m & e & Eq & _); [lia | lia |].
    rewrite Z.add_0_r, Eq. reflexivity. }
  destruct (fl_exact M1 E) as (m1 & e1 & -> & B1 & L1 & V1 & _); [lia | lia |].
  destruct (fl_exact M2 E) as (m2 & e2 & -> & B2 & L2 & V2 & _); [lia | lia |].
  change (Zpos M1 + Zpos M2) with (Zpos (M1 + M2)) in *.
  destruct (fl_exact (M1 + M2) E) as (m & e & -> & B & L & V & _); [lia | lia |].
  cbn [fadd SFadd cond_Zopp].
  rewrite !shl_align_value by lia.
  set (ez := Z.min e1 e2).
  assert (S : Zpos m1 * 2 ^ (e1 - ez) + Zpos m2 * 2 ^ (e2 - ez)
              = Zpos (M1 + M2) * 2 ^ (E - ez)).
  { rewrite V1, V2, Pos2Z.inj_add.
    rewrite <- !Z.mul_assoc, <- !Z.pow_add_r by lia.
    replace (E - e1 + (e1 - ez)) with (E - ez) by lia.
    replace (E - e2 + (e2 - ez)) with (E - ez) by lia. ring. }
  rewrite S.
  assert (0 < 2 ^ (E - ez)) by (apply Z.pow_pos_nonneg; lia).
  destruct (Zpos (M1 + M2) * 2 ^ (E - ez)) as [|P|P] eqn:EP; try lia.
  cbn [binary_normalize]. apply round_exact; [assumption|].
  rewrite V, <- EP. rewrite <- !Z.mul_assoc, <- !Z.pow_add_r by lia.
  f_equal. f_equal. lia.
Qed.

Lemma of_int_add (a b : Z) :
  0 <= a -> 0 <= b -> a + b < 2 ^ 24 ->
  fadd (of_int a) (of_int b) = of_int (a + b).
Proof. intros. apply fadd_fl; lia. Qed.

(** Division of a normal float by 65536. *)
Lemma fdiv_65536 (m : positive) (e : Z) :
  bounded prec emax m e = true -> 2 ^ 23 <= Zpos m -> -149 <= e - 17 ->
  fdiv (S754_finite false m e) f65536 = S754_finite false m (e - 16).
Proof.
  intros B N L.
  assert (D : Zpos (digits2_pos m) = 24).
  { apply digits2_unique. split; [exact N | apply (bounded_digits m e B)]. }
  assert (B' : bounded prec emax m (e - 16) = true).
  { apply bounded_iff. apply bounded_iff in B. rewrite D in *. lia. }
  change f65536 with (S754_finite false 8388608 (-7)).
  cbn [fdiv SFdiv xorb]. unfold SFdiv_core_binary.
  cbn [Zdigits2]. rewrite D.
  change (Zpos (digits2_pos 8388608)) with 24.
  rewrite fexp_eq.
  replace (Z.min (Z.max (24 + e - (24 + -7) - 24) (-149)) (e - -7)) with (e - 17) by lia.
  replace (e - -7 - (e - 17)) with 24 by lia.
  rewrite Z.shiftl_mul_pow2 by lia.
  pose proof (Z_div_mod (Zpos m * 2 ^ 24) (Zpos 8388608) ltac:(reflexivity)) as DM.
  destruct (Z.div_eucl (Zpos m * 2 ^ 24) (Zpos 8388608)) as [q r].
  change (2 ^ 24) with 16777216 in DM.
  assert (r = 0) by lia. assert (q = Zpos m * 2 ^ 1) by (change (2 ^ 1) with 2; lia).
  subst q r. change (new_location (Zpos 8388608) 0) with loc_Exact.
  replace (e - 17) with (e - 16 - 1) by lia.
  apply round_aux_exact; [exact B' | lia].
Qed.

(** ** The channels *)

Lemma bytes_all (P : Z -> bool) :
  forallb P (map Z.of_nat (seq 0 256)) = true ->
  forall x, 0 <= x <= 255 -> P x = true.
Proof.
  intros H x Hx. rewrite forallb_forall in H. apply H.
  apply in_map_iff. exists (Z.to_nat x). split; [lia|].
  apply in_seq. lia.
Qed.

Lemma float_eqb_eq (a b : float) : float_eqb a b = true -> a = b.
Proof.
  destruct a as [s|s| |s m e], b as [s'|s'| |s' m' e']; cbn; try discriminate;
    try (intros H; apply eqb_prop in H; congruence); [reflexivity|].
  intros H. apply andb_prop in H as [H He]. apply andb_prop in H as [Hs Hm].
  apply eqb_prop in Hs. apply Pos.eqb_eq in Hm. apply Z.eqb_eq in He. congruence.
Qed.

Lemma fmul_256 (r : Z) :
  0 <= r <= 255 -> fmul f256 (of_int r) = of_int (256 * r).
Proof.
  intros H. apply float_eqb_eq.
  apply (bytes_all (fun r => float_eqb (fmul f256 (of_int r)) (of_int (256 * r))));
    [vm_compute; reflexivity | exact H].
Qed.

Lemma fmul_256th (b : Z) :
  0 <= b <= 255 -> fmul f0_00390625 (of_int b) = fl b (-8).
Proof.
  intros H. apply float_eqb_eq.
  apply (bytes_all (fun b => float_eqb (fmul f0_00390625 (of_int b)) (fl b (-8))));
    [vm_compute; reflexivity | exact H].
Qed.

Lemma packed24_range (r g b : Z) :
  0 <= r <= 255 -> 0 <= g <= 255 -> 0 <= b <= 255 ->
  0 <= packed24 r g b < 2 ^ 24.
Proof. unfold packed24. change (2 ^ 24) with 16777216. lia. Qed.

(** The decoder is exact: it returns the float [N * 2^-24] for the packed
    height [N]. *)
Lemma decode_exact (r g b : Z) :
  0 <= r <= 255 -> 0 <= g <= 255 -> 0 <= b <= 255 ->
  decode r g b = fl (packed24 r g b) (-24).
Proof.
  intros Hr Hg Hb. pose proof (packed24_range r g b Hr Hg Hb) as HN.
  unfold decode, normalizedHeightPacked.
  rewrite fmul_256, fmul_256th by assumption.
  change (2 ^ 24) with 16777216 in *.
  rewrite of_int_add by (change (2 ^ 24) with 16777216; lia).
  unfold of_int.
  replace (fl (256 * r + g) 0) with (fl ((256 * r + g) * 2 ^ 8) (-8)).
  2:{ apply (fl_shift (256 * r + g) 8 (-8)); [change (2 ^ 24) with 16777216|..]; lia. }
  rewrite fadd_fl; [| change (2 ^ 8) with 256; change (2 ^ 24) with 16777216; lia ..].
  replace ((256 * r + g) * 2 ^ 8 + b) with (packed24 r g b)
    by (unfold packed24; change (2 ^ 8) with 256; lia).
  destruct (packed24 r g b) as [|N|N] eqn:EN; try lia; [reflexivity|].
  destruct (fl_exact N (-8)) as (m & e & -> & B & L & V & Ee);
    [change (2 ^ 24) with 16777216; lia | lia |].
  destruct (fl_exact N (-24)) as (m' & e' & -> & B' & L' & V' & Ee');
    [change (2 ^ 24) with 16777216; lia | lia |].
  pose proof (Pos2Z.is_pos (digits2_pos N)).
  assert (E16 : e' = e - 16) by lia. clear Ee'. subst e'.
  assert (m' = m).
  { apply Pos2Z.inj. rewrite V, V'. f_equal. f_equal. lia. }
  subst m'. apply fdiv_65536; [assumption | | lia].
  apply (bounded_normal m e B). lia.
Qed.

(** ** The value of the decoder *)

Lemma F2Q_fl24 (N : Z) :
  0 <= N < 2 ^ 24 -> (F2Q (fl N (-24)) == N # (2 ^ 24))%Q.
Proof.
  intros H. destruct N as [|N|N]; try lia; [reflexivity|].
  destruct (fl_exact N (-24)) as (m & e & -> & B & L & V & _); [lia | lia |].
  destruct e as [|p|p]; try lia.
  cbn [F2Q cond_Zopp]. unfold Qeq. cbn [Qnum Qden].
  rewrite V, Pos2Z.inj_pow. rewrite <- Z.mul_assoc. f_equal.
  change (Zpos (2 ^ 24)) with (2 ^ 24).
  rewrite Pos2Z.inj_pow. change (Zpos 2) with 2.
  rewrite <- (Z.pow_add_r 2 (-24 - Z.neg p) 24) by lia. f_equal. lia.
Qed.

Lemma decode_value (r g b : Z) :
  0 <= r <= 255 -> 0 <= g <= 255 -> 0 <= b <= 255 ->
  (F2Q (decode r g b) == packed24 r g b # (2 ^ 24))%Q.
Proof.
  intros Hr Hg Hb. rewrite decode_exact by assumption.
  apply F2Q_fl24. apply packed24_range; assumption.
Qed.

Lemma packed24_formula (r g b : Z) :
  (packed24 r g b # (2 ^ 24)
   == (256 * inject_Z r + inject_Z g + inject_Z b / 256) / 65536)%Q.
Proof.
  unfold packed24. rewrite Qmake_Qdiv.
  rewrite !inject_Z_plus, !inject_Z_mult.
  change (inject_Z (Zpos (2 ^ 24))) with (16777216%Q).
  change (inject_Z 65536) with (65536%Q). change (inject_Z 256) with (256%Q).
  field.
Qed.

Lemma Qmake_le (a b : Z) (d : positive) : a <= b -> (a # d <= b # d)%Q.
Proof. intros H. unfold Qle. cbn [Qnum Qden]. nia. Qed.

Lemma Qmake_lt (a b : Z) (d : positive) : a < b -> (a # d < b # d)%Q.
Proof. intros H. unfold Qlt. cbn [Qnum Qden]. nia. Qed.

Lemma grayscale_error_bound (x : Z) :
  0 <= x <= 255 ->
  (Qabs (F2Q (decode x x x) - F2Q (grayscale x))
   <= (1 / 2 ^ 8 + 1 / 2 ^ 16) * F2Q (grayscale x))%Q.
Proof.
  intros H. apply Qle_bool_iff.
  apply (bytes_all (fun x =>
           Qle_bool (Qabs (F2Q (decode x x x) - F2Q (grayscale x)))
                    ((1 / 2 ^ 8 + 1 / 2 ^ 16) * F2Q (grayscale x))));
    [vm_compute; reflexivity | exact H].
Qed.

(* ================================================================== *)
(** * Facts about the loaders *)

(** ** The loops of the loaders *)

Lemma INT_MAX_lt_modulus : INT_MAX < modulus.
Proof. reflexivity. Qed.

Lemma s32_small (z : Z) : - 2 ^ 31 <= z <= INT_MAX -> s32 z = z.
Proof.
  intros H. unfold s32, INT_MAX in *. rewrite Z.mod_small; [lia|].
  unfold modulus. change (2 ^ 32) with (2 ^ 31 + 2 ^ 31). lia.
Qed.

Lemma s32_u32_pred (h : Z) : 0 <= h <= INT_MAX -> s32 (u32 (h - 1)) = h - 1.
Proof.
  intros H. unfold s32, u32, INT_MAX, modulus in *.
  rewrite Zplus_mod_idemp_l.
  rewrite Z.mod_small; [lia|]. change (2 ^ 32) with (2 ^ 31 + 2 ^ 31). lia.
Qed.

Lemma int_add_small (a b : Z) :
  - 2 ^ 31 <= a + b <= INT_MAX -> int_add a b = Some (a + b).
Proof.
  intros H. unfold int_add. cbv zeta.
  replace (- 2 ^ 31 <=? a + b) with true by (symmetry; apply Z.leb_le; lia).
  replace (a + b <=? INT_MAX) with true by (symmetry; apply Z.leb_le; lia).
  reflexivity.
Qed.

Lemma rd_in (d : bytes) (i : Z) :
  0 <= i < Z.of_nat (List.length d) ->
  rd d i = Some (byte_at d i).
Proof.
  intros H. unfold rd.
  replace (i <? 0) with false by (symmetry; apply Z.ltb_ge; lia).
  rewrite (nth_error_nth' d x00) by lia. reflexivity.
Qed.

Lemma put_ok (i : Z) (a : farray) (v : float) :
  0 <= i < fa_size a -> i < INT_MAX ->
  exists st', put (i, a) v = Some st' /\ stores (i, a) st' v.
Proof.
  intros Hi Hm. unfold put, fa_store.
  replace (0 <=? i) with true by (symmetry; apply Z.leb_le; lia).
  replace (i <? fa_size a) with true by (symmetry; apply Z.ltb_lt; lia).
  cbn [andb obind]. rewrite int_add_small by (unfold INT_MAX in *; lia).
  cbn [obind]. eexists. split; [reflexivity|].
  repeat split.
Qed.

Section LoopFacts.

Variable body : Z -> Z -> lstate -> option lstate.
Variable val : Z -> Z -> float.
Variables w h : Z.

Hypothesis body_ok : forall y x i a,
  0 <= y < h -> 0 <= x < w -> 0 <= i < fa_size a -> i < INT_MAX ->
  exists st', body y x (i, a) = Some st' /\ stores (i, a) st' (val y x).

Hypothesis w_range : 0 <= w < modulus.

Lemma row_loop_ok (n : nat) : forall y x i a,
  0 <= y < h -> 0 <= x -> x + Z.of_nat n = w ->
  0 <= i -> i + Z.of_nat n <= fa_size a -> i + Z.of_nat n <= INT_MAX ->
  exists a',
    row_loop body n y x (i, a) = Some (i + Z.of_nat n, a') /\
    fa_size a' = fa_size a /\
    forall j, fa_cell a' j
              = if (i <=? j) && (j <? i + Z.of_nat n)
                then val y (x + (j - i)) else fa_cell a j.
Proof.
  induction n as [|n IH]; intros y x i a Hy Hx Hn Hi Hs Hm.
  - exists a. cbn [row_loop]. rewrite Z.add_0_r. repeat split.
    intros j. destruct (Z.leb_spec i j), (Z.ltb_spec j i); cbn [andb]; try reflexivity; lia.
  - cbn [row_loop]. rewrite Nat2Z.inj_succ in *.
    destruct (body_ok y x i a) as ([i1 a1] & E & Si & Ss & Sc); try lia.
    cbn [fst snd] in *. subst i1. rewrite E. cbn [obind].
    rewrite u32_small by lia.
    destruct (IH y (x + 1) (i + 1) a1) as (a' & E' & S' & C'); try lia.
    exists a'. split; [rewrite E'; f_equal; f_equal; lia|].
    split; [lia|]. intros j. rewrite C', Sc.
    destruct (Z.leb_spec (i + 1) j), (Z.ltb_spec j (i + 1 + Z.of_nat n)),
             (Z.leb_spec i j), (Z.ltb_spec j (i + Z.succ (Z.of_nat n))),
             (Z.eqb_spec j i);
      cbn [andb]; try lia; try reflexivity.
    + f_equal. lia.
    + subst j. f_equal. lia.
Qed.

Lemma rows_loop_ok (k : nat) : forall i a,
  Z.of_nat k <= h -> i = (h - Z.of_nat k) * w ->
  h * w <= fa_size a -> h * w <= INT_MAX ->
  exists a',
    rows_loop body k w (i, a) = Some (h * w, a') /\
    fa_size a' = fa_size a /\
    forall j, fa_cell a' j
              = if (i <=? j) && (j <? h * w)
                then val (h - 1 - j / w) (j mod w) else fa_cell a j.
Proof.
  induction k as [|k IH]; intros i a Hk Hi Hs Hm.
  - exists a. cbn [rows_loop Z.of_nat] in *. rewrite Z.sub_0_r in Hi. subst i.
    repeat split. intros j.
    destruct (Z.leb_spec (h * w) j), (Z.ltb_spec j (h * w)); cbn [andb]; try reflexivity; lia.
  - cbn [rows_loop]. rewrite Nat2Z.inj_succ in *.
    destruct (row_loop_ok (Z.to_nat w) (Z.of_nat k) 0 i a)
      as (a1 & E1 & S1 & C1); try rewrite Z2Nat.id; try lia; try nia.
    rewrite Z2Nat.id in E1, C1 by lia.
    rewrite E1. cbn [obind].
    destruct (IH (i + w) a1) as (a' & E' & S' & C'); try lia; try nia.
    exists a'. split; [exact E'|]. split; [lia|].
    intros j. rewrite C', C1.
    destruct (Z.leb_spec (i + w) j), (Z.ltb_spec j (h * w)), (Z.leb_spec i j),
             (Z.ltb_spec j (i + w));
      cbn [andb]; try lia; try nia; try reflexivity.
    assert (Q : j / w = h - Z.succ (Z.of_nat k)).
    { symmetry. apply (Z.div_unique_pos j w _ (j - i)); [lia | nia]. }
    assert (R : j mod w = j - i).
    { symmetry. apply (Z.mod_unique_pos j w (h - Z.succ (Z.of_nat k))); [lia | nia]. }
    rewrite Q, R. f_equal; lia.
Qed.

(** The whole nest stores [val (h-1-r) x] in the cell [(x, r)]. *)
Lemma fill_ok (a : farray) :
  0 <= h -> h * w <= fa_size a -> h * w <= INT_MAX -> h <= INT_MAX ->
  exists a',
    fill body w h a = Some a' /\ fa_size a' = fa_size a /\
    forall x r, 0 <= x < w -> 0 <= r < h ->
                fa_cell a' (x + r * w) = val (h - 1 - r) x.
Proof.
  intros Hh Hs Hm Hi. unfold fill. rewrite s32_u32_pred by lia.
  replace (h - 1 + 1) with h by lia.
  destruct (rows_loop_ok (Z.to_nat h) 0 a) as (a' & E & S & C);
    try rewrite Z2Nat.id; try lia.
  rewrite E. exists a'. cbn [option_map snd]. split; [reflexivity|].
  split; [exact S|]. intros x r Hx Hr. rewrite C.
  replace (0 <=? x + r * w) with true by (symmetry; apply Z.leb_le; nia).
  replace (x + r * w <? h * w) with true by (symmetry; apply Z.ltb_lt; nia).
  cbn [andb].
  assert (Q : (x + r * w) / w = r).
  { symmetry. apply (Z.div_unique_pos _ w r x); lia. }
  assert (R : (x + r * w) mod w = x).
  { symmetry. apply (Z.mod_unique_pos _ w r x); lia. }
  rewrite Q, R. reflexivity.
Qed.

End LoopFacts.

(** ** The loop bodies *)

Lemma INT_MAX_eq : INT_MAX = 2147483647.
Proof. reflexivity. Qed.

Lemma modulus_eq : modulus = 4294967296.
Proof. reflexivity. Qed.

Lemma image_pixel_ok (im : Image) (bpp : Z) (minHeight maxHeight : float) :
  image_ok im bpp -> bpp = 3 \/ bpp = 4 ->
  forall y x i a,
    0 <= y < img_height im -> 0 <= x < img_width im ->
    0 <= i < fa_size a -> i < INT_MAX ->
    exists st',
      image_pixel minHeight (fsub maxHeight minHeight) (img_data im)
                  (img_width im) bpp y x (i, a) = Some st' /\
      stores (i, a) st' (pixel_height im bpp minHeight maxHeight x y).
Proof.
  intros (Hw & Hh & Hl & Hm) Hb y x i a Hy Hx Hi Hi'.
  rewrite INT_MAX_eq in *.
  set (w := img_width im) in *. set (h := img_height im) in *.
  assert (P : 0 <= y * w + x <= w * h - 1) by nia.
  assert (Q : 0 <= (y * w + x) * bpp /\ (y * w + x) * bpp + 2 < w * h * bpp)
    by (destruct Hb; subst bpp; nia).
  assert (Yw : 0 <= y * w <= w * h - 1) by nia.
  unfold image_pixel.
  rewrite (u32_small y) by (rewrite modulus_eq; nia).
  rewrite (u32_small (y * w)) by (rewrite modulus_eq; destruct Hb; subst bpp; nia).
  rewrite (u32_small (y * w + x)) by (rewrite modulus_eq; destruct Hb; subst bpp; nia).
  rewrite (u32_small ((y * w + x) * bpp)) by (rewrite modulus_eq; lia).
  rewrite s32_small by (rewrite INT_MAX_eq; lia).
  rewrite !int_add_small by (rewrite INT_MAX_eq; lia). cbn [obind].
  rewrite !rd_in by lia. cbn [obind].
  destruct (put_ok i a (pixel_height im bpp minHeight maxHeight x y))
    as (st' & E & S); [lia | rewrite INT_MAX_eq; lia |].
  exists st'. split; [|exact S].
  rewrite <- E. unfold pixel_height, decode, pixel_byte. fold w.
  rewrite Z.add_0_r. reflexivity.
Qed.

Lemma raw8_sample_ok (d : bytes) (w h : Z) (minHeight maxHeight : float) :
  0 <= w -> 0 <= h -> w * h <= Z.of_nat (List.length d) -> w * h <= INT_MAX ->
  forall y x i a,
    0 <= y < h -> 0 <= x < w -> 0 <= i < fa_size a -> i < INT_MAX ->
    exists st',
      raw8_sample minHeight (fsub maxHeight minHeight) d w y x (i, a) = Some st' /\
      stores (i, a) st' (raw8_height d w minHeight maxHeight x y).
Proof.
  intros Hw Hh Hl Hm y x i a Hy Hx Hi Hi'.
  rewrite INT_MAX_eq in *.
  assert (P : 0 <= y * w + x <= w * h - 1) by nia.
  assert (Yw : 0 <= y * w <= w * h - 1) by nia.
  unfold raw8_sample.
  rewrite (u32_small y) by (rewrite modulus_eq; nia).
  rewrite (u32_small (y * w)) by (rewrite modulus_eq; lia).
  rewrite (u32_small (y * w + x)) by (rewrite modulus_eq; lia).
  rewrite rd_in by lia. cbn [obind].
  apply put_ok; [lia | rewrite INT_MAX_eq; lia].
Qed.

Lemma raw16_sample_ok (d : bytes) (w h : Z) (minHeight maxHeight : float) :
  0 <= w -> 0 <= h -> 2 * (w * h) <= Z.of_nat (List.length d) ->
  Z.of_nat (List.length d) <= INT_MAX ->
  forall y x i a,
    0 <= y < h -> 0 <= x < w -> 0 <= i < fa_size a -> i < INT_MAX ->
    exists st',
      raw16_sample minHeight (fsub maxHeight minHeight) d w y x (i, a) = Some st' /\
      stores (i, a) st' (raw16_height d w minHeight maxHeight x y).
Proof.
  intros Hw Hh Hl Hm y x i a Hy Hx Hi Hi'.
  rewrite INT_MAX_eq in *.
  assert (P : 0 <= y * w + x <= w * h - 1) by nia.
  assert (Yw : 0 <= y * w <= w * h - 1) by nia.
  unfold raw16_sample.
  rewrite (u32_small y) by (rewrite modulus_eq; nia).
  rewrite (u32_small (y * w)) by (rewrite modulus_eq; lia).
  rewrite (u32_small (y * w + x)) by (rewrite modulus_eq; lia).
  rewrite (u32_small ((y * w + x) * 2)) by (rewrite modulus_eq; lia).
  rewrite s32_small by (rewrite INT_MAX_eq; lia).
  rewrite int_add_small by (rewrite INT_MAX_eq; lia). cbn [obind].
  rewrite !rd_in by lia. cbn [obind].
  apply put_ok; [lia | rewrite INT_MAX_eq; lia].
Qed.

(** ** The dispatcher *)

Lemma bind_ret {A B} (a : A) (k : A -> M B) : bind (ret a) k = k a.
Proof. unfold bind, ret. destruct (k a) as [t r]. reflexivity. Qed.

Lemma GP_ASSERT_pass (W : World) (minHeight maxHeight : float) :
  contract W minHeight maxHeight ->
  GP_ASSERT W (fge maxHeight minHeight) = ret tt.
Proof.
  intros [H | H]; unfold GP_ASSERT; rewrite H; [reflexivity|].
  rewrite andb_false_r. reflexivity.
Qed.

Lemma create_unfold (W : World) (path : string) (width height : Z)
      (minHeight maxHeight : float) :
  contract W minHeight maxHeight ->
  create W path width height minHeight maxHeight
  = if Z.of_nat (String.length path) <=? 4
    then bind (GP_WARN WarnExtension path) (fun _ => ret None)
    else if ext_is path "P" "N" "G"
         then create_png W path minHeight (fsub maxHeight minHeight)
         else if ext_is path "R" "A" "W"
              then create_raw W path width height minHeight maxHeight
                              (fsub maxHeight minHeight)
              else bind (GP_WARN WarnImageFormat path) (fun _ => ret None).
Proof.
  intros C. unfold create. rewrite (GP_ASSERT_pass W _ _ C), bind_ret. reflexivity.
Qed.

(** ** The image branch *)

Lemma result_bind {A B} (m : M A) (k : A -> M B) (a : A) :
  result m = Done a -> result (bind m k) = result (k a).
Proof.
  destruct m as [t r]. cbn [result snd]. intros ->. unfold bind.
  destruct (k a) as [t' r']. reflexivity.
Qed.

Lemma trace_bind {A B} (m : M A) (k : A -> M B) (a : A) :
  result m = Done a -> trace (bind m k) = (trace m ++ trace (k a))%list.
Proof.
  destruct m as [t r]. cbn [result trace fst snd]. intros ->. unfold bind.
  destruct (k a) as [t' r']. reflexivity.
Qed.

Lemma new_grid_ok (junk : Z -> float) (w h : Z) :
  0 <= w -> 0 <= h -> w * h <= INT_MAX ->
  w < modulus -> h < modulus ->
  grid_ok (HeightField_new junk w h) /\
  fa_size (_array (HeightField_new junk w h)) = w * h.
Proof.
  intros Hw Hh Hm Hw' Hh'. rewrite INT_MAX_eq in Hm.
  assert (U : u32 (w * h) = w * h) by (apply u32_small; rewrite modulus_eq; nia).
  unfold grid_ok, HeightField_new. cbn [_array _cols _rows fa_size].
  rewrite U. rewrite modulus_eq in *. repeat split; try lia; nia.
Qed.

Lemma create_png_ok (W : World) (path : string) (im : Image) (bpp : Z)
      (minHeight maxHeight : float) :
  Image_create W path = Some im ->
  pixel_size (img_format im) = Some bpp -> image_ok im bpp ->
  exists hf,
    result (create_png W path minHeight (fsub maxHeight minHeight))
    = Done (Some hf) /\
    getColumnCount hf = img_width im /\ getRowCount hf = img_height im /\
    grid_ok hf /\
    forall x r, 0 <= x < img_width im -> 0 <= r < img_height im ->
      cell hf x r
      = pixel_height im bpp minHeight maxHeight x (img_height im - 1 - r).
Proof.
  intros EI EF OK. pose proof OK as (Hw & Hh & Hl & Hm).
  assert (Hb : bpp = 3 \/ bpp = 4).
  { destruct (img_format im); cbn in EF; inversion EF; auto. }
  pose proof INT_MAX_lt_modulus as IM.
  assert (WH : img_width im * img_height im <= INT_MAX)
    by (rewrite INT_MAX_eq in *; destruct Hb; subst bpp; nia).
  destruct (new_grid_ok (junk W) (img_width im) (img_height im))
    as [G S]; try lia.
  destruct (fill_ok
              (image_pixel minHeight (fsub maxHeight minHeight) (img_data im)
                           (img_width im) bpp)
              (fun y x => pixel_height im bpp minHeight maxHeight x y)
              (img_width im) (img_height im)
              (image_pixel_ok im bpp minHeight maxHeight OK Hb)
              ltac:(lia)
              (_array (HeightField_new (junk W) (img_width im) (img_height im))))
    as (a' & EFill & Sa & Ca); try lia; try (rewrite S; lia).
  exists {| _array := a'; _cols := img_width im; _rows := img_height im |}.
  split.
  - unfold create_png, call_Image_create.
    rewrite (result_bind _ _ (Some im)); [|rewrite EI; reflexivity].
    rewrite EF. unfold create_empty, getArray. rewrite EFill.
    reflexivity.
  - split; [reflexivity | split; [reflexivity | split]].
    + destruct G as (G1 & G2 & G3 & G4).
      unfold grid_ok. cbn [_array _cols _rows] in *. rewrite Sa, S.
      repeat split; lia.
    + intros x r Hx Hr. unfold cell. cbn [_array _cols]. apply Ca; lia.
Qed.

Lemma create_png_other (W : World) (path : string) (im : Image)
      (minHeight heightScale : float) :
  Image_create W path = Some im -> pixel_size (img_format im) = None ->
  result (create_png W path minHeight heightScale) = Done None.
Proof.
  intros EI EF. unfold create_png, call_Image_create.
  rewrite (result_bind _ _ (Some im)); [|rewrite EI; reflexivity].
  rewrite EF. reflexivity.
Qed.

(** ** The RAW branch *)

Lemma s32_is (z k : Z) :
  0 <= z < modulus -> 0 <= k <= INT_MAX -> (s32 z =? k) = (z =? k).
Proof.
  intros Hz Hk. rewrite modulus_eq, INT_MAX_eq in *.
  destruct (Z.lt_ge_cases z (2 ^ 31)) as [S | B].
  - rewrite s32_small; [reflexivity | rewrite INT_MAX_eq; lia].
  - unfold s32. rewrite modulus_eq.
    replace (z + 2 ^ 31) with (z - 2 ^ 31 + 1 * 4294967296) by lia.
    rewrite Z.mod_add by lia. rewrite Z.mod_small by lia.
    destruct (Z.eqb_spec (z - 2 ^ 31 - 2 ^ 31) k), (Z.eqb_spec z k); lia || reflexivity.
Qed.

Lemma create_raw_cases (W : World) (path : string) (width height : Z)
      (minHeight maxHeight : float) (data : bytes) :
  raw_call W path width height maxHeight data ->
  let q := Z.of_nat (List.length data) / (width * height) in
  let m := create_raw W path width height minHeight maxHeight
                      (fsub maxHeight minHeight) in
  (q = 1 \/ q = 2 ->
   exists hf,
     result m = Done (Some hf) /\
     getColumnCount hf = width /\ getRowCount hf = height /\ grid_ok hf /\
     forall x r, 0 <= x < width -> 0 <= r < height ->
       cell hf x r
       = (if q =? 2 then raw16_height else raw8_height)
           data width minHeight maxHeight x (height - 1 - r)) /\
  (q <> 1 -> q <> 2 -> result m = Done None).
Proof.
  intros (Hw & Hh & Hwh & ER & HL & HM) q m.
  pose proof INT_MAX_lt_modulus as IM.
  set (len := Z.of_nat (List.length data)) in *.
  assert (Hlen : 0 <= len) by (unfold len; lia).
  assert (Q0 : 0 <= q) by (apply Z.div_pos; nia).
  assert (Qlen : q * (width * height) <= len).
  { unfold q. rewrite Z.mul_comm. apply Z.mul_div_le. nia. }
  assert (Q8 : 0 <= q * 8 < modulus).
  { rewrite modulus_eq, INT_MAX_eq in *. nia. }
  assert (Em : m = bind (call_readAll W path) (fun d =>
             match d with
             | None => bind (GP_WARN WarnRawRead path) (fun _ => ret None)
             | Some data =>
                 let fileSize := s32 (Z.of_nat (List.length data)) in
                 let wh := u32 (width * height) in
                 bind (defined (if wh =? 0 then None else Some (u32 fileSize / wh)))
                   (fun q =>
                      let bits := s32 (u32 (q * 8)) in
                      if negb (bits =? 8) && negb (bits =? 16)
                      then bind (GP_WARN WarnRawBits path) (fun _ => ret None)
                      else
                        let heightfield := create_empty W width height in
                        bind (defined
                                (fill (if bits =? 16
                                       then raw16_sample minHeight (fsub maxHeight minHeight) data width
                                       else raw8_sample minHeight (fsub maxHeight minHeight) data width)
                                      width height (getArray heightfield)))
                             (fun heights =>
                                ret (Some {| _array := heights;
                                             _cols := _cols heightfield;
                                             _rows := _rows heightfield |})))
             end)).
  { unfold m, create_raw.
    replace (width <? 2) with false by (symmetry; apply Z.ltb_ge; lia).
    replace (height <? 2) with false by (symmetry; apply Z.ltb_ge; lia).
    rewrite HM. reflexivity. }
  assert (Er : result m
               = result (if negb (q * 8 =? 8) && negb (q * 8 =? 16)
                         then bind (GP_WARN WarnRawBits path) (fun _ => ret None)
                         else
                           bind (defined
                                   (fill (if q * 8 =? 16
                                          then raw16_sample minHeight (fsub maxHeight minHeight) data width
                                          else raw8_sample minHeight (fsub maxHeight minHeight) data width)
                                         width height (getArray (create_empty W width height))))
                                (fun heights =>
                                   ret (Some {| _array := heights;
                                                _cols := width; _rows := height |})))).
  { rewrite Em. unfold call_readAll.
    rewrite (result_bind _ _ (Some data)); [|rewrite ER; reflexivity].
    cbv zeta. fold len.
    rewrite (s32_small len) by (rewrite INT_MAX_eq in *; lia).
    rewrite (u32_small (width * height)) by nia.
    rewrite (u32_small len) by lia.
    replace (width * height =? 0) with false by (symmetry; apply Z.eqb_neq; nia).
    unfold defined at 1. rewrite bind_ret. fold q.
    rewrite (u32_small (q * 8)) by assumption.
    rewrite !s32_is by (rewrite ?INT_MAX_eq; lia || assumption).
    reflexivity. }
  split.
  - intros Hq.
    assert (WH : width * height <= INT_MAX) by (destruct Hq as [E | E]; rewrite E in Qlen; lia).
    destruct (new_grid_ok (junk W) width height) as [G S]; try lia; try nia.
    assert (K : exists a',
               fill (if q * 8 =? 16
                     then raw16_sample minHeight (fsub maxHeight minHeight) data width
                     else raw8_sample minHeight (fsub maxHeight minHeight) data width)
                    width height (getArray (create_empty W width height)) = Some a' /\
               fa_size a' = width * height /\
               forall x r, 0 <= x < width -> 0 <= r < height ->
                 fa_cell a' (x + r * width)
                 = (if q =? 2 then raw16_height else raw8_height)
                     data width minHeight maxHeight x (height - 1 - r)).
    { unfold create_empty, getArray. destruct Hq as [E | E]; rewrite E in *; cbn [Z.mul Z.eqb Pos.eqb Pos.mul].
      - destruct (fill_ok
                    (raw8_sample minHeight (fsub maxHeight minHeight) data width)
                    (fun y x => raw8_height data width minHeight maxHeight x y)
                    width height
                    (raw8_sample_ok data width height minHeight maxHeight
                       ltac:(lia) ltac:(lia) ltac:(fold len; lia) WH)
                    ltac:(nia)
                    (_array (HeightField_new (junk W) width height)))
          as (a' & EFill & Sa & Ca); try lia; try (rewrite S; lia); try nia.
        exists a'. split; [exact EFill|]. split; [lia|]. exact Ca.
      - destruct (fill_ok
                    (raw16_sample minHeight (fsub maxHeight minHeight) data width)
                    (fun y x => raw16_height data width minHeight maxHeight x y)
                    width height
                    (raw16_sample_ok data width height minHeight maxHeight
                       ltac:(lia) ltac:(lia) ltac:(fold len; lia) HL)
                    ltac:(nia)
                    (_array (HeightField_new (junk W) width height)))
          as (a' & EFill & Sa & Ca); try lia; try (rewrite S; lia); try nia.
        exists a'. split; [exact EFill|]. split; [lia|]. exact Ca. }
    destruct K as (a' & EFill & Sa & Ca).
    exists {| _array := a'; _cols := width; _rows := height |}.
    split; [|split; [reflexivity | split; [reflexivity | split]]].
    + rewrite Er.
      replace (negb (q * 8 =? 8) && negb (q * 8 =? 16)) with false
        by (destruct Hq as [E | E]; rewrite E; reflexivity).
      rewrite EFill. reflexivity.
    + destruct G as (G1 & G2 & G3 & G4).
      unfold grid_ok. cbn [_array _cols _rows] in *. rewrite Sa.
      repeat split; try lia; nia.
    + intros x r Hx Hr. unfold cell. cbn [_array _cols]. apply Ca; lia.
  - intros N1 N2. rewrite Er.
    replace (q * 8 =? 8) with false by (symmetry; apply Z.eqb_neq; lia).
    replace (q * 8 =? 16) with false by (symmetry; apply Z.eqb_neq; lia).
    reflexivity.
Qed.

(** ** The extension *)

Lemma nat_of_ascii_bound (c : ascii) : (nat_of_ascii c < 256)%nat.
Proof.
  destruct c as [[] [] [] [] [] [] [] []]; cbv; repeat constructor.
Qed.

Lemma toupper_is (c u : ascii) :
  is_upper u -> (Ascii.eqb (toupper c) u = true <-> either_case c u).
Proof.
  intros U. unfold is_upper in U. rewrite Ascii.eqb_eq. unfold toupper, either_case.
  pose proof (nat_of_ascii_bound c) as Bc.
  destruct (Nat.leb_spec 97 (nat_of_ascii c)) as [L | L];
    [destruct (Nat.leb_spec (nat_of_ascii c) 122) as [R | R]|]; cbn [andb].
  - split.
    + intros E. right. apply (f_equal nat_of_ascii) in E.
      rewrite nat_ascii_embedding in E by lia.
      rewrite <- (ascii_nat_embedding c). f_equal. lia.
    + intros [E | E].
      * subst c. lia.
      * apply (f_equal nat_of_ascii) in E.
        rewrite nat_ascii_embedding in E by lia.
        rewrite E. replace (nat_of_ascii u + 32 - 32)%nat with (nat_of_ascii u) by lia.
        apply ascii_nat_embedding.
  - split; [auto|]. intros [E | E]; [exact E|].
    apply (f_equal nat_of_ascii) in E.
    rewrite nat_ascii_embedding in E by lia. lia.
  - split; [auto|]. intros [E | E]; [exact E|].
    apply (f_equal nat_of_ascii) in E.
    rewrite nat_ascii_embedding in E by lia. lia.
Qed.

Lemma last4 (s : string) :
  (4 <= String.length s)%nat ->
  exists stem a b c d,
    s = (stem ++ String a (String b (String c (String d EmptyString))))%string /\
    substring (String.length s - 4) 4 s
    = String a (String b (String c (String d EmptyString))).
Proof.
  induction s as [|x s IH]; cbn [String.length]; intros H; [lia|].
  destruct (Nat.eq_dec (String.length s) 3) as [E3 | N3].
  - destruct s as [|b [|c [|d [|? ?]]]]; cbn in E3; try discriminate.
    exists EmptyString, x, b, c, d. split; reflexivity.
  - destruct IH as (stem & a & b & c & d & Es & Sub); [lia|].
    exists (String x stem), a, b, c, d. split.
    + cbn. f_equal. exact Es.
    + replace (S (String.length s) - 4)%nat with (S (String.length s - 4)) by lia.
      cbn [substring]. exact Sub.
Qed.

Lemma length_append (s t : string) :
  String.length (s ++ t) = (String.length s + String.length t)%nat.
Proof. induction s as [|x s IH]; cbn; [reflexivity | rewrite IH; reflexivity]. Qed.

Lemma append_inj_last4 (s1 s2 t1 t2 : string) :
  String.length t1 = String.length t2 ->
  (s1 ++ t1 = s2 ++ t2)%string -> s1 = s2 /\ t1 = t2.
Proof.
  revert s2. induction s1 as [|x s1 IH]; intros s2 L E.
  - destruct s2 as [|y s2]; [auto|].
    exfalso. apply (f_equal String.length) in E.
    cbn in E. rewrite length_append in E. lia.
  - destruct s2 as [|y s2].
    + exfalso. apply (f_equal String.length) in E.
      cbn in E. rewrite length_append in E. lia.
    + cbn in E. injection E as -> E. destruct (IH s2 L E) as [-> ->]. auto.
Qed.

(** The test of the code is the extension test of the specification. *)
Lemma ext_is_spec (path : string) (a b c : ascii) :
  (4 < String.length path)%nat -> is_upper a -> is_upper b -> is_upper c ->
  (ext_is path a b c = true <-> has_extension path a b c).
Proof.
  intros L Ua Ub Uc.
  destruct (last4 path) as (stem & e0 & e1 & e2 & e3 & Ep & Sub); [lia|].
  unfold ext_is, ext. rewrite Sub. cbn [list_ascii_of_string].
  rewrite !andb_true_iff, Ascii.eqb_eq.
  rewrite (toupper_is e1 a Ua), (toupper_is e2 b Ub), (toupper_is e3 c Uc).
  unfold has_extension. split.
  - intros [[[E0 H1] H2] H3]. subst e0. exists stem, e1, e2, e3. auto.
  - intros (stem' & c1 & c2 & c3 & Ep' & H1 & H2 & H3).
    rewrite Ep in Ep'. apply append_inj_last4 in Ep' as [_ E]; [|reflexivity].
    injection E as -> -> -> ->. auto.
Qed.

(* ================================================================== *)
(** * The claims *)

(** ** The example grids *)

Lemma ramp_grid_ok : grid_ok ramp_grid.
Proof. unfold grid_ok. cbn. lia. Qed.

Lemma of_int_finite (n : Z) : 0 <= n < 2 ^ 24 -> is_finite (of_int n) = true.
Proof.
  intros H. destruct (Z.eq_dec n 0) as [-> | N0]; [reflexivity|].
  destruct (of_int_exact n) as (m & e & E & _); [lia|]. rewrite E. reflexivity.
Qed.

Lemma ramp_grid_finite : cells_finite ramp_grid.
Proof.
  intros i. cbn [ramp_grid _array fa_cell].
  assert (0 <= i mod 16 < 2 ^ 24).
  { pose proof (Z.mod_pos_bound i 16 ltac:(lia)). change (2 ^ 24) with 16777216. lia. }
  split; [apply of_int_float32 | apply of_int_finite]; assumption.
Qed.

(* ================================================================== *)
(** ** C1 *)

(** C1, as stated, fails: the coordinate NaN passes both comparisons of the
    clamp unchanged, and its conversion to [unsigned int] is undefined, so
    a grid of one cell has no sample there. *)
Lemma getHeight_undefined_at_nan :
  ~ (forall h c r,
        grid_ok h -> 1 <= _cols h -> 1 <= _rows h ->
        is_float32 c = true -> is_float32 r = true ->
        exists v, getHeight h c r = Some v /\ Spec.getHeight h c r = Some v).
Proof.
  intros H.
  destruct (H unit_grid S754_nan f0) as (v & E & _);
    try reflexivity; try (cbn; lia).
  - unfold grid_ok. cbn. lia.
  - discriminate E.
Qed.

(** C1, amended: for every grid of at least one and at most 2^24 columns
    and rows and all coordinates that are binary32 numbers (not NaN),
    [getHeight] returns a value, and it is the value of the sampling rule
    of the specification: clamp, floor, fractional parts by subtraction,
    and the corner sample, the two linear interpolations or the bilinear
    blend according to the edge policy. *)
Theorem getHeight_refines_spec (h : HeightField) (c r : float) :
  grid_ok h -> 1 <= _cols h <= 2 ^ 24 -> 1 <= _rows h <= 2 ^ 24 ->
  is_float32 c = true -> is_float32 r = true ->
  is_nan c = false -> is_nan r = false ->
  exists v, getHeight h c r = Some v /\ Spec.getHeight h c r = Some v.
Proof.
  intros G Hc Hr Vc Vr Nc Nr.
  pose proof pow24_lt_modulus as P.
  destruct (getHeight_access_small h c r G Hc Hr Vc Vr Nc Nr)
    as (x1 & y1 & Cc & Cr & Tx & Ty & Bx & By & A).
  destruct (fsub_floor _ _ Cc) as (x1' & Tx' & Fx & Sx); [lia|].
  destruct (fsub_floor _ _ Cr) as (y1' & Ty' & Fy & Sy); [lia|].
  rewrite Tx in Tx'. injection Tx' as <-. rewrite Ty in Ty'. injection Ty' as <-.
  pose proof (access_at_in_bounds h x1 y1 G Bx By) as IB.
  unfold getHeight. rewrite A.
  unfold Spec.getHeight. rewrite !spec_clamp_eq by lia.
  rewrite Fx, Fy, Sx, Sy. unfold Spec.sample, Spec.lerp.
  replace (_cols h - 1 <? x1 + 1) with (_cols h <=? x1 + 1)
    by (destruct (Z.leb_spec (_cols h) (x1 + 1)), (Z.ltb_spec (_cols h - 1) (x1 + 1));
        reflexivity || lia).
  replace (_rows h - 1 <? y1 + 1) with (_rows h <=? y1 + 1)
    by (destruct (Z.leb_spec (_rows h) (y1 + 1)), (Z.ltb_spec (_rows h - 1) (y1 + 1));
        reflexivity || lia).
  unfold in_bounds, access_at in *.
  destruct (_cols h <=? x1 + 1), (_rows h <=? y1 + 1);
    cbn [andb access_indices] in *;
    repeat match goal with
           | H : Forall _ (_ :: _) |- _ => inversion H; subst; clear H
           end;
    repeat rewrite fa_load_in by assumption; cbn [obind]; eauto.
Qed.

Lemma getHeight_refines_spec_witness :
  exists v, getHeight ramp_grid half half = Some v /\
            Spec.getHeight ramp_grid half half = Some v.
Proof.
  apply (getHeight_refines_spec ramp_grid half half);
    [exact ramp_grid_ok | cbn; lia | cbn; lia | reflexivity ..].
Defined.

(* ================================================================== *)
(** ** C2 *)

(** C2, as stated, fails: next to a cell that holds +infinity the sample at
    a grid point is [1.0 * 1 + inf * 0], which is NaN and not the stored
    1.0. *)
Lemma getHeight_grid_point_nan :
  ~ (forall h x y,
        grid_ok h -> cells_ok h -> 1 <= _cols h -> 1 <= _rows h ->
        0 <= x <= _cols h - 1 -> 0 <= y <= _rows h - 1 ->
        getHeight h (of_int x) (of_int y) = Some (cell h x y)).
Proof.
  intros H.
  assert (E : getHeight inf_grid (of_int 0) (of_int 0) = Some (cell inf_grid 0 0)).
  { apply H; try (cbn; lia).
    - unfold grid_ok. cbn. lia.
    - intros i. cbn. destruct (i =? 0); reflexivity. }
  vm_compute in E. discriminate E.
Qed.

(** C2, amended: on a grid of at most 2^24 columns and rows, [getHeight] at
    the integral coordinates [(x, y)] of a cell returns the value stored in
    that cell (up to the sign of a zero, hence [==] to it) when every cell
    holds a finite value; and at the last cell of the last row it returns
    the stored sample itself, whatever the grid holds: on a 4 x 4 grid,
    [getHeight(3, 3)] is the raw corner sample. *)
Theorem getHeight_at_grid_point (h : HeightField) (x y : Z) :
  grid_ok h -> 1 <= _cols h <= 2 ^ 24 -> 1 <= _rows h <= 2 ^ 24 ->
  0 <= x <= _cols h - 1 -> 0 <= y <= _rows h - 1 ->
  (cells_finite h ->
   exists v, getHeight h (of_int x) (of_int y) = Some v /\
             same_value v (cell h x y) /\ feq v (cell h x y) = true) /\
  (x = _cols h - 1 -> y = _rows h - 1 ->
   getHeight h (of_int x) (of_int y) = Some (cell h x y)).
Proof.
  intros G Hc Hr Hx Hy. split.
  - intros Fin.
    destruct (getHeight_grid_point h x y G) as (v & E & S); try assumption; try lia.
    exists v. split; [exact E | split; [exact S|]].
    apply same_value_feq; [apply Fin | exact S].
  - intros -> ->. apply getHeight_last_corner; assumption.
Qed.

Lemma getHeight_at_grid_point_witness :
  getHeight ramp_grid (of_int 3) (of_int 3) = Some (of_int 15) /\
  exists v, getHeight ramp_grid (of_int 1) (of_int 2) = Some v /\
            same_value v (of_int 9) /\ feq v (of_int 9) = true.
Proof.
  split.
  - apply (getHeight_at_grid_point ramp_grid 3 3);
      [exact ramp_grid_ok | cbn; lia .. | reflexivity | reflexivity].
  - apply (getHeight_at_grid_point ramp_grid 1 2);
      [exact ramp_grid_ok | cbn; lia .. | exact ramp_grid_finite].
Defined.

(* ================================================================== *)
(** ** C3 *)

(** Where the clamp is exact every call returns a sample. *)
Lemma getHeight_defined (h : HeightField) (c r : float) :
  grid_ok h -> 1 <= _cols h <= 2 ^ 24 -> 1 <= _rows h <= 2 ^ 24 ->
  is_float32 c = true -> is_float32 r = true ->
  is_nan c = false -> is_nan r = false ->
  exists v, getHeight h c r = Some v.
Proof.
  intros G Hc Hr Vc Vr Nc Nr.
  destruct (getHeight_access_small h c r G Hc Hr Vc Vr Nc Nr)
    as (x1 & y1 & _ & _ & _ & _ & Bx & By & A).
  pose proof (access_at_in_bounds h x1 y1 G Bx By) as IB.
  unfold getHeight. rewrite A. unfold in_bounds, access_at in *.
  destruct (_cols h <=? x1 + 1), (_rows h <=? y1 + 1);
    cbn [andb access_indices] in *;
    repeat match goal with
           | H : Forall _ (_ :: _) |- _ => inversion H; subst; clear H
           end;
    repeat rewrite fa_load_in by assumption;
    eexists; reflexivity.
Qed.

(** C3, as stated, fails: on a grid of one cell, with the column -1 and the
    row NaN, the column is below 0 but no sample is returned: the NaN passes
    the clamp unchanged and its conversion to [unsigned int] is undefined. *)
Lemma getHeight_saturates_no_sample :
  ~ (forall h c r,
        grid_ok h -> 1 <= _cols h -> 1 <= _rows h ->
        is_float32 c = true -> is_float32 r = true ->
        flt c f0 = true ->
        exists v, getHeight h c r = Some v /\ getHeight h f0 r = Some v).
Proof.
  intros H.
  destruct (H unit_grid (of_int (-1)) S754_nan) as (v & E & _);
    try reflexivity; try (cbn; lia).
  - unfold grid_ok. cbn. lia.
  - vm_compute in E. discriminate E.
Qed.

(** C3, amended: a coordinate outside the grid saturates.  For every grid of
    at least one and at most 2^24 columns and rows and all coordinates that
    are binary32 numbers (not NaN), [getHeight(column, row)] returns a
    sample, and that sample is the one [getHeight(0, row)] returns when
    [column < 0], the one of [getHeight(column, 0)] when [row < 0], the one
    of [getHeight(columns-1, row)] when [column > columns-1] and the one of
    [getHeight(column, rows-1)] when [row > rows-1]; the comparisons and the
    conversions of [0], [columns-1] and [rows-1] to [float] are those of
    the code. *)
Theorem getHeight_saturates (h : HeightField) (c r : float) :
  grid_ok h -> 1 <= _cols h <= 2 ^ 24 -> 1 <= _rows h <= 2 ^ 24 ->
  is_float32 c = true -> is_float32 r = true ->
  is_nan c = false -> is_nan r = false ->
  exists v,
    getHeight h c r = Some v /\
    (flt c f0 = true -> getHeight h f0 r = Some v) /\
    (flt r f0 = true -> getHeight h c f0 = Some v) /\
    (fgt c (of_int (_cols h - 1)) = true ->
     getHeight h (of_int (_cols h - 1)) r = Some v) /\
    (fgt r (of_int (_rows h - 1)) = true ->
     getHeight h c (of_int (_rows h - 1)) = Some v).
Proof.
  intros G Hc Hr Vc Vr Nc Nr. pose proof pow24_lt_modulus as P.
  destruct (getHeight_defined h c r G Hc Hr Vc Vr Nc Nr) as [v E].
  exists v. split; [exact E|]. rewrite <- E.
  repeat split; intros H; symmetry; apply getHeight_clamp; try reflexivity.
  - apply clamp_below; exact H.
  - apply clamp_below; exact H.
  - apply clamp_above; [lia | exact H].
  - apply clamp_above; [lia | exact H].
Qed.

Lemma getHeight_saturates_witness :
  (exists v, getHeight ramp_grid (of_int (-1)) half = Some v /\
             getHeight ramp_grid f0 half = Some v) /\
  (exists v, getHeight ramp_grid half (of_int 7) = Some v /\
             getHeight ramp_grid half (of_int 3) = Some v).
Proof.
  split.
  - destruct (getHeight_saturates ramp_grid (of_int (-1)) half)
      as (v & E & L & _);
      [exact ramp_grid_ok | cbn; lia | cbn; lia | reflexivity ..|].
    exists v. split; [exact E | apply L; reflexivity].
  - destruct (getHeight_saturates ramp_grid half (of_int 7))
      as (v & E & _ & _ & _ & U);
      [exact ramp_grid_ok | cbn; lia | cbn; lia | reflexivity ..|].
    exists v. split; [exact E | apply U; reflexivity].
Defined.

(* ================================================================== *)
(** ** C10 *)

(** Where the clamp is exact the reads stay inside the buffer: for a grid
    of at most 2^24 columns and rows and coordinates that are numbers,
    every index of the branch taken is below [columns * rows]. *)
Lemma getHeight_in_bounds (h : HeightField) (c r : float) :
  grid_ok h -> 1 <= _cols h <= 2 ^ 24 -> 1 <= _rows h <= 2 ^ 24 ->
  is_float32 c = true -> is_float32 r = true ->
  is_nan c = false -> is_nan r = false ->
  exists a c' r', getHeight_access h c r = Some (a, c', r') /\ in_bounds h a.
Proof.
  intros G Hc Hr Vc Vr Nc Nr.
  destruct (getHeight_access_small h c r G Hc Hr Vc Vr Nc Nr)
    as (x1 & y1 & _ & _ & _ & _ & Bx & By & A).
  eexists _, _, _. split; [exact A|].
  apply access_at_in_bounds; assumption.
Qed.

(** C10 fails on the code.  On a grid of [16777220 = 2^24 + 4] columns and
    one row, [columns - 1 = 16777219] is not a [float]: it converts to
    [16777220.0f].  The column 1e9 is clamped to that value, [x1] is
    [16777220], and the branch for the last corner reads
    [_array[16777220]], one cell past the end of the buffer.  (A NaN
    coordinate escapes the clamp as well: its conversion to [unsigned int]
    is undefined.) *)
Theorem getHeight_reads_past_the_end :
  grid_ok wide_grid /\
  of_int (_cols wide_grid - 1) = of_int 16777220 /\
  getHeight_access wide_grid (of_int 1000000000) f0
  = Some (Corner 16777220, of_int 16777220, f0) /\
  fa_size (_array wide_grid) = 16777220 /\
  ~ in_bounds wide_grid (Corner 16777220) /\
  getHeight wide_grid (of_int 1000000000) f0 = None /\
  getHeight_access unit_grid S754_nan f0 = None.
Proof.
  split; [unfold grid_ok; cbn; lia|].
  split; [reflexivity|].
  split; [vm_compute; reflexivity|].
  split; [reflexivity|].
  split; [|split; vm_compute; reflexivity].
  unfold in_bounds. cbn. intros H. inversion H; subst. lia.
Qed.

Lemma long_path (path : string) :
  (4 < String.length path)%nat -> (Z.of_nat (String.length path) <=? 4) = false.
Proof. intros H. apply Z.leb_gt. lia. Qed.

Lemma raw_not_png (path : string) :
  ext_is path "R" "A" "W" = true -> ext_is path "P" "N" "G" = false.
Proof.
  unfold ext_is. destruct (ext path) as [|e0 [|e1 [|e2 [|e3 [|? ?]]]]]; try discriminate.
  intros H. apply andb_prop in H as [H _]. apply andb_prop in H as [H _].
  apply andb_prop in H as [_ H]. apply Ascii.eqb_eq in H. rewrite H.
  change (Ascii.eqb "R" "P") with false. rewrite andb_false_r. reflexivity.
Qed.

Lemma create_png_path (W : World) (path : string) (width height : Z)
      (minHeight maxHeight : float) :
  contract W minHeight maxHeight -> (4 < String.length path)%nat ->
  ext_is path "P" "N" "G" = true ->
  create W path width height minHeight maxHeight
  = create_png W path minHeight (fsub maxHeight minHeight).
Proof.
  intros C L E. rewrite create_unfold by assumption.
  rewrite long_path by assumption. rewrite E. reflexivity.
Qed.

Lemma create_raw_path (W : World) (path : string) (width height : Z)
      (minHeight maxHeight : float) :
  contract W minHeight maxHeight -> (4 < String.length path)%nat ->
  ext_is path "R" "A" "W" = true ->
  create W path width height minHeight maxHeight
  = create_raw W path width height minHeight maxHeight
               (fsub maxHeight minHeight).
Proof.
  intros C L E. rewrite create_unfold by assumption.
  rewrite long_path by assumption. rewrite (raw_not_png path E), E. reflexivity.
Qed.

(* ================================================================== *)
(** ** C4 *)

(** A pixel whose index is negative as an [int] is read before the start
    of the buffer. *)
Lemma image_pixel_negative_index (minHeight heightScale : float) (data : bytes)
      (w pixelSize y x : Z) (st : lstate) :
  s32 (u32 (u32 (u32 (u32 y * w) + x) * pixelSize)) < 0 ->
  image_pixel minHeight heightScale data w pixelSize y x st = None.
Proof.
  intros Neg. unfold image_pixel. cbv zeta.
  set (idx := s32 (u32 (u32 (u32 (u32 y * w) + x) * pixelSize))) in *.
  assert (Lo : - 2 ^ 31 <= idx).
  { unfold idx, s32.
    pose proof (Z.mod_pos_bound
                  (u32 (u32 (u32 (u32 y * w) + x) * pixelSize) + 2 ^ 31)
                  modulus ltac:(reflexivity)).
    lia. }
  rewrite !int_add_small by (rewrite INT_MAX_eq; lia). cbn [obind].
  unfold rd. replace (idx <? 0) with true by (symmetry; apply Z.ltb_lt; exact Neg).
  reflexivity.
Qed.

(** A nest whose first iteration is undefined is undefined. *)
Lemma fill_first_fails (body : Z -> Z -> lstate -> option lstate)
      (w h : Z) (a : farray) :
  0 < w -> 1 <= h <= INT_MAX -> body (h - 1) 0 (0, a) = None ->
  fill body w h a = None.
Proof.
  intros Hw Hh E. unfold fill. rewrite s32_u32_pred by lia.
  replace (h - 1 + 1) with (Z.succ (h - 1)) by lia.
  rewrite Z2Nat.inj_succ by lia. cbn [rows_loop].
  rewrite Z2Nat.id by lia.
  replace (Z.to_nat w) with (S (Z.to_nat (w - 1)))
    by (rewrite <- Z2Nat.inj_succ by lia; f_equal; lia).
  cbn [row_loop]. rewrite E. reflexivity.
Qed.

(** An RGBA image of 23171 columns and rows cannot be loaded: the index of
    the first pixel the loop visits, [(23170 * 23171 + 0) * 4], is above
    [INT_MAX] and is negative as the [int idx]; the read [data[idx]] lies
    before the buffer, whatever the buffer holds. *)
Lemma create_png_negative_index (W : World) (path : string) (im : Image)
      (minHeight heightScale : float) :
  Image_create W path = Some im -> img_format im = RGBA ->
  img_width im = 23171 -> img_height im = 23171 ->
  create_png W path minHeight heightScale = ([EvImageCreate path], Undefined).
Proof.
  intros EI EF Ew Eh.
  unfold create_png, call_Image_create, bind, emit, ret. rewrite EI, EF.
  cbn [pixel_size]. rewrite Ew, Eh.
  rewrite fill_first_fails; [reflexivity | lia | rewrite INT_MAX_eq; lia |].
  apply image_pixel_negative_index. reflexivity.
Qed.

(** C4 fails on the code.  For the RGBA image of 23171 x 23171 pixels
    (2 147 580 964 bytes of pixel data, the size its format and dimensions
    give) the index [(y*w + x) * pixelSize] of the first pixel visited,
    taken in [unsigned int] and stored in [int idx], is -2 147 479 016: the
    loop reads [data[idx]] before the start of the buffer, and the load has
    no defined result where the claim promises a grid. *)
Theorem image_load_reads_before_the_buffer :
  pixel_size (img_format large_image) = Some 4 /\
  Z.of_nat (List.length (img_data large_image))
  = img_width large_image * img_height large_image * 4 /\
  INT_MAX < img_width large_image * img_height large_image * 4 /\
  s32 (u32 (u32 (u32 (u32 (img_height large_image - 1) * img_width large_image)
                 + 0) * 4)) = -2147479016 /\
  create (image_world large_image) "hills.png" 0 0 f0 f1
  = ([EvImageCreate "hills.png"], Undefined).
Proof.
  split; [reflexivity|]. split.
  { unfold large_image. cbn [img_data img_width img_height].
    rewrite repeat_length, Z2Nat.id by lia. reflexivity. }
  split; [reflexivity|]. split; [reflexivity|].
  rewrite create_png_path; [| right; reflexivity | cbn; lia | reflexivity].
  apply (create_png_negative_index _ _ large_image); reflexivity.
Qed.

(* ================================================================== *)
(** ** C5 *)

(** C5: for channel bytes [r], [g], [b] in 0..255 the value of
    [normalizedHeightPacked(r, g, b)] is exactly
    [(256 r + g + b/256) / 65536]; it lies in [0, 1); it does not decrease
    when one channel increases; and it increases strictly with [r]
    whatever [g] and [b] become, and with [g] whatever [b] becomes. *)
Theorem normalizedHeightPacked_order (r g b : Z) :
  0 <= r <= 255 -> 0 <= g <= 255 -> 0 <= b <= 255 ->
  (F2Q (decode r g b)
   == (256 * inject_Z r + inject_Z g + inject_Z b / 256) / 65536)%Q /\
  (0 <= F2Q (decode r g b) < 1)%Q /\
  (forall r' g' b',
      0 <= r' <= 255 -> 0 <= g' <= 255 -> 0 <= b' <= 255 ->
      (r <= r' -> (F2Q (decode r g b) <= F2Q (decode r' g b))%Q) /\
      (g <= g' -> (F2Q (decode r g b) <= F2Q (decode r g' b))%Q) /\
      (b <= b' -> (F2Q (decode r g b) <= F2Q (decode r g b'))%Q) /\
      (r < r' -> (F2Q (decode r g b) < F2Q (decode r' g' b'))%Q) /\
      (g < g' -> (F2Q (decode r g b) < F2Q (decode r g' b'))%Q) /\
      (b < b' -> (F2Q (decode r g b) < F2Q (decode r g b'))%Q)).
Proof.
  intros Hr Hg Hb.
  pose proof (packed24_range r g b Hr Hg Hb) as HN.
  split; [|split].
  - rewrite decode_value by assumption. apply packed24_formula.
  - rewrite decode_value by assumption. split.
    + unfold Qle. cbn [Qnum Qden]. lia.
    + unfold Qlt. cbn [Qnum Qden]. change (Zpos (2 ^ 24)) with (2 ^ 24). lia.
  - intros r' g' b' Hr' Hg' Hb'.
    repeat split; intros H; rewrite !decode_value by assumption;
      (apply Qmake_le || apply Qmake_lt); unfold packed24; lia.
Qed.

Lemma normalizedHeightPacked_order_witness :
  (F2Q (decode 1 2 3) == (256 * 1 + 2 + 3 / 256) / 65536)%Q /\
  (0 <= F2Q (decode 1 2 3) < 1)%Q /\
  (F2Q (decode 1 2 3) < F2Q (decode 2 0 0))%Q.
Proof.
  destruct (normalizedHeightPacked_order 1 2 3) as (V & R & O); try lia.
  split; [exact V | split; [exact R|]].
  apply (O 2 0 0); lia.
Defined.

(* ================================================================== *)
(** ** C6 *)

(** C6: for a grayscale pixel [r = g = b = x], the packed height differs
    from the grayscale height [x / 255.0f] of the 8-bit path by at most
    [2^-8 + 2^-16] of the latter, and from the plain ratio [x / 256] by
    exactly [2^-8 + 2^-16] of it; and for a packed pixel the decoder returns
    the packed 24-bit height over [2^24] with no rounding. *)
Theorem normalizedHeightPacked_grayscale (x : Z) :
  0 <= x <= 255 ->
  (Qabs (F2Q (decode x x x) - F2Q (grayscale x))
   <= (1 / 2 ^ 8 + 1 / 2 ^ 16) * F2Q (grayscale x))%Q /\
  (F2Q (decode x x x) - inject_Z x / 256
   == (1 / 2 ^ 8 + 1 / 2 ^ 16) * (inject_Z x / 256))%Q /\
  (forall g b, 0 <= g <= 255 -> 0 <= b <= 255 ->
     (F2Q (decode x g b) * 2 ^ 24 == inject_Z (packed24 x g b))%Q).
Proof.
  intros H. split; [apply grayscale_error_bound; exact H | split].
  - rewrite decode_value, packed24_formula by assumption. field.
  - intros g b Hg Hb. rewrite decode_value by assumption.
    rewrite Qmake_Qdiv. change (inject_Z (Zpos (2 ^ 24))) with (2 ^ 24)%Q. field.
Qed.

Lemma normalizedHeightPacked_grayscale_witness :
  (Qabs (F2Q (decode 200 200 200) - F2Q (grayscale 200))
   <= (1 / 2 ^ 8 + 1 / 2 ^ 16) * F2Q (grayscale 200))%Q /\
  (F2Q (decode 200 1 2) * 2 ^ 24 == inject_Z (packed24 200 1 2))%Q.
Proof.
  destruct (normalizedHeightPacked_grayscale 200) as (E & _ & P); [lia|].
  split; [exact E | apply P; lia].
Defined.

(* ================================================================== *)
(** ** C7 *)

(** C7, as stated, fails: a 2 x 2 RAW load of a file of five bytes
    succeeds, as an 8-bit file, because [5 / 4] is 1 in integer division;
    five is neither [2*2*1] nor [2*2*2]. *)
Lemma raw_load_accepts_five_bytes :
  ~ (forall W path width height minHeight maxHeight data,
        contract W minHeight maxHeight -> (4 < String.length path)%nat ->
        ext_is path "R" "A" "W" = true ->
        raw_call W path width height maxHeight data ->
        loaded (create W path width height minHeight maxHeight) = true ->
        Z.of_nat (List.length data) = width * height * 1 \/
        Z.of_nat (List.length data) = width * height * 2).
Proof.
  intros H.
  destruct (H (raw_world (repeat x07 5)) "a.raw"%string 2 2 f0 f1 (repeat x07 5))
    as [E | E]; try (cbn in E; lia).
  - right. reflexivity.
  - cbn. lia.
  - reflexivity.
  - unfold raw_call. cbn. repeat split; try lia; reflexivity.
  - vm_compute. reflexivity.
Qed.

(** C7, amended: a RAW load with [width >= 2], [height >= 2], a product
    [width * height] below 2^32, a readable file whose size an [int] holds
    and a [maxHeight] that is not negative succeeds exactly when the
    integer quotient [fileSize / (width*height)] is 1 or 2, that is when
    [width*height <= fileSize < 3*width*height]; every other size, such as
    [width*height*3], gives the null pointer. *)
Theorem raw_load_by_quotient (W : World) (path : string) (width height : Z)
        (minHeight maxHeight : float) (data : bytes) :
  contract W minHeight maxHeight -> (4 < String.length path)%nat ->
  ext_is path "R" "A" "W" = true ->
  raw_call W path width height maxHeight data ->
  let size := Z.of_nat (List.length data) in
  let m := create W path width height minHeight maxHeight in
  (loaded m = true <-> width * height <= size < 3 * (width * height)) /\
  (no_result m = true <-> ~ width * height <= size < 3 * (width * height)) /\
  (width * height <= size < 3 * (width * height) <->
   size / (width * height) = 1 \/ size / (width * height) = 2) /\
  (size = width * height * 3 -> no_result m = true).
Proof.
  intros C L E RC size m. pose proof RC as (Hw & Hh & _).
  assert (P : 0 < width * height) by nia.
  assert (Q : width * height <= size < 3 * (width * height) <->
              size / (width * height) = 1 \/ size / (width * height) = 2).
  { split.
    - intros B. destruct (Z.lt_ge_cases size (2 * (width * height))).
      + left. symmetry. apply (Z.div_unique_pos size _ 1 (size - width * height)); lia.
      + right. symmetry. apply (Z.div_unique_pos size _ 2 (size - 2 * (width * height))); lia.
    - pose proof (Z.div_mod size (width * height) ltac:(lia)) as DM.
      pose proof (Z.mod_pos_bound size (width * height) P) as MB.
      intros [E1 | E2]; [rewrite E1 in DM | rewrite E2 in DM]; lia. }
  destruct (create_raw_cases W path width height minHeight maxHeight data RC)
    as [Yes No].
  fold size in Yes, No.
  assert (M : m = create_raw W path width height minHeight maxHeight
                             (fsub maxHeight minHeight))
    by (apply create_raw_path; assumption).
  assert (D : (size / (width * height) = 1 \/ size / (width * height) = 2) \/
              (size / (width * height) <> 1 /\ size / (width * height) <> 2)) by lia.
  assert (K : (loaded m = true <-> width * height <= size < 3 * (width * height)) /\
              (no_result m = true <-> ~ width * height <= size < 3 * (width * height))).
  { unfold loaded, no_result. rewrite M. destruct D as [D | [D1 D2]].
    - destruct (Yes D) as (hf & R & _). rewrite R.
      split; split; try discriminate; tauto.
    - rewrite (No D1 D2).
      split; split; try discriminate; tauto. }
  destruct K as [K1 K2]. repeat split; try tauto.
  intros S3. apply K2. nia.
Qed.

Lemma raw_load_by_quotient_witness :
  loaded (create (raw_world (repeat x07 5)) "a.raw" 2 2 f0 f1) = true /\
  no_result (create (raw_world (repeat x07 12)) "a.raw" 2 2 f0 f1) = true.
Proof.
  split.
  - apply (raw_load_by_quotient (raw_world (repeat x07 5)) "a.raw" 2 2 f0 f1
                                (repeat x07 5));
      [right; reflexivity | cbn; lia | reflexivity
      | unfold raw_call; cbn; repeat split; try lia; reflexivity
      | cbn; lia].
  - apply (raw_load_by_quotient (raw_world (repeat x07 12)) "a.raw" 2 2 f0 f1
                                (repeat x07 12));
      [right; reflexivity | cbn; lia | reflexivity
      | unfold raw_call; cbn; repeat split; try lia; reflexivity
      | reflexivity].
Defined.

(* ================================================================== *)
(** ** C8 *)





(* ================================================================== *)
(** ** C9 *)

(** C9: under the contract [maxHeight >= minHeight], a path of at most
    four characters gives the null pointer and no call of the image decoder
    or the file system.  A longer path is matched on its last four
    characters, a dot and three letters in either case: [.png] runs the
    image branch, which does not depend on [width] and [height]; [.raw]
    runs the RAW branch; every other ending gives the null pointer, again
    with no input attempted. *)
Theorem create_dispatch (W : World) (path : string) (width height : Z)
        (minHeight maxHeight : float) :
  contract W minHeight maxHeight ->
  let m := create W path width height minHeight maxHeight in
  ((String.length path <= 4)%nat -> result m = Done None /\ no_io m) /\
  ((4 < String.length path)%nat ->
   (has_extension path "P" "N" "G" ->
    m = create_png W path minHeight (fsub maxHeight minHeight) /\
    forall width' height',
      create W path width' height' minHeight maxHeight = m) /\
   (has_extension path "R" "A" "W" ->
    m = create_raw W path width height minHeight maxHeight
                   (fsub maxHeight minHeight)) /\
   (~ has_extension path "P" "N" "G" -> ~ has_extension path "R" "A" "W" ->
    result m = Done None /\ no_io m)).
Proof.
  intros C m. split.
  - intros L. unfold m. rewrite create_unfold by assumption.
    replace (Z.of_nat (String.length path) <=? 4) with true
      by (symmetry; apply Z.leb_le; lia).
    split; reflexivity.
  - intros L.
    assert (UP : is_upper "P" /\ is_upper "N" /\ is_upper "G" /\
                 is_upper "R" /\ is_upper "A" /\ is_upper "W")
      by (unfold is_upper; cbn; lia).
    destruct UP as (UP & UN & UG & UR & UA & UW).
    pose proof (ext_is_spec path "P" "N" "G" L UP UN UG) as SP.
    pose proof (ext_is_spec path "R" "A" "W" L UR UA UW) as SR.
    split; [|split].
    + intros HP. apply SP in HP. split.
      * apply create_png_path; assumption.
      * intros w' h'. unfold m. rewrite !create_png_path by assumption. reflexivity.
    + intros HR. apply SR in HR. apply create_raw_path; assumption.
    + intros NP NR. unfold m. rewrite create_unfold by assumption.
      rewrite long_path by assumption.
      destruct (ext_is path "P" "N" "G"); [exfalso; apply NP, SP; reflexivity|].
      destruct (ext_is path "R" "A" "W"); [exfalso; apply NR, SR; reflexivity|].
      split; reflexivity.
Qed.

Lemma create_dispatch_witness :
  (result (create (raw_world []) "a.pn" 4 4 f0 f1) = Done None /\
   no_io (create (raw_world []) "a.pn" 4 4 f0 f1)) /\
  create (image_world rgba_2x2) "hills.PnG" 7 9 f0 f1
  = create_png (image_world rgba_2x2) "hills.PnG" f0 (fsub f1 f0).
Proof.
  split.
  - destruct (create_dispatch (raw_world []) "a.pn" 4 4 f0 f1) as [Short _];
      [right; reflexivity|].
    apply Short. cbn. lia.
  - destruct (create_dispatch (image_world rgba_2x2) "hills.PnG" 7 9 f0 f1)
      as [_ Long]; [right; reflexivity|].
    destruct Long as (Png & _ & _); [cbn; lia|].
    apply Png.
    exists "hills"%string, "P"%char, "n"%char, "G"%char.
    split; [reflexivity|]. unfold either_case. cbn. auto.
Defined.

(* ================================================================== *)
(** * Further properties of the code *)

(* ================================================================== *)
(** ** X1: the constructor *)

(** X1: [HeightField::create(columns, rows)] returns a grid with the given
    dimensions whose buffer has [columns * rows] cells exactly when that
    product is below 2^32; when the product wraps, the buffer is shorter
    than [columns * rows]. *)
Theorem HeightField_new_invariant (junk : Z -> float) (columns rows : Z) :
  0 <= columns < modulus -> 0 <= rows < modulus ->
  let h := HeightField_new junk columns rows in
  getColumnCount h = columns /\ getRowCount h = rows /\
  (grid_ok h <-> columns * rows < modulus) /\
  (modulus <= columns * rows -> fa_size (getArray h) < columns * rows).
Proof.
  intros Hc Hr h. split; [reflexivity | split; [reflexivity | split]].
  - unfold grid_ok, h, HeightField_new. cbn [_array _cols _rows fa_size]. split.
    + intros (_ & _ & _ & L). exact L.
    + intros L. repeat split; try lia. apply u32_small. nia.
  - intros L. unfold h, HeightField_new, getArray. cbn [_array fa_size].
    pose proof (u32_range (columns * rows)). lia.
Qed.

Lemma HeightField_new_invariant_witness :
  grid_ok (HeightField_new (fun _ => f0) 640 480) /\
  fa_size (getArray (HeightField_new (fun _ => f0) 65536 65537)) < 65536 * 65537.
Proof.
  split.
  - apply (HeightField_new_invariant (fun _ => f0) 640 480); cbn; lia.
  - apply (HeightField_new_invariant (fun _ => f0) 65536 65537); cbn; lia.
Defined.

(* ================================================================== *)
(** ** X2: reads inside the buffer *)

Lemma SFcompare_antisym (a b : float) :
  SFcompare b a
  = match SFcompare a b with Some c => Some (CompOpp c) | None => None end.
Proof.
  destruct a as [s|s| |s m e], b as [s'|s'| |s' m' e'];
    try destruct s; try destruct s'; try reflexivity; unfold SFcompare.
  - rewrite (Z.compare_antisym e e').
    destruct (e ?= e'); cbn [CompOpp]; try reflexivity.
    change (Pos.compare_cont Eq m' m) with (Pos.compare_cont (CompOpp Eq) m' m).
    rewrite <- (Pos.compare_cont_antisym m m' Eq).
    destruct (Pos.compare_cont Eq m m'); reflexivity.
  - rewrite (Z.compare_antisym e e').
    destruct (e ?= e'); cbn [CompOpp]; try reflexivity.
    change (Pos.compare_cont Eq m' m) with (Pos.compare_cont (CompOpp Eq) m' m).
    rewrite <- (Pos.compare_cont_antisym m m' Eq).
    destruct (Pos.compare_cont Eq m m'); reflexivity.
Qed.

Lemma SFcompare_numbers (a b : float) :
  is_nan a = false -> is_nan b = false -> SFcompare a b <> None.
Proof.
  destruct a as [s|s| |s m e], b as [s'|s'| |s' m' e'];
    try discriminate; try destruct s; try destruct s'; discriminate.
Qed.

(** For numbers, [a < b] false means [b <= a]. *)
Lemma not_lt_ge (a b : float) :
  is_nan a = false -> is_nan b = false -> flt a b = false -> fge a b = true.
Proof.
  intros Na Nb. unfold flt, fge, SFltb, SFleb.
  pose proof (SFcompare_numbers a b Na Nb) as NN.
  rewrite (SFcompare_antisym a b).
  destruct (SFcompare a b) as [[| |]|]; try reflexivity; try discriminate.
  contradiction.
Qed.

(** The clamped coordinate is at least 0 and at most [n - 1]. *)
Lemma clamp_between (c : float) (n : Z) :
  is_nan c = false -> 1 <= n <= 2 ^ 24 ->
  fge (clamp c n) f0 = true /\ fge (of_int (n - 1)) (clamp c n) = true.
Proof.
  intros Nc Hn. pose proof pow24_lt_modulus as P.
  destruct (of_int_float32 (n - 1)) as [_ NL]; [lia|].
  assert (Z0 : fge (of_int (n - 1)) f0 = true).
  { apply not_lt_ge; [exact NL | reflexivity |].
    apply of_int_not_neg. lia. }
  unfold clamp. rewrite u32_small by lia. change (of_int 0) with f0.
  destruct (flt c f0) eqn:E0; [split; [reflexivity | exact Z0]|].
  destruct (fgt c (of_int (n - 1))) eqn:E1.
  - split; [exact Z0|]. apply not_lt_ge; try assumption. apply flt_irrefl.
  - split; apply not_lt_ge; try assumption; reflexivity.
Qed.

(** X2: on a grid of at most 2^24 columns and rows, for coordinates that
    are numbers (infinities included), the clamped coordinates are at least
    0 and at most the last column and the last row, and every cell
    [getHeight] reads lies inside the buffer: the indices are at least 0
    and below its size. *)
Theorem getHeight_indices_in_range (h : HeightField) (c r : float) :
  grid_ok h -> 1 <= _cols h <= 2 ^ 24 -> 1 <= _rows h <= 2 ^ 24 ->
  is_float32 c = true -> is_float32 r = true ->
  is_nan c = false -> is_nan r = false ->
  exists a c' r',
    getHeight_access h c r = Some (a, c', r') /\
    fge c' f0 = true /\ fge (of_int (_cols h - 1)) c' = true /\
    fge r' f0 = true /\ fge (of_int (_rows h - 1)) r' = true /\
    Forall (fun i => 0 <= i < fa_size (getArray h)) (access_indices a).
Proof.
  intros G Hc Hr Vc Vr Nc Nr.
  destruct (getHeight_access_small h c r G Hc Hr Vc Vr Nc Nr)
    as (x1 & y1 & _ & _ & _ & _ & Bx & By & A).
  destruct (clamp_between c (_cols h) Nc Hc) as [C0 C1].
  destruct (clamp_between r (_rows h) Nr Hr) as [R0 R1].
  eexists _, _, _. split; [exact A|].
  split; [exact C0|]. split; [exact C1|]. split; [exact R0|]. split; [exact R1|].
  pose proof (access_at_in_bounds h x1 y1 G Bx By) as IB.
  destruct G as (_ & _ & Gs & _). unfold getArray. rewrite Gs. exact IB.
Qed.

Lemma getHeight_indices_in_range_witness :
  exists a c' r',
    getHeight_access ramp_grid half (S754_infinity false) = Some (a, c', r') /\
    fge c' f0 = true /\ fge (of_int 3) c' = true /\
    fge r' f0 = true /\ fge (of_int 3) r' = true /\
    Forall (fun i => 0 <= i < 16) (access_indices a).
Proof.
  apply (getHeight_indices_in_range ramp_grid half (S754_infinity false));
    [exact ramp_grid_ok | cbn; lia | cbn; lia | reflexivity ..].
Defined.

(* ================================================================== *)
(** ** X3: grids of one row or one column *)

Lemma coord_in_zero (v : float) :
  coord_in v 0 -> ftrunc v = Some 0.
Proof.
  intros [[s ->] | (m & e & -> & B & L)]; [reflexivity|].
  cbn [ftrunc cond_Zopp]. f_equal.
  assert (0 <= Z.shiftl (Zpos m) e) by (apply Z.shiftl_nonneg; lia). lia.
Qed.

(** X3: on a grid of a single row the row coordinate does not matter, on a
    grid of a single column the column coordinate does not matter, and on
    a grid of one cell every sample is that cell: the branches taken never
    read a second row or column. *)
Theorem getHeight_degenerate (h : HeightField) (c r c' r' : float) :
  grid_ok h -> 1 <= _cols h <= 2 ^ 24 -> 1 <= _rows h <= 2 ^ 24 ->
  is_float32 c = true -> is_float32 r = true ->
  is_float32 c' = true -> is_float32 r' = true ->
  is_nan c = false -> is_nan r = false ->
  is_nan c' = false -> is_nan r' = false ->
  (_rows h = 1 -> getHeight h c r = getHeight h c r') /\
  (_cols h = 1 -> getHeight h c r = getHeight h c' r) /\
  (_cols h = 1 -> _rows h = 1 -> getHeight h c r = Some (cell h 0 0)).
Proof.
  intros G Hc Hr Vc Vr Vc' Vr' Nc Nr Nc' Nr'.
  destruct (getHeight_access_small h c r G Hc Hr Vc Vr Nc Nr)
    as (x1 & y1 & Cc & Cr & Tx & Ty & Bx & By & A).
  split; [|split].
  - intros R1.
    destruct (getHeight_access_small h c r' G Hc Hr Vc Vr' Nc Nr')
      as (x2 & y2 & _ & _ & Tx2 & _ & _ & By2 & A2).
    rewrite Tx in Tx2. injection Tx2 as <-.
    assert (y1 = 0) by lia. assert (y2 = 0) by lia. subst y1 y2.
    unfold getHeight. rewrite A, A2. unfold access_at. rewrite R1.
    change (1 <=? 0 + 1) with true. rewrite andb_true_r.
    destruct (_cols h <=? x1 + 1); reflexivity.
  - intros C1.
    destruct (getHeight_access_small h c' r G Hc Hr Vc' Vr Nc' Nr)
      as (x2 & y2 & _ & _ & _ & Ty2 & Bx2 & _ & A2).
    rewrite Ty in Ty2. injection Ty2 as <-.
    assert (x1 = 0) by lia. assert (x2 = 0) by lia. subst x1 x2.
    unfold getHeight. rewrite A, A2. unfold access_at. rewrite C1.
    change (1 <=? 0 + 1) with true. cbn [andb].
    destruct (_rows h <=? y1 + 1); reflexivity.
  - intros C1 R1.
    assert (x1 = 0) by lia. assert (y1 = 0) by lia. subst x1 y1.
    unfold getHeight. rewrite A. unfold access_at, cell. rewrite C1, R1.
    cbn [Z.add Z.mul Z.leb Z.compare Pos.compare Pos.compare_cont andb].
    apply fa_load_in; [assumption | lia].
Qed.

Lemma getHeight_degenerate_witness :
  getHeight unit_grid half (of_int 7) = Some (cell unit_grid 0 0).
Proof.
  apply (getHeight_degenerate unit_grid half (of_int 7) f0 f0);
    try reflexivity; try (cbn; lia).
  unfold grid_ok. cbn. lia.
Defined.

(* ================================================================== *)
(** ** X4: the decoder loses nothing *)

Lemma fl24_float32 (N : Z) :
  0 <= N < 2 ^ 24 ->
  is_float32 (fl N (-24)) = true /\ is_finite (fl N (-24)) = true.
Proof.
  intros H. destruct N as [|N|N]; try lia; [split; reflexivity|].
  destruct (fl_exact N (-24)) as (m & e & -> & B & _); [lia | lia |].
  split; [exact B | reflexivity].
Qed.

Lemma decode_float32 (r g b : Z) :
  0 <= r <= 255 -> 0 <= g <= 255 -> 0 <= b <= 255 ->
  is_float32 (decode r g b) = true /\ is_finite (decode r g b) = true.
Proof.
  intros Hr Hg Hb. rewrite decode_exact by assumption.
  apply fl24_float32. apply packed24_range; assumption.
Qed.

(** X4: for channel bytes the result of [normalizedHeightPacked] is a
    finite binary32 value, and distinct triples of bytes give distinct
    results: the 24 bits of a packed pixel survive the decoding. *)
Theorem normalizedHeightPacked_injective (r g b r' g' b' : Z) :
  0 <= r <= 255 -> 0 <= g <= 255 -> 0 <= b <= 255 ->
  0 <= r' <= 255 -> 0 <= g' <= 255 -> 0 <= b' <= 255 ->
  is_float32 (decode r g b) = true /\ is_finite (decode r g b) = true /\
  (decode r g b = decode r' g' b' -> r = r' /\ g = g' /\ b = b').
Proof.
  intros Hr Hg Hb Hr' Hg' Hb'.
  destruct (decode_float32 r g b Hr Hg Hb) as [V F].
  split; [exact V | split; [exact F|]].
  intros E.
  pose proof (decode_value r g b Hr Hg Hb) as Q1.
  pose proof (decode_value r' g' b' Hr' Hg' Hb') as Q2.
  rewrite E in Q1. rewrite Q2 in Q1.
  unfold Qeq in Q1. cbn [Qnum Qden] in Q1. unfold packed24 in Q1. lia.
Qed.

Lemma normalizedHeightPacked_injective_witness :
  is_finite (decode 18 52 86) = true /\ decode 18 52 86 <> decode 18 52 87.
Proof.
  destruct (normalizedHeightPacked_injective 18 52 86 18 52 87)
    as (_ & F & I); try lia.
  split; [exact F|]. intros E. apply I in E. lia.
Defined.

(* ================================================================== *)
(** ** X5, X6: what a load calls and what it logs *)

(** The trace of the image branch and of the RAW branch, whatever the
    collaborators return and however the loops end. *)
Lemma create_png_trace (W : World) (path : string) (minHeight heightScale : float) :
  trace (create_png W path minHeight heightScale)
  = EvImageCreate path ::
    match Image_create W path with
    | Some im => match pixel_size (img_format im) with
                 | None => [EvWarn WarnPixelFormat path]
                 | Some _ => []
                 end
    | None => []
    end.
Proof.
  unfold create_png, call_Image_create, bind, emit, ret, GP_WARN, emit, defined, trace.
  destruct (Image_create W path) as [im|]; [|reflexivity].
  destruct (pixel_size (img_format im)) as [bpp|]; [|reflexivity].
  destruct (fill _ _ _ _) as [a|]; reflexivity.
Qed.

Lemma create_raw_trace (W : World) (path : string) (width height : Z)
      (minHeight maxHeight heightScale : float) :
  trace (create_raw W path width height minHeight maxHeight heightScale)
  = if (width <? 2) || (height <? 2) || flt maxHeight (of_int 0)
    then [EvWarn WarnRawParameters path]
    else EvReadAll path ::
         match FileSystem_readAll W path with
         | None => [EvWarn WarnRawRead path]
         | Some data =>
             if u32 (width * height) =? 0 then []
             else if loaded (create_raw W path width height minHeight
                                        maxHeight heightScale)
                  then []
                  else if no_result (create_raw W path width height minHeight
                                                maxHeight heightScale)
                       then [EvWarn WarnRawBits path] else []
         end.
Proof.
  unfold loaded, no_result, result, trace.
  unfold create_raw, call_readAll, bind, emit, ret, GP_WARN, emit, defined.
  destruct ((width <? 2) || (height <? 2) || flt maxHeight (of_int 0)); [reflexivity|].
  destruct (FileSystem_readAll W path) as [data|]; [|reflexivity].
  destruct (u32 (width * height) =? 0); [reflexivity|].
  cbv beta iota zeta delta [ret].
  match goal with |- context [negb ?a && negb ?b] => destruct (negb a && negb b) end;
    [reflexivity|].
  match goal with |- context [fill ?f ?w ?h ?a] => destruct (fill f w h a) end;
    reflexivity.
Qed.

Lemma create_trace_cases (W : World) (path : string) (width height : Z)
      (minHeight maxHeight : float) :
  contract W minHeight maxHeight ->
  let m := create W path width height minHeight maxHeight in
  (Z.of_nat (String.length path) <= 4 /\ trace m = [EvWarn WarnExtension path] /\
   result m = Done None) \/
  (4 < Z.of_nat (String.length path) /\ ext_is path "P" "N" "G" = true /\
   m = create_png W path minHeight (fsub maxHeight minHeight)) \/
  (4 < Z.of_nat (String.length path) /\ ext_is path "R" "A" "W" = true /\
   m = create_raw W path width height minHeight maxHeight
                  (fsub maxHeight minHeight)) \/
  (4 < Z.of_nat (String.length path) /\ ext_is path "P" "N" "G" = false /\
   ext_is path "R" "A" "W" = false /\
   trace m = [EvWarn WarnImageFormat path] /\ result m = Done None).
Proof.
  intros C m. unfold m. rewrite create_unfold by assumption.
  destruct (Z.leb_spec (Z.of_nat (String.length path)) 4) as [S | L].
  { left. split; [lia|]. split; reflexivity. }
  destruct (ext_is path "P" "N" "G") eqn:EP.
  { right; left. repeat split; try assumption; lia. }
  destruct (ext_is path "R" "A" "W") eqn:ER.
  { right; right; left. repeat split; try assumption; lia. }
  right; right; right. repeat split; try assumption; lia.
Qed.

(** X5: a load calls at most one collaborator, once: the image decoder
    only for a path that ends in [.png], and the file system only for a
    path that ends in [.raw] with [width >= 2], [height >= 2] and a
    [maxHeight] that is not negative; the path passed on is the path of the
    load. *)
Theorem create_calls (W : World) (path : string) (width height : Z)
        (minHeight maxHeight : float) :
  contract W minHeight maxHeight ->
  let m := create W path width height minHeight maxHeight in
  (List.length (io_events m) <= 1)%nat /\
  (forall p, In (EvImageCreate p) (trace m) ->
             p = path /\ ext_is path "P" "N" "G" = true) /\
  (forall p, In (EvReadAll p) (trace m) ->
             p = path /\ ext_is path "R" "A" "W" = true /\
             2 <= width /\ 2 <= height /\ flt maxHeight (of_int 0) = false).
Proof.
  intros C m.
  destruct (create_trace_cases W path width height minHeight maxHeight C)
    as [(_ & T & _) | [(_ & E & M) | [(_ & E & M) | (_ & _ & _ & T & _)]]];
    fold m in T || fold m in M.
  - unfold io_events. rewrite T. cbn.
    split; [lia|]. split; intros p [H | []]; discriminate H.
  - unfold io_events. rewrite M, create_png_trace.
    destruct (Image_create W path) as [im|];
      [destruct (pixel_size (img_format im))|]; cbn;
      (split; [lia|]); split; intros p HI;
      repeat (destruct HI as [HI | HI]; try discriminate HI; try contradiction);
      injection HI as <-; auto.
  - unfold io_events. rewrite M, create_raw_trace.
    destruct (Z.ltb_spec width 2), (Z.ltb_spec height 2),
             (flt maxHeight (of_int 0)) eqn:EM; cbn [orb];
      try (cbn; (split; [lia|]); split; intros p HI;
           repeat (destruct HI as [HI | HI]; try discriminate HI; try contradiction)).
    destruct (FileSystem_readAll W path) as [data|];
      [destruct (u32 (width * height) =? 0);
       [|destruct (loaded _); [|destruct (no_result _)]]|]; cbn;
      (split; [lia|]); split; intros p HI;
      repeat (destruct HI as [HI | HI]; try discriminate HI; try contradiction);
      injection HI as <-; repeat split; auto; lia.
  - unfold io_events. rewrite T. cbn.
    split; [lia|]. split; intros p [H | []]; discriminate H.
Qed.

Lemma create_calls_witness :
  (List.length (io_events (create (raw_world raw_2x3) "a.raw" 2 3 f0 f1)) <= 1)%nat /\
  ~ In (EvReadAll "a.raw") (trace (create (raw_world raw_2x3) "a.raw" 1 3 f0 f1)).
Proof.
  split.
  - apply (create_calls (raw_world raw_2x3) "a.raw" 2 3 f0 f1). right; reflexivity.
  - intros H.
    apply (create_calls (raw_world raw_2x3) "a.raw" 1 3 f0 f1) in H;
      [lia | right; reflexivity].
Defined.

(** X6: a load that returns a grid logs no warning, and a load that returns
    the null pointer logs exactly one, except when the image decoder itself
    returned the null pointer: that failure is passed on silently. *)
Theorem create_warnings (W : World) (path : string) (width height : Z)
        (minHeight maxHeight : float) :
  contract W minHeight maxHeight ->
  let m := create W path width height minHeight maxHeight in
  (loaded m = true -> warnings m = []) /\
  (no_result m = true ->
   (exists w, warnings m = [EvWarn w path]) \/
   (warnings m = [] /\ ext_is path "P" "N" "G" = true /\
    Image_create W path = None)).
Proof.
  intros C m.
  destruct (create_trace_cases W path width height minHeight maxHeight C)
    as [(_ & T & R) | [(_ & E & M) | [(_ & E & M) | (_ & _ & _ & T & R)]]];
    fold m in T || fold m in M; try fold m in R.
  - unfold loaded, no_result, warnings. rewrite T, R. split; [discriminate|].
    intros _. left. eexists. reflexivity.
  - pose proof (create_png_trace W path minHeight (fsub maxHeight minHeight)) as T.
    rewrite <- M in T. unfold warnings. rewrite T.
    unfold loaded, no_result. rewrite M.
    unfold create_png, call_Image_create, bind, emit, ret, GP_WARN, emit, defined, result.
    destruct (Image_create W path) as [im|]; cbn.
    + destruct (pixel_size (img_format im)) as [bpp|]; cbn.
      * match goal with |- context [fill ?f ?w ?h ?a] => destruct (fill f w h a) end;
          cbn; split; try discriminate; reflexivity.
      * split; [discriminate|]. intros _. left. eexists. reflexivity.
    + split; [discriminate|]. intros _. right. auto.
  - pose proof (create_raw_trace W path width height minHeight maxHeight
                                 (fsub maxHeight minHeight)) as T.
    rewrite <- M in T. unfold warnings. rewrite T.
    destruct ((width <? 2) || (height <? 2) || flt maxHeight (of_int 0)) eqn:EB.
    + assert (R : result m = Done None).
      { rewrite M. unfold create_raw. rewrite EB. reflexivity. }
      unfold loaded, no_result. rewrite R. cbn. split; [discriminate|].
      intros _. left. eexists. reflexivity.
    + destruct (FileSystem_readAll W path) as [data|] eqn:ER.
      * destruct (u32 (width * height) =? 0) eqn:EZ.
        { assert (R : result m = Undefined).
          { rewrite M. unfold create_raw. rewrite EB.
            unfold call_readAll, bind, emit, ret, defined, result.
            rewrite ER, EZ. reflexivity. }
          unfold loaded, no_result. rewrite R. split; discriminate. }
        destruct (loaded m) eqn:EL.
        { split; [reflexivity|]. unfold loaded, no_result in *.
          destruct (result m) as [[hf|]| |]; discriminate. }
        split; [discriminate|]. intros N. rewrite N. left. eexists. reflexivity.
      * assert (R : result m = Done None).
        { rewrite M. unfold create_raw. rewrite EB.
          unfold call_readAll, bind, emit, ret, defined, result, GP_WARN, emit.
          rewrite ER. reflexivity. }
        unfold loaded, no_result. rewrite R. cbn. split; [discriminate|].
        intros _. left. eexists. reflexivity.
  - unfold loaded, no_result, warnings. rewrite T, R. split; [discriminate|].
    intros _. left. eexists. reflexivity.
Qed.

Lemma create_warnings_witness :
  warnings (create (raw_world raw_2x3) "a.raw" 2 3 f0 f1) = [] /\
  ((exists w, warnings (create (raw_world raw_2x3) "a.png" 2 3 f0 f1)
              = [EvWarn w "a.png"]) \/
   (warnings (create (raw_world raw_2x3) "a.png" 2 3 f0 f1) = [] /\
    ext_is "a.png" "P" "N" "G" = true /\
    Image_create (raw_world raw_2x3) "a.png" = None)).
Proof.
  split.
  - apply (create_warnings (raw_world raw_2x3) "a.raw" 2 3 f0 f1);
      [right; reflexivity | vm_compute; reflexivity].
  - apply (create_warnings (raw_world raw_2x3) "a.png" 2 3 f0 f1);
      [right; reflexivity | vm_compute; reflexivity].
Defined.

(* ================================================================== *)
(** ** X7 to X10: RAW loads at the edges of the parameter range *)

(** The result of the RAW branch once the parameters are accepted and the
    file is read. *)
Lemma create_raw_result (W : World) (path : string) (width height : Z)
      (minHeight maxHeight heightScale : float) (data : bytes) :
  (width <? 2) || (height <? 2) || flt maxHeight (of_int 0) = false ->
  FileSystem_readAll W path = Some data ->
  result (create_raw W path width height minHeight maxHeight heightScale)
  = if u32 (width * height) =? 0 then Undefined
    else
      let bits :=
        s32 (u32 (u32 (s32 (Z.of_nat (List.length data)))
                  / u32 (width * height) * 8)) in
      if negb (bits =? 8) && negb (bits =? 16) then Done None
      else match fill (if bits =? 16
                       then raw16_sample minHeight heightScale data width
                       else raw8_sample minHeight heightScale data width)
                      width height (getArray (create_empty W width height)) with
           | Some heights =>
               Done (Some {| _array := heights; _cols := width; _rows := height |})
           | None => Undefined
           end.
Proof.
  intros EB ER. unfold result, create_raw. rewrite EB.
  unfold call_readAll, bind, emit, ret, GP_WARN, emit, defined. rewrite ER.
  destruct (u32 (width * height) =? 0); [reflexivity|].
  cbv beta iota zeta delta [ret].
  match goal with |- context [negb ?a && negb ?b] => destruct (negb a && negb b) end;
    [reflexivity|].
  match goal with |- context [fill ?f ?w ?h ?a] => destruct (fill f w h a) end;
    reflexivity.
Qed.

Lemma accepted_parameters (width height : Z) (maxHeight : float) :
  2 <= width -> 2 <= height -> flt maxHeight (of_int 0) = false ->
  (width <? 2) || (height <? 2) || flt maxHeight (of_int 0) = false.
Proof.
  intros Hw Hh ->.
  replace (width <? 2) with false by (symmetry; apply Z.ltb_ge; lia).
  replace (height <? 2) with false by (symmetry; apply Z.ltb_ge; lia).
  reflexivity.
Qed.

Lemma bits_of_quotient (size wh : Z) :
  0 <= size <= INT_MAX -> 0 < wh ->
  size / wh = 1 \/ size / wh = 2 ->
  let bits := s32 (u32 (u32 (s32 size) / wh * 8)) in
  negb (bits =? 8) && negb (bits =? 16) = false /\
  (bits =? 16) = (size / wh =? 2).
Proof.
  intros Hs Hw Q. cbv zeta. rewrite INT_MAX_eq in Hs.
  rewrite (s32_small size) by (rewrite INT_MAX_eq; lia).
  rewrite (u32_small size) by (rewrite modulus_eq; lia).
  destruct Q as [-> | ->]; split; reflexivity.
Qed.

(** *** What a successful run of the loops says about the buffer *)

Lemma put_inv (minHeight heightScale : float) (i : Z) (a : farray) (v : float)
      (st' : lstate) :
  put (i, a) v = Some st' ->
  0 <= i < fa_size a /\ fst st' = i + 1 /\ fa_size (snd st') = fa_size a.
Proof.
  unfold put, fa_store.
  destruct (Z.leb_spec 0 i), (Z.ltb_spec i (fa_size a)); cbn [andb obind];
    try discriminate.
  destruct (int_add i 1) as [i'|] eqn:E; cbn [obind]; [|discriminate].
  intros [= <-]. cbn [fst snd fa_size]. repeat split; try lia.
  unfold int_add in E. cbv zeta in E.
  destruct ((- 2 ^ 31 <=? i + 1) && (i + 1 <=? INT_MAX)); congruence.
Qed.

Section LoopBounds.

Variable body : Z -> Z -> lstate -> option lstate.

Hypothesis body_inv : forall y x i a st',
  body y x (i, a) = Some st' ->
  0 <= i < fa_size a /\ fst st' = i + 1 /\ fa_size (snd st') = fa_size a.

Lemma row_loop_inv (n : nat) : forall y x i a st',
  0 <= i <= fa_size a ->
  row_loop body n y x (i, a) = Some st' ->
  fst st' = i + Z.of_nat n /\ fa_size (snd st') = fa_size a /\
  fst st' <= fa_size a.
Proof.
  induction n as [|n IH]; intros y x i a st' Hi E.
  - cbn [row_loop] in E. injection E as <-. cbn [fst snd]. lia.
  - cbn [row_loop] in E.
    destruct (body y x (i, a)) as [[i1 a1]|] eqn:EB; cbn [obind] in E;
      [|discriminate].
    destruct (body_inv _ _ _ _ _ EB) as (B1 & B2 & B3). cbn [fst snd] in *.
    destruct (IH _ _ i1 a1 st' ltac:(lia) E) as (R1 & R2 & R3).
    rewrite Nat2Z.inj_succ. lia.
Qed.

Lemma rows_loop_inv (k : nat) (w : Z) : forall i a st',
  0 <= w -> 0 <= i <= fa_size a ->
  rows_loop body k w (i, a) = Some st' ->
  fst st' = i + Z.of_nat k * w /\ fa_size (snd st') = fa_size a /\
  fst st' <= fa_size a.
Proof.
  induction k as [|k IH]; intros i a st' Hw Hi E.
  - cbn [rows_loop] in E. injection E as <-. cbn [fst snd]. lia.
  - cbn [rows_loop] in E.
    destruct (row_loop body (Z.to_nat w) (Z.of_nat k) 0 (i, a))
      as [[i1 a1]|] eqn:ER; cbn [obind] in E; [|discriminate].
    destruct (row_loop_inv _ _ _ _ _ _ Hi ER) as (B1 & B2 & B3).
    cbn [fst snd] in *. rewrite Z2Nat.id in B1 by lia.
    destruct (IH i1 a1 st' Hw ltac:(lia) E) as (R1 & R2 & R3).
    rewrite Nat2Z.inj_succ. nia.
Qed.

(** A nest that runs to its end wrote [height * width] cells, and the
    buffer holds at least as many. *)
Lemma fill_inv (w h : Z) (a a' : farray) :
  0 <= w -> 1 <= h <= INT_MAX -> 0 <= fa_size a ->
  fill body w h a = Some a' -> h * w <= fa_size a.
Proof.
  intros Hw Hh Hs E. unfold fill in E. rewrite s32_u32_pred in E by lia.
  destruct (rows_loop body (Z.to_nat (h - 1 + 1)) w (0, a)) as [st'|] eqn:ER;
    [|discriminate].
  destruct (rows_loop_inv _ w 0 a st' Hw ltac:(lia) ER) as (R1 & R2 & R3).
  rewrite Z2Nat.id in R1 by lia. lia.
Qed.

End LoopBounds.

Lemma raw8_sample_inv (minHeight heightScale : float) (data : bytes) (width : Z) :
  forall y x i a st',
    raw8_sample minHeight heightScale data width y x (i, a) = Some st' ->
    0 <= i < fa_size a /\ fst st' = i + 1 /\ fa_size (snd st') = fa_size a.
Proof.
  intros y x i a st'. unfold raw8_sample.
  destruct (rd data _) as [v|]; cbn [obind]; [|discriminate].
  apply put_inv; assumption.
Qed.

Lemma raw16_sample_inv (minHeight heightScale : float) (data : bytes) (width : Z) :
  forall y x i a st',
    raw16_sample minHeight heightScale data width y x (i, a) = Some st' ->
    0 <= i < fa_size a /\ fst st' = i + 1 /\ fa_size (snd st') = fa_size a.
Proof.
  intros y x i a st'. unfold raw16_sample. cbv zeta.
  destruct (int_add _ 1) as [i1|]; cbn [obind]; [|discriminate].
  destruct (rd data _) as [lo|]; cbn [obind]; [|discriminate].
  destruct (rd data i1) as [hi|]; cbn [obind]; [|discriminate].
  apply put_inv; assumption.
Qed.

(** X7: [createFromImage] passes the dimensions 0 x 0 on, so for a path
    that ends in [.raw] it returns the null pointer with the warning about
    the RAW parameters, and does not read the file. *)
Theorem createFromImage_raw_path (W : World) (path : string)
        (minHeight maxHeight : float) :
  contract W minHeight maxHeight -> (4 < String.length path)%nat ->
  ext_is path "R" "A" "W" = true ->
  createFromImage W path minHeight maxHeight
  = ([EvWarn WarnRawParameters path], Done None).
Proof.
  intros C L E. unfold createFromImage.
  rewrite create_raw_path by assumption. reflexivity.
Qed.

Lemma createFromImage_raw_path_witness :
  createFromImage (raw_world raw_2x3) "dunes.raw" f0 f1
  = ([EvWarn WarnRawParameters "dunes.raw"], Done None).
Proof.
  apply (createFromImage_raw_path (raw_world raw_2x3) "dunes.raw" f0 f1);
    [right; reflexivity | cbn; lia | reflexivity].
Defined.

(** X8: when [width * height] is a multiple of 2^32 the product the RAW
    branch divides by is zero in [unsigned int]: after reading the file the
    load divides by zero, whatever the file holds. *)
Theorem raw_load_divides_by_zero (W : World) (path : string) (width height : Z)
        (minHeight maxHeight : float) (data : bytes) :
  contract W minHeight maxHeight -> (4 < String.length path)%nat ->
  ext_is path "R" "A" "W" = true ->
  2 <= width -> 2 <= height -> flt maxHeight (of_int 0) = false ->
  FileSystem_readAll W path = Some data ->
  u32 (width * height) = 0 ->
  create W path width height minHeight maxHeight
  = ([EvReadAll path], Undefined).
Proof.
  intros C L E Hw Hh Hm ER Z0.
  rewrite create_raw_path by assumption.
  unfold create_raw. rewrite (accepted_parameters _ _ _ Hw Hh Hm).
  unfold call_readAll, bind, emit, ret, defined. rewrite ER, Z0. reflexivity.
Qed.

Lemma raw_load_divides_by_zero_witness :
  create (raw_world raw_2x3) "dunes.raw" 65536 65536 f0 f1
  = ([EvReadAll "dunes.raw"], Undefined).
Proof.
  apply (raw_load_divides_by_zero (raw_world raw_2x3) "dunes.raw" 65536 65536
                                  f0 f1 raw_2x3);
    [right; reflexivity | cbn; lia | reflexivity | lia | lia | reflexivity
    | reflexivity | reflexivity].
Defined.

(** X9: when [width * height] does not fit 32 bits (and [height] fits an
    [int]) a RAW load never returns a grid: the buffer is allocated with the
    wrapped product, and the loops, which run [width * height] times, write
    past its end; the load is undefined as soon as the size of the file
    passes the test of the sample width. *)
Theorem raw_load_overflows_wrapped_buffer (W : World) (path : string)
        (width height : Z) (minHeight maxHeight : float) (data : bytes) :
  contract W minHeight maxHeight -> (4 < String.length path)%nat ->
  ext_is path "R" "A" "W" = true ->
  2 <= width < modulus -> 2 <= height <= INT_MAX ->
  flt maxHeight (of_int 0) = false ->
  FileSystem_readAll W path = Some data ->
  Z.of_nat (List.length data) <= INT_MAX ->
  modulus <= width * height ->
  let m := create W path width height minHeight maxHeight in
  let q := Z.of_nat (List.length data) / u32 (width * height) in
  loaded m = false /\
  (u32 (width * height) <> 0 -> q = 1 \/ q = 2 -> result m = Undefined).
Proof.
  intros C L E Hw Hh Hm ER Hs Wrap m q.
  assert (R := create_raw_result W path width height minHeight maxHeight
                 (fsub maxHeight minHeight) data
                 (accepted_parameters width height maxHeight ltac:(lia) ltac:(lia) Hm) ER).
  rewrite <- (create_raw_path W path width height minHeight maxHeight C L E) in R.
  fold m in R. cbv zeta in R.
  pose proof (u32_range (width * height)) as U.
  assert (F : forall body,
             (forall y x i a st', body y x (i, a) = Some st' ->
                0 <= i < fa_size a /\ fst st' = i + 1 /\
                fa_size (snd st') = fa_size a) ->
             fill body width height (getArray (create_empty W width height)) = None).
  { intros body BI.
    destruct (fill body width height _) as [a'|] eqn:EF; [|reflexivity].
    apply (fill_inv body BI) in EF; try lia.
    - unfold create_empty, HeightField_new, getArray in EF.
      cbn [_array fa_size] in EF. lia.
    - unfold create_empty, HeightField_new, getArray. cbn [_array fa_size]. lia. }
  assert (F8 := F _ (raw8_sample_inv minHeight (fsub maxHeight minHeight) data width)).
  assert (F16 := F _ (raw16_sample_inv minHeight (fsub maxHeight minHeight) data width)).
  split.
  - unfold loaded. rewrite R.
    destruct (u32 (width * height) =? 0); [reflexivity|].
    destruct (negb _ && negb _); [reflexivity|].
    destruct (_ =? 16); [rewrite F16 | rewrite F8]; reflexivity.
  - intros NZ Q. rewrite R.
    replace (u32 (width * height) =? 0) with false
      by (symmetry; apply Z.eqb_neq; exact NZ).
    destruct (bits_of_quotient (Z.of_nat (List.length data)) (u32 (width * height)))
      as [B1 B2]; [lia | lia | exact Q |].
    rewrite B1.
    destruct (_ =? 16); [rewrite F16 | rewrite F8]; reflexivity.
Qed.

Lemma raw_load_overflows_wrapped_buffer_witness :
  loaded (create (raw_world [x01; x02]) "dunes.raw" 2147483649 2 f0 f1) = false /\
  result (create (raw_world [x01; x02]) "dunes.raw" 2147483649 2 f0 f1)
  = Undefined.
Proof.
  destruct (raw_load_overflows_wrapped_buffer
              (raw_world [x01; x02]) "dunes.raw" 2147483649 2 f0 f1 [x01; x02])
    as [NL U];
    [right; reflexivity | cbn; lia | reflexivity | cbn; lia | cbn; lia
    | reflexivity | reflexivity | cbn; lia | cbn; lia |].
  split; [exact NL|]. apply U; [cbn; lia | left; reflexivity].
Defined.

(** X10: when [height - 1] is above [INT_MAX] the row counter [int y =
    height - 1] starts negative (two's complement), no row is visited, and a file
    whose size passes the test of the sample width yields a grid of which
    no cell was written: the buffer is the one the constructor allocated,
    and it holds fewer than [width * height] cells. *)
Theorem raw_load_skips_tall_grid (W : World) (path : string)
        (width height : Z) (minHeight maxHeight : float) (data : bytes) :
  contract W minHeight maxHeight -> (4 < String.length path)%nat ->
  ext_is path "R" "A" "W" = true ->
  2 <= width < modulus -> INT_MAX < height - 1 < modulus - 1 ->
  flt maxHeight (of_int 0) = false ->
  FileSystem_readAll W path = Some data ->
  Z.of_nat (List.length data) <= INT_MAX ->
  u32 (width * height) <> 0 ->
  (let q := Z.of_nat (List.length data) / u32 (width * height) in q = 1 \/ q = 2) ->
  create W path width height minHeight maxHeight
  = ([EvReadAll path], Done (Some (HeightField_new (junk W) width height))) /\
  fa_size (getArray (HeightField_new (junk W) width height)) < width * height.
Proof.
  intros C L E Hw Hh Hm ER Hs NZ Q. cbv zeta in Q.
  pose proof (u32_range (width * height)) as U.
  assert (H2 : 2 <= height) by (rewrite INT_MAX_eq in Hh; lia).
  assert (T := create_raw_trace W path width height minHeight maxHeight
                 (fsub maxHeight minHeight)).
  assert (R := create_raw_result W path width height minHeight maxHeight
                 (fsub maxHeight minHeight) data
                 (accepted_parameters width height maxHeight ltac:(lia) ltac:(lia) Hm) ER).
  rewrite (accepted_parameters width height maxHeight ltac:(lia) ltac:(lia) Hm), ER in T.
  rewrite <- (create_raw_path W path width height minHeight maxHeight C L E) in R, T.
  cbv zeta in R.
  replace (u32 (width * height) =? 0) with false in R, T
    by (symmetry; apply Z.eqb_neq; exact NZ).
  destruct (bits_of_quotient (Z.of_nat (List.length data)) (u32 (width * height)))
    as [B1 B2]; [lia | lia | exact Q |].
  rewrite B1 in R.
  assert (F : forall body,
             fill body width height (getArray (create_empty W width height))
             = Some (getArray (create_empty W width height))).
  { intros body. unfold fill.
    assert (Y : s32 (u32 (height - 1)) + 1 <= 0).
    { rewrite INT_MAX_eq, modulus_eq in *.
      rewrite u32_small by (rewrite modulus_eq; lia).
      unfold s32. rewrite modulus_eq.
      replace (height - 1 + 2 ^ 31) with (height - 1 - 2 ^ 31 + 1 * 4294967296) by lia.
      rewrite Z.mod_add by lia. rewrite Z.mod_small by lia. lia. }
    destruct (s32 (u32 (height - 1)) + 1) as [|p|p]; try lia; reflexivity. }
  split.
  - assert (R' : result (create W path width height minHeight maxHeight)
                 = Done (Some (HeightField_new (junk W) width height))).
    { rewrite R. destruct (_ =? 16); rewrite F; reflexivity. }
    assert (T' : trace (create W path width height minHeight maxHeight)
                 = [EvReadAll path]).
    { rewrite T. unfold loaded. rewrite R'. reflexivity. }
    destruct (create W path width height minHeight maxHeight) as [t r].
    cbn [trace result fst snd] in *. congruence.
  - unfold HeightField_new, getArray. cbn [_array fa_size].
    rewrite INT_MAX_eq, modulus_eq in *. nia.
Qed.

Lemma raw_load_skips_tall_grid_witness :
  create (raw_world [x01; x02]) "dunes.raw" 2 2147483649 f0 f1
  = ([EvReadAll "dunes.raw"],
     Done (Some (HeightField_new (fun _ => S754_nan) 2 2147483649))) /\
  fa_size (getArray (HeightField_new (fun _ => S754_nan) 2 2147483649))
  < 2 * 2147483649.
Proof.
  apply (raw_load_skips_tall_grid (raw_world [x01; x02]) "dunes.raw"
                                  2 2147483649 f0 f1 [x01; x02]);
    [right; reflexivity | cbn; lia | reflexivity | cbn; lia | cbn; lia
    | reflexivity | reflexivity | cbn; lia | cbn; lia | left; reflexivity].
Defined.

(* ================================================================== *)
(** ** X11, X12: what the RAW loops store *)

Lemma byte_val_range (b : byte) : 0 <= byte_val b <= 255.
Proof. destruct b; cbn; lia. Qed.

Lemma byte_at_range (d : bytes) (i : Z) : 0 <= byte_at d i <= 255.
Proof. apply byte_val_range. Qed.

(** Two bytes joined with [|] and [<< 8] are the low one plus 256 times the
    high one. *)
Lemma lor_shift_bytes (lo hi : Z) :
  0 <= lo <= 255 -> 0 <= hi <= 255 ->
  Z.lor lo (Z.shiftl hi 8) = lo + 256 * hi.
Proof.
  intros Hl Hh. apply Z.eqb_eq.
  apply (bytes_all (fun lo => Z.lor lo (Z.shiftl hi 8) =? lo + 256 * hi));
    [|exact Hl].
  apply (bytes_all (fun hi =>
           forallb (fun lo => Z.lor lo (Z.shiftl hi 8) =? lo + 256 * hi)
                   (map Z.of_nat (seq 0 256))));
    [vm_compute; reflexivity | exact Hh].
Qed.






(* ================================================================== *)
(** ** X13 to X15: loading, then sampling *)

Lemma nonneg_finite_one (c : float) :
  nonneg_finite c = true -> fmul c f1 = c.
Proof.
  intros H. apply fmul_one_r; destruct c as [[|]|[|]| |[|] m e];
    try discriminate; try reflexivity; exact H.
Qed.

Lemma nonneg_finite_zero (c : float) :
  nonneg_finite c = true -> fmul c (S754_zero false) = S754_zero false.
Proof. destruct c as [[|]|[|]| |[|] m e]; try discriminate; reflexivity. Qed.

Lemma nonneg_finite_add_zero (c : float) :
  nonneg_finite c = true -> fadd c (S754_zero false) = c.
Proof. destruct c as [[|]|[|]| |[|] m e]; try discriminate; reflexivity. Qed.

(** At a grid point of a grid of finite heights that are not negative the
    sample is the stored cell; only the cells inside the buffer matter. *)
Lemma getHeight_grid_point_nonneg (h : HeightField) (x y : Z) :
  grid_ok h -> _cols h <= 2 ^ 24 -> _rows h <= 2 ^ 24 ->
  (forall i, 0 <= i < _cols h * _rows h ->
             nonneg_finite (fa_cell (_array h) i) = true) ->
  0 <= x <= _cols h - 1 -> 0 <= y <= _rows h - 1 ->
  getHeight h (of_int x) (of_int y) = Some (cell h x y).
Proof.
  intros G Hc Hr Fin Hx Hy.
  destruct (of_int_float32 x) as [Vx Nx]; [lia|].
  destruct (of_int_float32 y) as [Vy Ny]; [lia|].
  destruct (getHeight_access_small h (of_int x) (of_int y) G)
    as (x1 & y1 & _ & _ & Tx & Ty & Bx & By & A); try assumption; try lia.
  rewrite clamp_of_int in Tx, A by lia. rewrite clamp_of_int in Ty, A by lia.
  rewrite ftrunc_of_int in Tx, Ty by lia.
  injection Tx as <-. injection Ty as <-.
  pose proof (access_at_in_bounds h x y G Hx Hy) as IB.
  unfold getHeight. rewrite A. rewrite !modf_of_int by lia.
  change (fsub f1 (S754_zero false)) with f1.
  change (fmul f1 f1) with f1.
  change (fmul f1 (S754_zero false)) with (S754_zero false).
  change (fmul (S754_zero false) f1) with (S754_zero false).
  change (fmul (S754_zero false) (S754_zero false)) with (S754_zero false).
  unfold in_bounds, access_at, cell in *.
  destruct (_cols h <=? x + 1), (_rows h <=? y + 1);
    cbn [andb access_indices] in *;
    repeat match goal with
           | H : Forall _ (_ :: _) |- _ => inversion H; subst; clear H
           end;
    repeat rewrite fa_load_in by assumption;
    repeat rewrite (nonneg_finite_one (fa_cell _ _)) by (apply Fin; assumption);
    repeat rewrite (nonneg_finite_zero (fa_cell _ _)) by (apply Fin; assumption);
    repeat rewrite (nonneg_finite_add_zero (fa_cell _ _)) by (apply Fin; assumption);
    reflexivity.
Qed.

Lemma decode_nonneg_finite (r g b : Z) :
  0 <= r <= 255 -> 0 <= g <= 255 -> 0 <= b <= 255 ->
  nonneg_finite (decode r g b) = true.
Proof.
  intros Hr Hg Hb. rewrite decode_exact by assumption.
  pose proof (packed24_range r g b Hr Hg Hb) as HN.
  destruct (packed24 r g b) as [|N|N]; try lia; [reflexivity|].
  destruct (fl_exact N (-24)) as (m & e & -> & B & _); [lia | lia |].
  exact B.
Qed.

(** Over the range 0 to 1 the height of a pixel is its decoded value. *)
Lemma unit_range_height (d : float) :
  nonneg_finite d = true -> fadd f0 (fmul d (fsub f1 f0)) = d.
Proof.
  intros H. change (fsub f1 f0) with f1. rewrite nonneg_finite_one by exact H.
  destruct d as [[|]|[|]| |[|] m e]; try discriminate; reflexivity.
Qed.

Lemma pixel_byte_range (im : Image) (bpp x y c : Z) :
  0 <= pixel_byte im bpp x y c <= 255.
Proof. apply byte_val_range. Qed.

(** X13: for an image of at most 2^24 columns and rows whose pixel data
    ([width * height * bytes per pixel]) holds at most [INT_MAX] bytes, a
    [.png] load with [minHeight = 0] and [maxHeight = 1] stores the decoded
    value of each pixel without any rounding, and [getHeight] at the
    integral coordinates [(x, r)] returns exactly that value: the 24 bits
    of the pixel of column [x] in image row [height - 1 - r]. *)
Theorem image_load_then_sample (W : World) (path : string) (im : Image)
        (bpp : Z) :
  (4 < String.length path)%nat -> ext_is path "P" "N" "G" = true ->
  Image_create W path = Some im ->
  pixel_size (img_format im) = Some bpp -> image_ok im bpp ->
  img_width im <= 2 ^ 24 -> img_height im <= 2 ^ 24 ->
  exists hf,
    result (createFromImage W path f0 f1) = Done (Some hf) /\
    forall x r, 0 <= x < img_width im -> 0 <= r < img_height im ->
      let y := img_height im - 1 - r in
      let d := decode (pixel_byte im bpp x y 0) (pixel_byte im bpp x y 1)
                      (pixel_byte im bpp x y 2) in
      cell hf x r = d /\
      getHeight hf (of_int x) (of_int r) = Some d /\
      F2Q d == packed24 (pixel_byte im bpp x y 0) (pixel_byte im bpp x y 1)
                        (pixel_byte im bpp x y 2) # 16777216.
Proof.
  intros L E EI EF OK Hw Hh.
  assert (C : contract W f0 f1) by (right; reflexivity).
  destruct (create_png_ok W path im bpp f0 f1 EI EF OK)
    as (hf & R & Hc & Hr & G & Cells).
  unfold getColumnCount, getRowCount in Hc, Hr.
  exists hf. unfold createFromImage. rewrite create_png_path by assumption.
  split; [exact R|].
  assert (Cell : forall x r, 0 <= x < img_width im -> 0 <= r < img_height im ->
            cell hf x r
            = decode (pixel_byte im bpp x (img_height im - 1 - r) 0)
                     (pixel_byte im bpp x (img_height im - 1 - r) 1)
                     (pixel_byte im bpp x (img_height im - 1 - r) 2)).
  { intros x r Hx Hr'. rewrite (Cells x r Hx Hr'). unfold pixel_height.
    apply unit_range_height. apply decode_nonneg_finite; apply pixel_byte_range. }
  assert (Fin : forall i, 0 <= i < _cols hf * _rows hf ->
                          nonneg_finite (fa_cell (_array hf) i) = true).
  { intros i Hi. rewrite Hc, Hr in Hi.
    assert (P : 0 < img_width im).
    { destruct OK as ((P0 & _) & _).
      destruct (Z.eq_dec (img_width im) 0) as [Z0 | NZ];
        [rewrite Z0 in Hi; lia | lia]. }
    pose proof (Z.mod_pos_bound i (img_width im) P) as MB.
    pose proof (Z.div_mod i (img_width im) ltac:(lia)) as DM.
    assert (DB : 0 <= i / img_width im < img_height im).
    { split; [apply Z.div_pos; lia | apply Z.div_lt_upper_bound; nia]. }
    pose proof (Cell (i mod img_width im) (i / img_width im) MB DB) as CE.
    unfold cell in CE. rewrite Hc in CE.
    replace (i mod img_width im + i / img_width im * img_width im) with i in CE
      by lia.
    rewrite CE. apply decode_nonneg_finite; apply pixel_byte_range. }
  intros x r Hx Hr'. split; [apply Cell; assumption|]. split.
  - rewrite <- (Cell x r Hx Hr').
    apply getHeight_grid_point_nonneg; try assumption; lia.
  - apply decode_value; apply pixel_byte_range.
Qed.

Lemma image_load_then_sample_witness :
  exists hf,
    result (createFromImage (image_world rgba_2x2) "hills.png" f0 f1)
    = Done (Some hf) /\
    getHeight hf (of_int 0) (of_int 1) = Some (decode 1 2 3) /\
    getHeight hf (of_int 1) (of_int 1) = Some (decode 4 5 6).
Proof.
  destruct (image_load_then_sample (image_world rgba_2x2) "hills.png" rgba_2x2 4)
    as (hf & R & S);
    [cbn; lia | reflexivity | reflexivity | reflexivity
    | unfold image_ok; cbn; lia | cbn; lia | cbn; lia |].
  exists hf. split; [exact R|]. split.
  - destruct (S 0 1) as (_ & H & _); [cbn; lia | cbn; lia | exact H].
  - destruct (S 1 1) as (_ & H & _); [cbn; lia | cbn; lia | exact H].
Defined.

(** X14: after a RAW load of at most 2^24 columns and rows, [getHeight] at
    the last column and the last row returns the height of the last sample
    of the first row of the file, with no blending, for 8-bit and for
    16-bit files and whatever [minHeight] and [maxHeight] are. *)
Theorem raw_load_then_sample (W : World) (path : string) (width height : Z)
        (minHeight maxHeight : float) (data : bytes) :
  contract W minHeight maxHeight -> (4 < String.length path)%nat ->
  ext_is path "R" "A" "W" = true ->
  raw_call W path width height maxHeight data ->
  width <= 2 ^ 24 -> height <= 2 ^ 24 ->
  let size := Z.of_nat (List.length data) in
  width * height <= size < 3 * (width * height) ->
  exists hf,
    result (create W path width height minHeight maxHeight) = Done (Some hf) /\
    getHeight hf (of_int (width - 1)) (of_int (height - 1))
    = Some (fadd minHeight
              (fmul (if size <? 2 * (width * height)
                     then fdiv (of_int (byte_at data (width - 1))) f255
                     else fdiv (of_int (sample16 data (width - 1))) f65535)
                    (fsub maxHeight minHeight))).
Proof.
  intros C L E RC Hw Hh size S. pose proof RC as (Hw2 & Hh2 & _).
  destruct (create_raw_cases W path width height minHeight maxHeight data RC)
    as [Yes _].
  fold size in Yes.
  assert (Q : size / (width * height) = (if size <? 2 * (width * height) then 1 else 2)).
  { destruct (Z.ltb_spec size (2 * (width * height))); symmetry.
    - apply (Z.div_unique_pos _ _ 1 (size - width * height)); lia.
    - apply (Z.div_unique_pos _ _ 2 (size - 2 * (width * height))); lia. }
  destruct Yes as (hf & R & Hc & Hr & G & Cells).
  { rewrite Q. destruct (size <? 2 * (width * height)); auto. }
  unfold getColumnCount, getRowCount in Hc, Hr.
  exists hf. rewrite create_raw_path by assumption. split; [exact R|].
  rewrite <- Hc at 1. rewrite <- Hr at 1.
  rewrite getHeight_last_corner by (try assumption; lia).
  rewrite Hc, Hr. rewrite (Cells (width - 1) (height - 1)) by lia.
  f_equal. rewrite Q.
  replace (height - 1 - (height - 1)) with 0 by lia.
  destruct (size <? 2 * (width * height)); cbn [Z.eqb Pos.eqb].
  - unfold raw8_height. rewrite Z.mul_0_l, Z.add_0_l. reflexivity.
  - unfold raw16_height, sample16. rewrite Z.mul_0_l, Z.add_0_l.
    replace ((width - 1) * 2) with (2 * (width - 1)) by lia.
    rewrite lor_shift_bytes by apply byte_at_range. reflexivity.
Qed.

Lemma raw_load_then_sample_witness :
  exists hf,
    result (create (raw_world raw_2x3) "dunes.raw" 2 3 f0 f1) = Done (Some hf) /\
    getHeight hf (of_int 1) (of_int 2) = Some (fdiv (of_int 20) f255).
Proof.
  destruct (raw_load_then_sample (raw_world raw_2x3) "dunes.raw" 2 3 f0 f1 raw_2x3)
    as (hf & R & S);
    [right; reflexivity | cbn; lia | reflexivity
    | unfold raw_call; cbn; repeat split; lia | cbn; lia | cbn; lia | cbn; lia |].
  exists hf. split; [exact R|].
  change (2 - 1) with 1 in S. change (3 - 1) with 2 in S.
  rewrite S. vm_compute. reflexivity.
Defined.

(** X15: [getHeight] depends on the grid only through its dimensions, the
    size of its buffer and the cells of the indices it computes (one, two or
    four): a grid that agrees with [h] on these gives the same result, and
    so does [h] after a store to any other cell. *)
Theorem getHeight_reads_only_its_cells (h h' : HeightField) (c r : float) :
  _cols h' = _cols h -> _rows h' = _rows h ->
  fa_size (_array h') = fa_size (_array h) ->
  (forall a c1 r1 i,
      getHeight_access h c r = Some (a, c1, r1) ->
      In i (access_indices a) ->
      fa_cell (_array h') i = fa_cell (_array h) i) ->
  getHeight h' c r = getHeight h c r.
Proof.
  intros Ec Er Es Agree.
  assert (EA : getHeight_access h' c r = getHeight_access h c r).
  { unfold getHeight_access. rewrite Ec, Er. reflexivity. }
  unfold getHeight. rewrite EA.
  destruct (getHeight_access h c r) as [[[a c1] r1]|]; [|reflexivity].
  specialize (Agree a c1 r1).
  assert (Ld : forall i, In i (access_indices a) ->
                         fa_load (_array h') i = fa_load (_array h) i).
  { intros i Hi. unfold fa_load. rewrite Es, (Agree i eq_refl Hi). reflexivity. }
  destruct a; cbn [access_indices] in Ld; cbv zeta;
    repeat rewrite Ld by (cbn; tauto); reflexivity.
Qed.

Lemma getHeight_reads_only_its_cells_witness :
  getHeight (with_cell ramp_grid 15 (S754_infinity false)) half half
  = getHeight ramp_grid half half.
Proof.
  apply (getHeight_reads_only_its_cells ramp_grid
           (with_cell ramp_grid 15 (S754_infinity false)) half half);
    try reflexivity.
  intros a c1 r1 i E. vm_compute in E. injection E as <- _ _.
  intros [<- | [<- | [<- | [<- | []]]]]; reflexivity.
Defined.

(* ================================================================== *)
(** ** X16 to X18: an empty grid, the alpha channel, the assertion *)

(** X16: a grid whose buffer has no cell cannot be sampled: whatever the
    coordinates, [getHeight] converts an unrepresentable value or reads
    outside the buffer.  Such a grid is what [create(columns, rows)] builds
    when [columns * rows] is zero in [unsigned int]. *)
Theorem getHeight_empty_grid (h : HeightField) (c r : float) :
  fa_size (getArray h) = 0 -> getHeight h c r = None.
Proof.
  unfold getArray. intros Z0.
  assert (L : forall i, fa_load (_array h) i = None).
  { intros i. unfold fa_load. rewrite Z0.
    destruct (Z.leb_spec 0 i), (Z.ltb_spec i 0); try reflexivity; lia. }
  unfold getHeight.
  destruct (getHeight_access h c r) as [[[a c1] r1]|]; [|reflexivity].
  destruct a; cbv zeta; rewrite !L; reflexivity.
Qed.

Lemma getHeight_empty_grid_witness :
  getHeight (HeightField_new (fun _ => f0) 0 7) f0 f0 = None /\
  getHeight (HeightField_new (fun _ => f0) 65536 65536) f1 half = None.
Proof.
  split.
  - apply (getHeight_empty_grid (HeightField_new (fun _ => f0) 0 7) f0 f0).
    reflexivity.
  - apply (getHeight_empty_grid (HeightField_new (fun _ => f0) 65536 65536) f1 half).
    reflexivity.
Defined.

(** X17: the image loop reads the first three bytes of a pixel only: two
    images of the same dimensions, each with at most [INT_MAX] bytes of
    pixel data ([width * height * bytes per pixel]), whose pixels agree on
    these three bytes, such as an RGB image and the same image with an
    alpha channel, load the same heights. *)
Theorem image_load_ignores_alpha (W : World) (p p' : string) (im im' : Image)
        (bpp bpp' : Z) (minHeight maxHeight : float) :
  contract W minHeight maxHeight ->
  (4 < String.length p)%nat -> ext_is p "P" "N" "G" = true ->
  (4 < String.length p')%nat -> ext_is p' "P" "N" "G" = true ->
  Image_create W p = Some im -> Image_create W p' = Some im' ->
  pixel_size (img_format im) = Some bpp ->
  pixel_size (img_format im') = Some bpp' ->
  image_ok im bpp -> image_ok im' bpp' ->
  img_width im' = img_width im -> img_height im' = img_height im ->
  (forall x y c, 0 <= x < img_width im -> 0 <= y < img_height im ->
                 0 <= c < 3 ->
                 pixel_byte im' bpp' x y c = pixel_byte im bpp x y c) ->
  exists hf hf',
    result (createFromImage W p minHeight maxHeight) = Done (Some hf) /\
    result (createFromImage W p' minHeight maxHeight) = Done (Some hf') /\
    getColumnCount hf' = getColumnCount hf /\
    getRowCount hf' = getRowCount hf /\
    forall x r, 0 <= x < img_width im -> 0 <= r < img_height im ->
                cell hf' x r = cell hf x r.
Proof.
  intros C L E L' E' EI EI' EF EF' OK OK' Ew Eh Same.
  destruct (create_png_ok W p im bpp minHeight maxHeight EI EF OK)
    as (hf & R & Hc & Hr & _ & Cells).
  destruct (create_png_ok W p' im' bpp' minHeight maxHeight EI' EF' OK')
    as (hf' & R' & Hc' & Hr' & _ & Cells').
  exists hf, hf'. unfold createFromImage.
  rewrite !create_png_path by assumption.
  split; [exact R | split; [exact R' | split; [congruence | split; [congruence|]]]].
  intros x r Hx Hr0.
  rewrite Cells by assumption. rewrite Cells' by (rewrite ?Ew, ?Eh; assumption).
  unfold pixel_height. rewrite Eh.
  rewrite !Same by lia. reflexivity.
Qed.

Lemma image_load_ignores_alpha_witness :
  exists hf hf',
    result (createFromImage gallery "flat.png" f0 (of_int 100)) = Done (Some hf) /\
    result (createFromImage gallery "deep.png" f0 (of_int 100)) = Done (Some hf') /\
    cell hf' 1 0 = cell hf 1 0.
Proof.
  destruct (image_load_ignores_alpha gallery "flat.png" "deep.png"
              rgb_2x2 rgba_2x2 3 4 f0 (of_int 100))
    as (hf & hf' & R & R' & _ & _ & Cells);
    [right; reflexivity | cbn; lia | reflexivity | cbn; lia | reflexivity
    | reflexivity | reflexivity | reflexivity | reflexivity
    | unfold image_ok; cbn; lia | unfold image_ok; cbn; lia
    | reflexivity | reflexivity | |].
  - intros x y c Hx Hy Hc. cbn in Hx, Hy.
    assert (Cx : x = 0 \/ x = 1) by lia.
    assert (Cy : y = 0 \/ y = 1) by lia.
    assert (Cc : c = 0 \/ c = 1 \/ c = 2) by lia.
    destruct Cx as [-> | ->], Cy as [-> | ->], Cc as [-> | [-> | ->]];
      reflexivity.
  - exists hf, hf'. split; [exact R | split; [exact R'|]].
    apply Cells; cbn; lia.
Defined.

Lemma SFcompare_Lt_Gt (a b : float) :
  SFcompare a b = Some Lt -> SFcompare b a = Some Gt.
Proof.
  destruct a as [s|s| |s m e], b as [s'|s'| |s' m' e'];
    try destruct s; try destruct s'; try discriminate; try reflexivity;
    unfold SFcompare.
  - rewrite (Z.compare_antisym e e').
    destruct (e ?= e') eqn:EE; cbn [CompOpp]; try discriminate; try reflexivity.
    change (Pos.compare_cont Eq m' m) with (Pos.compare_cont (CompOpp Eq) m' m).
    rewrite <- (Pos.compare_cont_antisym m m' Eq). destruct (Pos.compare_cont Eq m m'); cbn [CompOpp];
      try discriminate; reflexivity.
  - rewrite (Z.compare_antisym e e').
    destruct (e ?= e') eqn:EE; cbn [CompOpp]; try discriminate; try reflexivity.
    change (Pos.compare_cont Eq m' m) with (Pos.compare_cont (CompOpp Eq) m' m).
    rewrite <- (Pos.compare_cont_antisym m m' Eq). destruct (Pos.compare_cont Eq m m'); cbn [CompOpp];
      try discriminate; reflexivity.
Qed.

(** X18: with assertions enabled, a load whose [maxHeight >= minHeight]
    does not hold -- the bounds are in the wrong order, or one of them is
    NaN -- stops at the assertion, whatever the path and the dimensions:
    no warning, no image or file access, no grid. *)
Theorem create_stops_at_assertion (W : World) (path : string)
        (width height : Z) (minHeight maxHeight : float) :
  assertions W = true ->
  flt maxHeight minHeight = true \/ is_nan minHeight = true \/
  is_nan maxHeight = true ->
  create W path width height minHeight maxHeight = ([], AssertFailed).
Proof.
  intros A B.
  assert (F : fge maxHeight minHeight = false).
  { unfold fge, flt, SFleb, SFltb in *.
    destruct B as [B | [B | B]].
    - destruct (SFcompare maxHeight minHeight) as [[| |]|] eqn:EC;
        try discriminate.
      rewrite (SFcompare_Lt_Gt _ _ EC). reflexivity.
    - destruct minHeight; try discriminate. reflexivity.
    - destruct maxHeight; try discriminate.
      destruct minHeight as [s|s| |s m e]; reflexivity. }
  unfold create, GP_ASSERT. rewrite A, F. reflexivity.
Qed.

Lemma create_stops_at_assertion_witness :
  create (raw_world raw_2x3) "dunes.raw" 2 3 f1 f0 = ([], AssertFailed) /\
  create (raw_world raw_2x3) "dunes.raw" 2 3 f0 S754_nan = ([], AssertFailed).
Proof.
  split.
  - apply (create_stops_at_assertion (raw_world raw_2x3) "dunes.raw" 2 3 f1 f0);
      [reflexivity | left; reflexivity].
  - apply (create_stops_at_assertion (raw_world raw_2x3) "dunes.raw" 2 3 f0 S754_nan);
      [reflexivity | right; right; reflexivity].
Defined.

(* ================================================================== *)
(** ** X19: images of at most [INT_MAX] bytes *)

(** X19: loading a [.png] path whose image decodes with three or four
    channels, with dimensions and a size of the pixel data ([width * height
    * bytes per pixel]) of at most [INT_MAX], gives a grid of the image's
    width and height, and the cell [(x, r)] holds [minHeight +
    normalizedHeightPacked(R, G, B) * (maxHeight - minHeight)] for the first
    three bytes of the pixel at column [x] of image row [height - 1 - r];
    an image of any other format gives the null pointer. *)
Theorem create_from_image (W : World) (path : string) (width height : Z)
        (minHeight maxHeight : float) (im : Image) :
  contract W minHeight maxHeight -> (4 < String.length path)%nat ->
  ext_is path "P" "N" "G" = true -> Image_create W path = Some im ->
  (forall bpp,
      pixel_size (img_format im) = Some bpp -> image_ok im bpp ->
      exists hf,
        result (create W path width height minHeight maxHeight)
        = Done (Some hf) /\
        getColumnCount hf = img_width im /\ getRowCount hf = img_height im /\
        forall x r, 0 <= x < img_width im -> 0 <= r < img_height im ->
          cell hf x r
          = fadd minHeight
              (fmul (normalizedHeightPacked
                       (of_int (pixel_byte im bpp x (img_height im - 1 - r) 0))
                       (of_int (pixel_byte im bpp x (img_height im - 1 - r) 1))
                       (of_int (pixel_byte im bpp x (img_height im - 1 - r) 2)))
                    (fsub maxHeight minHeight))) /\
  (pixel_size (img_format im) = None ->
   result (create W path width height minHeight maxHeight) = Done None).
Proof.
  intros C L E EI. rewrite create_png_path by assumption. split.
  - intros bpp EF OK.
    destruct (create_png_ok W path im bpp minHeight maxHeight EI EF OK)
      as (hf & R & Hc & Hr & _ & Cells).
    exists hf. repeat split; assumption.
  - intros EF. apply create_png_other with (im := im); assumption.
Qed.

Lemma create_from_image_witness :
  exists hf,
    result (create (image_world rgba_2x2) "hills.PNG" 0 0 f0 f1)
    = Done (Some hf) /\
    getColumnCount hf = 2 /\ getRowCount hf = 2 /\
    cell hf 0 0 = fl 1 (-4) /\ cell hf 0 1 = fl 66051 (-24).
Proof.
  destruct (create_from_image (image_world rgba_2x2) "hills.PNG" 0 0 f0 f1 rgba_2x2)
    as [H _]; [right; reflexivity | cbn; lia | reflexivity | reflexivity |].
  destruct (H 4) as (hf & R & Hc & Hr & Cells);
    [reflexivity | unfold image_ok; cbn; lia |].
  exists hf. split; [exact R | split; [exact Hc | split; [exact Hr|]]].
  split; [rewrite (Cells 0 0) | rewrite (Cells 0 1)];
    try (cbn; lia); vm_compute; reflexivity.
Defined.
